(** * ng-snapshot: the control-state snapshot pipeline

    A shallow embedding of the capture / encode / decode / restore core of
    the extension ([src/content/content-script.js], which carries the shared
    utilities [FormControlInspector], [DataEncoder] and [DOMUtils], and
    [src/content/form-inspector.js]), and the properties of the
    specification stated over it.

    JavaScript strings are sequences of UTF-16 code units; they are
    modelled as [list N].  Objects whose property order is observable
    (through [JSON.stringify]) are association lists kept in the
    engine's own-property order. *)

From Stdlib Require Import ZArith NArith List Lia Bool Permutation Sorted.
From Stdlib Require Import Strings.String Strings.Ascii.
From stdpp Require Import gmap.
Import ListNotations.

Local Open Scope N_scope.

(* ================================================================== *)
(** * JavaScript strings *)
(* ================================================================== *)

Abbreviation jsstring := (list N).

(** A source-code string literal (ASCII) as a JavaScript string. *)
Definition lit (s : string) : jsstring :=
  List.map N_of_ascii (list_ascii_of_string s).
Arguments lit s%_string.

Definition jsstring_eqb (a b : jsstring) : bool := bool_decide (a = b).

(** JavaScript truthiness of a string: the empty string is falsy. *)
Definition truthy (s : jsstring) : bool :=
  match s with [] => false | _ :: _ => true end.

(** [a || b] on strings. *)
Definition js_or (a b : jsstring) : jsstring := if truthy a then a else b.

(** [Array.prototype.join]. *)
Fixpoint join (sep : jsstring) (parts : list jsstring) : jsstring :=
  match parts with
  | [] => []
  | [p] => p
  | p :: rest => p ++ sep ++ join sep rest
  end.

(** [String.prototype.split] with a one-character separator: the result
    always has at least one part. *)
Fixpoint split (sep : N) (s : jsstring) : list jsstring :=
  match s with
  | [] => [[]]
  | c :: rest =>
      if c =? sep then [] :: split sep rest
      else match split sep rest with
           | [] => [[c]]
           | p :: ps => (c :: p) :: ps
           end
  end.

(** [String.prototype.toLowerCase] on the ASCII letters, which is what tag
    and attribute names are made of. *)
Definition lower_unit (c : N) : N :=
  if (65 <=? c) && (c <=? 90) then c + 32 else c.
Definition toLowerCase (s : jsstring) : jsstring := List.map lower_unit s.

(** White space as [String.prototype.trim] sees it. *)
Definition is_space (c : N) : bool :=
  existsb (N.eqb c)
    [9; 10; 11; 12; 13; 32; 160; 5760; 8232; 8233; 8239; 8287; 12288; 65279]
  || ((8192 <=? c) && (c <=? 8202)).

Fixpoint trim_start (s : jsstring) : jsstring :=
  match s with
  | [] => []
  | c :: rest => if is_space c then trim_start rest else s
  end.

(** [String.prototype.trim]. *)
Definition trim (s : jsstring) : jsstring := rev (trim_start (rev (trim_start s))).

(** Decimal rendering of an integer ([Number.prototype.toString]). *)
Fixpoint dec_digits (fuel : nat) (n : N) (acc : jsstring) : jsstring :=
  match fuel with
  | O => acc
  | S fuel' =>
      let acc' := (48 + n mod 10) :: acc in
      if n <? 10 then acc' else dec_digits fuel' (n / 10) acc'
  end.
Definition N_to_string (n : N) : jsstring :=
  dec_digits (S (N.to_nat (N.log2 n))) n [].
Definition Z_to_string (z : Z) : jsstring :=
  match z with
  | Z0 => [48]
  | Zpos p => N_to_string (Npos p)
  | Zneg p => 45 :: N_to_string (Npos p)
  end.

(** Lower-case hexadecimal digit, as produced by [toString(16)]. *)
Definition hex_digit (n : N) : N := if n <? 10 then 48 + n else 87 + n.

(* ================================================================== *)
(** * JavaScript values that travel through JSON *)
(* ================================================================== *)

(** Numbers are the integers: the pipeline only serialises a millisecond
    timestamp and byte values. *)
#[warnings="-register-all"]
Inductive json : Type :=
| JNull
| JBool (b : bool)
| JNum (n : Z)
| JStr (s : jsstring)
| JArr (items : list json)
| JObj (props : list (jsstring * json)).

(** ** Own-property order

    An object enumerates its array-index keys first, in ascending numeric
    order, then its other string keys in insertion order; assigning to an
    existing key keeps its position. *)

Definition is_digit (c : N) : bool := (48 <=? c) && (c <=? 57).

Fixpoint digits_value (s : jsstring) (acc : N) : N :=
  match s with
  | [] => acc
  | c :: rest => digits_value rest (10 * acc + (c - 48))
  end.

(** Canonical array index: a decimal numeral without leading zero whose
    value is below 2^32 - 1. *)
Definition array_index (k : jsstring) : option N :=
  match k with
  | [] => None
  | c :: rest =>
      if forallb is_digit k && (negb (c =? 48) || match rest with [] => true | _ => false end)
         && (length k <=? 10)%nat
      then let v := digits_value k 0 in
           if v <? 4294967295 then Some v else None
      else None
  end.

Section ObjSet.
Context {V : Type}.

Fixpoint set_index (i : N) (k : jsstring) (v : V) (o : list (jsstring * V))
  : list (jsstring * V) :=
  match o with
  | [] => [(k, v)]
  | (k', v') :: rest =>
      match array_index k' with
      | Some j =>
          if i =? j then (k', v) :: rest
          else if i <? j then (k, v) :: o
          else (k', v') :: set_index i k v rest
      | None => (k, v) :: o
      end
  end.

Fixpoint set_named (k : jsstring) (v : V) (o : list (jsstring * V))
  : list (jsstring * V) :=
  match o with
  | [] => [(k, v)]
  | (k', v') :: rest =>
      if jsstring_eqb k k' then (k', v) :: rest
      else (k', v') :: set_named k v rest
  end.

(** [o[k] = v]. *)
Definition obj_set (o : list (jsstring * V)) (k : jsstring) (v : V)
  : list (jsstring * V) :=
  match array_index k with
  | Some i => set_index i k v o
  | None => set_named k v o
  end.

Fixpoint obj_get (o : list (jsstring * V)) (k : jsstring) : option V :=
  match o with
  | [] => None
  | (k', v) :: rest => if jsstring_eqb k k' then Some v else obj_get rest k
  end.
End ObjSet.

(** ** [JSON.stringify] *)

Definition hex4 (c : N) : jsstring :=
  [hex_digit (c / 4096 mod 16); hex_digit (c / 256 mod 16);
   hex_digit (c / 16 mod 16); hex_digit (c mod 16)].

Definition is_high_surrogate (c : N) : bool := (55296 <=? c) && (c <=? 56319).
Definition is_low_surrogate (c : N) : bool := (56320 <=? c) && (c <=? 57343).

Definition unicode_escape (c : N) : jsstring := 92 :: 117 :: hex4 c.

(** The body of a quoted JSON string (QuoteJSONString): the two-character
    escapes, [\u00xx] for the other control characters, and [\udxxx] for a
    surrogate that is not part of a pair. *)
Fixpoint quote_body (s : jsstring) : jsstring :=
  match s with
  | [] => []
  | c :: rest =>
      if c =? 34 then 92 :: 34 :: quote_body rest
      else if c =? 92 then 92 :: 92 :: quote_body rest
      else if c =? 8 then 92 :: 98 :: quote_body rest
      else if c =? 12 then 92 :: 102 :: quote_body rest
      else if c =? 10 then 92 :: 110 :: quote_body rest
      else if c =? 13 then 92 :: 114 :: quote_body rest
      else if c =? 9 then 92 :: 116 :: quote_body rest
      else if c <? 32 then unicode_escape c ++ quote_body rest
      else if is_high_surrogate c then
        match rest with
        | d :: rest' =>
            if is_low_surrogate d then c :: d :: quote_body rest'
            else unicode_escape c ++ quote_body rest
        | [] => unicode_escape c
        end
      else if is_low_surrogate c then unicode_escape c ++ quote_body rest
      else c :: quote_body rest
  end.

Definition quote (s : jsstring) : jsstring := 34 :: quote_body s ++ [34].

Fixpoint JSON_stringify (v : json) : jsstring :=
  match v with
  | JNull => lit "null"
  | JBool true => lit "true"
  | JBool false => lit "false"
  | JNum n => Z_to_string n
  | JStr s => quote s
  | JArr items =>
      91 :: join [44] (List.map JSON_stringify items) ++ [93]
  | JObj props =>
      123 :: join [44]
               (List.map (fun kv => quote (fst kv) ++ 58 :: JSON_stringify (snd kv)) props)
          ++ [125]
  end.

(** [String(v)], as used by template literals. *)
Fixpoint ToString (v : json) : jsstring :=
  match v with
  | JNull => lit "null"
  | JBool true => lit "true"
  | JBool false => lit "false"
  | JNum n => Z_to_string n
  | JStr s => s
  | JArr items =>
      join [44] (List.map (fun x => match x with JNull => [] | _ => ToString x end) items)
  | JObj _ => lit "[object Object]"
  end.

(** [Boolean(v)]. *)
Definition ToBoolean (v : json) : bool :=
  match v with
  | JNull => false
  | JBool b => b
  | JNum n => negb (n =? 0)%Z
  | JStr s => truthy s
  | JArr _ | JObj _ => true
  end.

(* ================================================================== *)
(** * The page: a tree of elements *)
(* ================================================================== *)

Record OptionEl := {
  opt_value : jsstring;        (* option.value *)
  opt_textContent : jsstring   (* option.textContent *)
}.

(** What the scripts read from (and write to) a DOM element.  [el_node] is
    the identity of the node: two handles denote the same element exactly
    when their [el_node] agree.  A numeric property that is absent or zero
    is falsy and is represented by [0]. *)
Record Element := {
  el_node : positive;
  el_tagName : jsstring;
  el_attributes : list (jsstring * jsstring);   (* element.attributes, in order *)
  el_id : jsstring;
  el_className : jsstring;
  el_name : jsstring;
  el_type : jsstring;
  el_value : jsstring;
  el_checked : bool;
  el_disabled : bool;
  el_readOnly : bool;
  el_required : bool;
  el_placeholder : jsstring;
  el_pattern : jsstring;
  el_minLength : Z;
  el_maxLength : Z;
  el_min : jsstring;
  el_max : jsstring;
  el_action : jsstring;
  el_method : jsstring;
  el_options : list OptionEl;
  el_selectedIndex : Z;
  el_textContent : jsstring
}.

#[warnings="-register-all"]
Inductive DomNode := Node (e : Element) (children : list DomNode).

Definition node_element (n : DomNode) : Element :=
  match n with Node e _ => e end.
Definition node_children (n : DomNode) : list DomNode :=
  match n with Node _ kids => kids end.

(** An element handle: the node together with its [parentElement] chain,
    nearest ancestor first. *)
Record Located := {
  loc_node : DomNode;
  loc_ancestors : list Element
}.
Definition loc_element (l : Located) : Element := node_element (loc_node l).

(** The node and its descendants in document (pre-)order. *)
Fixpoint subtree (anc : list Element) (n : DomNode) : list Located :=
  match n with
  | Node e kids =>
      {| loc_node := n; loc_ancestors := anc |}
        :: flat_map (subtree (e :: anc)) kids
  end.

(** [document.querySelectorAll(sel)], the selector given as a predicate. *)
Definition querySelectorAll (document : DomNode) (sel : Element -> bool) : list Located :=
  List.filter (fun l => sel (loc_element l)) (subtree [] document).

(** [element.querySelector(sel)]: the first proper descendant that matches. *)
Definition querySelector (l : Located) (sel : Element -> bool) : option Located :=
  List.find (fun d => sel (loc_element d))
    (flat_map (subtree (loc_element l :: loc_ancestors l)) (node_children (loc_node l))).

(** [element.getAttribute(name)] and [element.hasAttribute(name)] on an HTML
    element: the name is lower-cased before it is looked up. *)
Definition getAttribute (e : Element) (name : jsstring) : option jsstring :=
  obj_get (el_attributes e) (toLowerCase name).
Definition hasAttribute (e : Element) (name : jsstring) : bool :=
  match getAttribute e name with Some _ => true | None => false end.

(** Type selectors match the lower-cased tag name. *)
Definition has_tag (tags : list jsstring) (e : Element) : bool :=
  existsb (jsstring_eqb (toLowerCase (el_tagName e))) tags.

(** [a || b] where [a] may be [null]. *)
Definition null_or (a : option jsstring) (b : jsstring) : jsstring :=
  match a with Some s => js_or s b | None => b end.

Definition is_select (e : Element) : bool :=
  jsstring_eqb (toLowerCase (el_tagName e)) (lit "select").

(** The [value] property.  On a [select] it is the value of the selected
    option (empty when none is selected), and assigning it selects the
    first option with that value and deselects every option when there is
    none.  On a file input only the empty string may be assigned.  On other
    controls the string is stored. *)
Definition get_value (e : Element) : jsstring :=
  if is_select e then
    if (el_selectedIndex e <? 0)%Z then []
    else match nth_error (el_options e) (Z.to_nat (el_selectedIndex e)) with
         | Some o => opt_value o
         | None => []
         end
  else el_value e.

(* ================================================================== *)
(** * Control descriptors *)
(* ================================================================== *)

Record MaterialMeta := {
  matLabel : jsstring;
  matHint : jsstring;
  matError : jsstring
}.

Record Metadata := {
  isDisabled : bool;
  isReadonly : bool;
  isRequired : bool;
  placeholder : jsstring;
  className : jsstring;
  material : option MaterialMeta
}.

Record ParentForm := {
  pf_element : positive;
  pf_name : jsstring;
  pf_action : jsstring;
  pf_method : jsstring
}.

(** [FormControlData].  A descriptor that comes out of a decoded snapshot
    carries the nine serialised properties only; its [element],
    [parentForm], [formGroupName] and [materialFormField] are absent. *)
Record FormControlData := {
  ctrl_id : jsstring;
  ctrl_type : jsstring;
  element : option positive;
  tagName : jsstring;
  name : option jsstring;
  value : json;
  attributes : list (jsstring * jsstring);
  validators : list jsstring;
  path : jsstring;
  parentForm : option ParentForm;
  formGroupName : option jsstring;
  materialFormField : option positive;
  metadata : Metadata
}.

(* ================================================================== *)
(** * [FormControlInspector] (shared utilities) *)
(* ================================================================== *)

Module FormControlInspector.

(** [ctrl_${Date.now()}_${Math.random()...}]: the clock and the random
    source are the host's; [fresh n] is the identifier handed out at the
    [n]-th request. *)
Definition generateControlId (fresh : nat -> jsstring) (n : nat) : jsstring :=
  fresh n.

(** [element.value || ''] reads the value property, which on a [select]
    is the value of the selected option. *)
Definition extractElementValue (e : Element) : json :=
  if jsstring_eqb (el_type e) (lit "checkbox") || jsstring_eqb (el_type e) (lit "radio")
  then JBool (el_checked e)
  else JStr (js_or (get_value e) []).

Definition extractElementAttributes (e : Element) : list (jsstring * jsstring) :=
  fold_left (fun attrs attr => obj_set attrs (fst attr) (snd attr)) (el_attributes e) [].

Definition push_if {A} (c : bool) (x : A) (l : list A) : list A :=
  if c then l ++ [x] else l.

Definition extractValidators (e : Element) : list jsstring :=
  let v := [] in
  let v := push_if (el_required e) (lit "required") v in
  let v := push_if (truthy (el_pattern e)) (lit "pattern:" ++ el_pattern e) v in
  let v := push_if (negb (el_minLength e =? 0)%Z)
                   (lit "minLength:" ++ Z_to_string (el_minLength e)) v in
  let v := push_if (negb (el_maxLength e =? 0)%Z)
                   (lit "maxLength:" ++ Z_to_string (el_maxLength e)) v in
  let v := push_if (truthy (el_min e)) (lit "min:" ++ el_min e) v in
  let v := push_if (truthy (el_max e)) (lit "max:" ++ el_max e) v in
  let v := push_if (jsstring_eqb (el_type e) (lit "email")) (lit "email") v in
  let v := push_if (jsstring_eqb (el_type e) (lit "url")) (lit "url") v in
  let v := push_if (jsstring_eqb (el_type e) (lit "number")) (lit "number") v in
  v.

(** One component of the path: tag, then [#id] or the dotted classes. *)
Definition selector (current : Element) : jsstring :=
  let sel := toLowerCase (el_tagName current) in
  if truthy (el_id current) then sel ++ 35 :: el_id current
  else if truthy (el_className current)
       then sel ++ 46 :: join [46] (split 32 (el_className current))
       else sel.

(** The [while (current ...)] loop: [chain] is [current] followed by its
    ancestors; [path.unshift(selector)] at every step. *)
Fixpoint path_loop (chain : list Element) (path : list jsstring) : list jsstring :=
  match chain with
  | [] => path
  | current :: parents => path_loop parents (selector current :: path)
  end.

Definition path_components (l : Located) : list jsstring :=
  path_loop (loc_element l :: loc_ancestors l) [].

Definition generateElementPath (l : Located) : jsstring :=
  join (lit " > ") (path_components l).

Definition findParentForm (l : Located) : option ParentForm :=
  match List.find (fun parent =>
                     jsstring_eqb (toLowerCase (el_tagName parent)) (lit "form")
                     || hasAttribute parent (lit "formGroup"))
                  (loc_ancestors l) with
  | Some parent =>
      Some {| pf_element := el_node parent;
              pf_name := null_or (getAttribute parent (lit "formGroup"))
                                 (js_or (el_name parent) []);
              pf_action := js_or (el_action parent) [];
              pf_method := js_or (el_method parent) (lit "GET") |}
  | None => None
  end.

Definition findFormGroupName (l : Located) : option jsstring :=
  match List.find (fun parent => hasAttribute parent (lit "formGroupName"))
                  (loc_ancestors l) with
  | Some parent => getAttribute parent (lit "formGroupName")
  | None => None
  end.

Definition base_metadata (e : Element) : Metadata :=
  {| isDisabled := el_disabled e || false;
     isReadonly := el_readOnly e || false;
     isRequired := el_required e || false;
     placeholder := js_or (el_placeholder e) [];
     className := js_or (el_className e) [];
     material := None |}.

Definition extractAngularFormControlData (cid : jsstring) (l : Located) : FormControlData :=
  let e := loc_element l in
  {| ctrl_id := cid;
     ctrl_type := lit "angular_form_control";
     element := Some (el_node e);
     tagName := toLowerCase (el_tagName e);
     name := getAttribute e (lit "formControl");
     value := extractElementValue e;
     attributes := extractElementAttributes e;
     validators := extractValidators e;
     path := generateElementPath l;
     parentForm := findParentForm l;
     formGroupName := None;
     materialFormField := None;
     metadata := base_metadata e |}.

Definition extractAngularFormControlNameData (cid : jsstring) (l : Located) : FormControlData :=
  let e := loc_element l in
  {| ctrl_id := cid;
     ctrl_type := lit "angular_form_control_name";
     element := Some (el_node e);
     tagName := toLowerCase (el_tagName e);
     name := getAttribute e (lit "formControlName");
     value := extractElementValue e;
     attributes := extractElementAttributes e;
     validators := extractValidators e;
     path := generateElementPath l;
     parentForm := findParentForm l;
     formGroupName := findFormGroupName l;
     materialFormField := None;
     metadata := base_metadata e |}.

(** [el_name] is the [name] property of a form element.  On an element
    that has no such property and an empty [ngModel] attribute the code
    stores [undefined], which [JSON.stringify] leaves out; the model
    stores the empty string. *)
Definition extractNgModelData (cid : jsstring) (l : Located) : FormControlData :=
  let e := loc_element l in
  {| ctrl_id := cid;
     ctrl_type := lit "angular_ng_model";
     element := Some (el_node e);
     tagName := toLowerCase (el_tagName e);
     name := Some (null_or (getAttribute e (lit "ngModel")) (el_name e));
     value := extractElementValue e;
     attributes := extractElementAttributes e;
     validators := extractValidators e;
     path := generateElementPath l;
     parentForm := findParentForm l;
     formGroupName := None;
     materialFormField := None;
     metadata := base_metadata e |}.

Definition extractGenericFormControlData (cid : jsstring) (l : Located) : FormControlData :=
  let e := loc_element l in
  {| ctrl_id := cid;
     ctrl_type := lit "generic_form_control";
     element := Some (el_node e);
     tagName := toLowerCase (el_tagName e);
     name := Some (js_or (el_name e) (js_or (el_id e) []));
     value := extractElementValue e;
     attributes := extractElementAttributes e;
     validators := extractValidators e;
     path := generateElementPath l;
     parentForm := findParentForm l;
     formGroupName := None;
     materialFormField := None;
     metadata := base_metadata e |}.

Definition text_of (formField : Located) (tag : jsstring) : jsstring :=
  match querySelector formField (has_tag [tag]) with
  | Some d => js_or (el_textContent (loc_element d)) []
  | None => []
  end.

Definition extractMaterialFormControlData (cid : jsstring) (input formField : Located)
  : FormControlData :=
  let e := loc_element input in
  {| ctrl_id := cid;
     ctrl_type := lit "material_form_control";
     element := Some (el_node e);
     tagName := toLowerCase (el_tagName e);
     name := Some (null_or (getAttribute e (lit "formControlName")) (js_or (el_name e) []));
     value := extractElementValue e;
     attributes := extractElementAttributes e;
     validators := extractValidators e;
     path := generateElementPath input;
     parentForm := findParentForm input;
     formGroupName := None;
     materialFormField := Some (el_node (loc_element formField));
     metadata :=
       {| isDisabled := el_disabled e || false;
          isReadonly := el_readOnly e || false;
          isRequired := el_required e || false;
          placeholder := js_or (el_placeholder e) [];
          className := js_or (el_className e) [];
          material := Some {| matLabel := text_of formField (lit "mat-label");
                              matHint := text_of formField (lit "mat-hint");
                              matError := text_of formField (lit "mat-error") |} |} |}.

(** [elements.forEach(element => controls.push(extract(element)))], the
    identifier counter threaded through.  An extractor answers [null],
    and its element is passed over, when it throws, which
    [generateElementPath] does on an ancestor whose [className] is not a
    string (an element inside an [svg]).  In a [DomNode] every
    [className] is a string, so the extractors return a descriptor for
    every element and the [if (controlData)] of the loop always holds. *)
Fixpoint extract_each (fresh : nat -> jsstring)
    (extract : jsstring -> Located -> FormControlData)
    (elements : list Located) (n : nat) : list FormControlData * nat :=
  match elements with
  | [] => ([], n)
  | l :: rest =>
      let '(controls, n') := extract_each fresh extract rest (S n) in
      (extract (generateControlId fresh n) l :: controls, n')
  end.

Definition findAngularFormControls (fresh : nat -> jsstring) (document : DomNode) (n : nat)
  : list FormControlData * nat :=
  let '(c1, n) := extract_each fresh extractAngularFormControlData
                    (querySelectorAll document (fun e => hasAttribute e (lit "formControl"))) n in
  let '(c2, n) := extract_each fresh extractAngularFormControlNameData
                    (querySelectorAll document (fun e => hasAttribute e (lit "formControlName"))) n in
  let '(c3, n) := extract_each fresh extractNgModelData
                    (querySelectorAll document (fun e => hasAttribute e (lit "ngModel"))) n in
  (c1 ++ c2 ++ c3, n).

Definition findGenericFormControls (fresh : nat -> jsstring) (document : DomNode) (n : nat)
  : list FormControlData * nat :=
  extract_each fresh extractGenericFormControlData
    (List.filter
       (fun l => negb (hasAttribute (loc_element l) (lit "formControl")
                       || hasAttribute (loc_element l) (lit "formControlName")
                       || hasAttribute (loc_element l) (lit "ngModel")))
       (querySelectorAll document (has_tag [lit "input"; lit "select"; lit "textarea"]))) n.

Fixpoint material_each (fresh : nat -> jsstring) (formFields : list Located) (n : nat)
  : list FormControlData * nat :=
  match formFields with
  | [] => ([], n)
  | formField :: rest =>
      match querySelector formField
              (has_tag [lit "input"; lit "select"; lit "textarea"; lit "mat-select"]) with
      | Some input =>
          let '(controls, n') := material_each fresh rest (S n) in
          (extractMaterialFormControlData (generateControlId fresh n) input formField
             :: controls, n')
      | None => material_each fresh rest n
      end
  end.

Definition findMaterialFormControls (fresh : nat -> jsstring) (document : DomNode) (n : nat)
  : list FormControlData * nat :=
  material_each fresh (querySelectorAll document (has_tag [lit "mat-form-field"])) n.

(** One pass of [inspectAllFormControls]: a candidate is kept when its
    element is not yet in [processedElements], and is then added to it. *)
Fixpoint merge_pass (controls : list FormControlData)
    (acc : list FormControlData * gset (option positive))
  : list FormControlData * gset (option positive) :=
  match controls with
  | [] => acc
  | control :: rest =>
      let '(formControls, processedElements) := acc in
      if bool_decide (element control ∈ processedElements)
      then merge_pass rest acc
      else merge_pass rest (formControls ++ [control],
                            {[ element control ]} ∪ processedElements)
  end.

Definition inspectAllFormControls (fresh : nat -> jsstring) (document : DomNode)
  : list FormControlData :=
  let acc := ([], ∅) in
  let '(angularControls, n) := findAngularFormControls fresh document 0%nat in
  let acc := merge_pass angularControls acc in
  let '(genericControls, n) := findGenericFormControls fresh document n in
  let acc := merge_pass genericControls acc in
  let '(materialControls, n) := findMaterialFormControls fresh document n in
  let acc := merge_pass materialControls acc in
  fst acc.

End FormControlInspector.

(* ================================================================== *)
(** * [AngularFormInspector] (form-inspector.js) *)
(* ================================================================== *)

Module AngularFormInspector.

Definition MAX_DEPTH : nat := 10.

Definition selector (current : Element) : jsstring :=
  let sel := toLowerCase (el_tagName current) in
  if truthy (el_id current) then sel ++ 35 :: el_id current
  else if truthy (el_className current) then
    let classes := List.filter (fun cls => truthy (trim cls)) (split 32 (el_className current)) in
    if (0 <? length classes)%nat then sel ++ 46 :: join [46] classes else sel
  else sel.

(** The loop leaves as soon as the path is longer than [MAX_DEPTH]. *)
Fixpoint path_loop (chain : list Element) (path : list jsstring) : list jsstring :=
  match chain with
  | [] => path
  | current :: parents =>
      let path := selector current :: path in
      if (MAX_DEPTH <? length path)%nat then path else path_loop parents path
  end.

Definition path_components (l : Located) : list jsstring :=
  path_loop (loc_element l :: loc_ancestors l) [].

Definition generateElementPath (l : Located) : jsstring :=
  join (lit " > ") (path_components l).

End AngularFormInspector.

(* ================================================================== *)
(** * Exceptions and state *)
(* ================================================================== *)

(** A call either returns or throws; the scripts only ever read the
    [message] of what they catch. *)
Inductive result (A : Type) : Type :=
| Ok (a : A)
| Throw (message : jsstring).
Arguments Ok {A} a.
Arguments Throw {A} message.

(** A computation over a state [S] that may throw; what was written before
    the throw stays written. *)
Definition JS (S A : Type) : Type := S -> S * result A.

Definition ret {S A} (a : A) : JS S A := fun s => (s, Ok a).
Definition throw {S A} (message : jsstring) : JS S A := fun s => (s, Throw message).
Definition bind {S A B} (m : JS S A) (k : A -> JS S B) : JS S B :=
  fun s => match m s with
           | (s', Ok a) => k a s'
           | (s', Throw e) => (s', Throw e)
           end.
Definition try_catch {S A} (m : JS S A) (handler : jsstring -> JS S A) : JS S A :=
  fun s => match m s with
           | (s', Ok a) => (s', Ok a)
           | (s', Throw e) => handler e s'
           end.
Definition modify {S} (f : S -> S) : JS S unit := fun s => (f s, Ok tt).
Definition get {S} : JS S S := fun s => (s, Ok s).

Notation "'do' x <- m ; k" := (bind m (fun x => k))
  (at level 10, x name, m at level 100, k at level 200).
Notation "m ;; k" := (bind m (fun _ => k))
  (at level 100, k at level 200, right associativity).

(** ** The live page *)

Record Page := {
  page_dom : DomNode;
  page_events : list (positive * jsstring)   (* dispatched: target, event type *)
}.

Definition find_element (id : positive) (dom : DomNode) : option Element :=
  option_map loc_element
    (List.find (fun l => Pos.eqb (el_node (loc_element l)) id) (subtree [] dom)).

Fixpoint update_element (id : positive) (f : Element -> Element) (n : DomNode) : DomNode :=
  match n with
  | Node e kids =>
      Node (if Pos.eqb (el_node e) id then f e else e)
           (List.map (update_element id f) kids)
  end.

(** A write to one property of one element.  What the browser does on
    its own after such a write is not part of the page model: the other
    radio buttons of a group are not unchecked when one is checked. *)
Definition write_element (id : positive) (f : Element -> Element) : JS Page unit :=
  modify (fun pg => {| page_dom := update_element id f (page_dom pg);
                       page_events := page_events pg |}).

Definition dispatchEvent (id : positive) (eventType : jsstring) : JS Page unit :=
  modify (fun pg => {| page_dom := page_dom pg;
                       page_events := page_events pg ++ [(id, eventType)] |}).

Definition set_checked (b : bool) (e : Element) : Element :=
  {| el_node := el_node e; el_tagName := el_tagName e; el_attributes := el_attributes e;
     el_id := el_id e; el_className := el_className e; el_name := el_name e;
     el_type := el_type e; el_value := el_value e; el_checked := b;
     el_disabled := el_disabled e; el_readOnly := el_readOnly e;
     el_required := el_required e; el_placeholder := el_placeholder e;
     el_pattern := el_pattern e; el_minLength := el_minLength e;
     el_maxLength := el_maxLength e; el_min := el_min e; el_max := el_max e;
     el_action := el_action e; el_method := el_method e; el_options := el_options e;
     el_selectedIndex := el_selectedIndex e; el_textContent := el_textContent e |}.

Definition set_value_slot (v : jsstring) (e : Element) : Element :=
  {| el_node := el_node e; el_tagName := el_tagName e; el_attributes := el_attributes e;
     el_id := el_id e; el_className := el_className e; el_name := el_name e;
     el_type := el_type e; el_value := v; el_checked := el_checked e;
     el_disabled := el_disabled e; el_readOnly := el_readOnly e;
     el_required := el_required e; el_placeholder := el_placeholder e;
     el_pattern := el_pattern e; el_minLength := el_minLength e;
     el_maxLength := el_maxLength e; el_min := el_min e; el_max := el_max e;
     el_action := el_action e; el_method := el_method e; el_options := el_options e;
     el_selectedIndex := el_selectedIndex e; el_textContent := el_textContent e |}.

Definition set_selectedIndex (i : Z) (e : Element) : Element :=
  {| el_node := el_node e; el_tagName := el_tagName e; el_attributes := el_attributes e;
     el_id := el_id e; el_className := el_className e; el_name := el_name e;
     el_type := el_type e; el_value := el_value e; el_checked := el_checked e;
     el_disabled := el_disabled e; el_readOnly := el_readOnly e;
     el_required := el_required e; el_placeholder := el_placeholder e;
     el_pattern := el_pattern e; el_minLength := el_minLength e;
     el_maxLength := el_maxLength e; el_min := el_min e; el_max := el_max e;
     el_action := el_action e; el_method := el_method e; el_options := el_options e;
     el_selectedIndex := i; el_textContent := el_textContent e |}.

(** Position of the first item that satisfies [p], or [-1]. *)
Fixpoint index_of {A} (p : A -> bool) (l : list A) (i : Z) : Z :=
  match l with
  | [] => (-1)%Z
  | x :: rest => if p x then i else index_of p rest (i + 1)%Z
  end.

Definition file_value_message : jsstring :=
  lit "Failed to set the 'value' property on 'HTMLInputElement': This input element accepts a filename, which may only be programmatically set to the empty string.".

(** [element.value = v].  The text is stored as it is given: the model
    has neither the value sanitisation of the input types (line breaks
    removed from a text, what is not a number emptied in a number input)
    nor the inputs whose value lives in the [value] attribute ([hidden],
    [submit], [image], [reset], [button]). *)
Definition assign_value (e : Element) (v : json) : JS Page unit :=
  if is_select e then
    write_element (el_node e)
      (set_selectedIndex (index_of (fun o => jsstring_eqb (opt_value o) (ToString v))
                                   (el_options e) 0%Z))
  else
    let s := match v with JNull => [] | _ => ToString v end in
    if jsstring_eqb (el_type e) (lit "file") && truthy s
    then throw file_value_message
    else write_element (el_node e) (set_value_slot s).

(* ================================================================== *)
(** * [DOMUtils] *)
(* ================================================================== *)

Module DOMUtils.

Definition triggerChangeEvent (e : Element) (value : json) : JS Page unit :=
  (if jsstring_eqb (el_type e) (lit "checkbox") || jsstring_eqb (el_type e) (lit "radio")
   then write_element (el_node e) (set_checked (ToBoolean value))
   else assign_value e value) ;;
  dispatchEvent (el_node e) (lit "input") ;;
  dispatchEvent (el_node e) (lit "change") ;;
  dispatchEvent (el_node e) (lit "blur") ;;
  if hasAttribute e (lit "formControlName") || hasAttribute e (lit "ngModel")
  then dispatchEvent (el_node e) (lit "ng-change")
  else ret tt.

End DOMUtils.

(* ================================================================== *)
(** * [AngularFormSnapshotContent] (content script): restore *)
(* ================================================================== *)

Record Snapshot := {
  snap_version : jsstring;
  snap_timestamp : Z;
  snap_url : jsstring;
  snap_title : jsstring;
  snap_userAgent : jsstring;
  formControls : list FormControlData
}.

Record ErrorEntry := {
  err_control : jsstring;   (* control: snapshotControl.name || snapshotControl.path *)
  err_error : jsstring      (* error: error.message *)
}.

Record RestoreReport := {
  restoredCount : nat;
  skippedCount : nat;
  errorCount : nat;
  errors : list ErrorEntry;
  message : jsstring
}.

Module AngularFormSnapshotContent.

Definition attributes_object (attrs : list (jsstring * jsstring)) : json :=
  JObj (List.map (fun kv => (fst kv, JStr (snd kv))) attrs).

Definition generateControlKey (control : FormControlData) : jsstring :=
  let parts :=
    [ null_or (name control) [];
      js_or (tagName control) [];
      js_or (path control) [];
      JSON_stringify (attributes_object (attributes control)) ] in
  join [124] (List.filter truthy parts).

Definition restoreSelectValue (e : Element) (value : json) : JS Page unit :=
  let matches (option : OptionEl) :=
    match value with
    | JStr s => jsstring_eqb (opt_value option) s || jsstring_eqb (opt_textContent option) s
    | _ => false
    end in
  match List.find matches (el_options e) with
  | Some _ => write_element (el_node e) (set_selectedIndex (index_of matches (el_options e) 0%Z))
  | None => throw (lit "Option not found: " ++ ToString value)
  end.

Definition restoreMaterialValue (e : Element) (value : json) : JS Page unit :=
  if jsstring_eqb (toLowerCase (el_tagName e)) (lit "mat-select") then
    do pg <- get;
    let matOptions := querySelectorAll (page_dom pg) (has_tag [lit "mat-option"]) in
    let matches (option : Located) :=
      match value with
      | JStr s =>
          match getAttribute (loc_element option) (lit "value") with
          | Some a => jsstring_eqb a s
          | None => false
          end
          || jsstring_eqb (trim (el_textContent (loc_element option))) s
      | JNull =>
          match getAttribute (loc_element option) (lit "value") with
          | Some _ => false
          | None => true
          end
      | _ => false
      end in
    match List.find matches matOptions with
    | Some matchingOption => dispatchEvent (el_node (loc_element matchingOption)) (lit "click")
    | None => ret tt
    end
  else ret tt.

(** [value || ''] before it is assigned. *)
Definition or_empty (value : json) : json := if ToBoolean value then value else JStr [].

(** The part of [restoreControlValue] that writes: the assignment by
    control type, the change events, and the Material follow-up. *)
Definition apply_value (currentControl : FormControlData) (e : Element) (value : json)
  : JS Page unit :=
  (if jsstring_eqb (el_type e) (lit "checkbox")
      || jsstring_eqb (el_type e) (lit "radio")
   then write_element (el_node e) (set_checked (ToBoolean value))
   else if jsstring_eqb (toLowerCase (el_tagName e)) (lit "select")
        then restoreSelectValue e value
        else assign_value e (or_empty value)) ;;
  DOMUtils.triggerChangeEvent e value ;;
  if jsstring_eqb (ctrl_type currentControl) (lit "material_form_control")
  then restoreMaterialValue e value
  else ret tt.

(** [currentControl.element] is a handle on a node of the live page; a
    handle that denotes no node of the page cannot come out of an
    inspection of that page and is treated like an absent element. *)
Definition restoreControlValue (currentControl snapshotControl : FormControlData)
  : JS Page unit :=
  let value := value snapshotControl in
  match element currentControl with
  | None => throw (lit "Control element not found")
  | Some handle =>
      do pg <- get;
      match find_element handle (page_dom pg) with
      | None => throw (lit "Control element not found")
      | Some e =>
          if el_readOnly e || el_disabled e
          then throw (lit "Control is readonly or disabled")
          else apply_value currentControl e value
      end
  end.

(** [currentFormControls.forEach(control => map.set(key(control), control))]. *)
Definition build_map (currentFormControls : list FormControlData)
  : gmap jsstring FormControlData :=
  fold_left (fun m control => <[ generateControlKey control := control ]> m)
            currentFormControls ∅.

Record Tally := {
  t_restored : nat;
  t_skipped : nat;
  t_errors : list ErrorEntry
}.

(** One turn of [for (const snapshotControl of snapshot.formControls)]:
    the body is a [try] whose [catch] records the failure. *)
Definition restore_one (currentControlsMap : gmap jsstring FormControlData)
    (snapshotControl : FormControlData) (t : Tally) : JS Page Tally :=
  try_catch
    (let key := generateControlKey snapshotControl in
     match currentControlsMap !! key with
     | None =>
         ret {| t_restored := t_restored t; t_skipped := S (t_skipped t);
                t_errors := t_errors t |}
     | Some currentControl =>
         restoreControlValue currentControl snapshotControl ;;
         ret {| t_restored := S (t_restored t); t_skipped := t_skipped t;
                t_errors := t_errors t |}
     end)
    (fun error =>
       ret {| t_restored := t_restored t; t_skipped := t_skipped t;
              t_errors := t_errors t
                          ++ [{| err_control := null_or (name snapshotControl)
                                                        (path snapshotControl);
                                 err_error := error |}] |}).

Fixpoint restore_loop (currentControlsMap : gmap jsstring FormControlData)
    (controls : list FormControlData) (t : Tally) : JS Page Tally :=
  match controls with
  | [] => ret t
  | snapshotControl :: rest =>
      do t' <- restore_one currentControlsMap snapshotControl t;
      restore_loop currentControlsMap rest t'
  end.

(** [restoreForms] once the snapshot has been obtained (from the options,
    the token or the clipboard): a missing snapshot is the only failure of
    the whole call; logging and the notification banner are left out. *)
Definition restoreForms (fresh : nat -> jsstring) (snapshot : option Snapshot)
  : JS Page RestoreReport :=
  match snapshot with
  | None => throw (lit "Invalid snapshot data")
  | Some snapshot =>
      do pg <- get;
      let currentFormControls :=
        FormControlInspector.inspectAllFormControls fresh (page_dom pg) in
      let currentControlsMap := build_map currentFormControls in
      do t <- restore_loop currentControlsMap (formControls snapshot)
                {| t_restored := 0; t_skipped := 0; t_errors := [] |};
      ret {| restoredCount := t_restored t;
             skippedCount := t_skipped t;
             errorCount := length (t_errors t);
             errors := t_errors t;
             message := lit "Form restoration completed" |}
  end.

End AngularFormSnapshotContent.

(* ================================================================== *)
(** * Host encodings: UTF-8, base64, SHA-256 *)
(* ================================================================== *)

(** ** UTF-8 *)

Definition utf8_of_code_point (cp : N) : list N :=
  if cp <? 128 then [cp]
  else if cp <? 2048 then [192 + cp / 64; 128 + cp mod 64]
  else if cp <? 65536 then [224 + cp / 4096; 128 + (cp / 64) mod 64; 128 + cp mod 64]
  else [240 + (cp / 262144) mod 8; 128 + (cp / 4096) mod 64;
        128 + (cp / 64) mod 64; 128 + cp mod 64].

Definition pair_code_point (hi lo : N) : N := 65536 + (hi - 55296) * 1024 + (lo - 56320).

(** UTF-8 of a string; [lone] says what an unpaired surrogate becomes:
    [None] makes the whole encoding fail. *)
Fixpoint utf8_encode (lone : option (list N)) (s : jsstring) : option (list N) :=
  match s with
  | [] => Some []
  | c :: rest =>
      if is_high_surrogate c then
        match rest with
        | d :: rest' =>
            if is_low_surrogate d
            then option_map (app (utf8_of_code_point (pair_code_point c d)))
                            (utf8_encode lone rest')
            else match lone with
                 | Some r => option_map (app r) (utf8_encode lone rest)
                 | None => None
                 end
        | [] => lone
        end
      else if is_low_surrogate c then
        match lone with
        | Some r => option_map (app r) (utf8_encode lone rest)
        | None => None
        end
      else option_map (app (utf8_of_code_point c)) (utf8_encode lone rest)
  end.

Definition uri_malformed : jsstring := lit "URI malformed".

(** [unescape(encodeURIComponent(s))]: the UTF-8 bytes of [s] as a binary
    string; a lone surrogate is a [URIError]. *)
Definition unescape_encodeURIComponent (s : jsstring) : result jsstring :=
  match utf8_encode None s with
  | Some bytes => Ok bytes
  | None => Throw uri_malformed
  end.

(** [new TextEncoder().encode(s)]: a lone surrogate becomes U+FFFD. *)
Definition TextEncoder_encode (s : jsstring) : list N :=
  match utf8_encode (Some [239; 191; 189]) s with
  | Some bytes => bytes
  | None => []
  end.

Definition is_continuation (b : N) : bool := (128 <=? b) && (b <? 192).

Definition utf16_of_code_point (cp : N) : jsstring :=
  if cp <? 65536 then [cp]
  else [55296 + (cp - 65536) / 1024; 56320 + (cp - 65536) mod 1024].

(** Strict UTF-8 decoding: over-long forms, encoded surrogates and code
    points above U+10FFFF are rejected. *)
Fixpoint utf8_decode (bytes : list N) : option jsstring :=
  match bytes with
  | [] => Some []
  | b0 :: rest =>
      if b0 <? 128 then option_map (cons b0) (utf8_decode rest)
      else if b0 <? 192 then None
      else if b0 <? 224 then
        match rest with
        | b1 :: rest' =>
            let cp := (b0 - 192) * 64 + (b1 - 128) in
            if is_continuation b1 && (128 <=? cp)
            then option_map (cons cp) (utf8_decode rest')
            else None
        | _ => None
        end
      else if b0 <? 240 then
        match rest with
        | b1 :: b2 :: rest' =>
            let cp := (b0 - 224) * 4096 + (b1 - 128) * 64 + (b2 - 128) in
            if is_continuation b1 && is_continuation b2 && (2048 <=? cp)
               && negb ((55296 <=? cp) && (cp <=? 57343))
            then option_map (cons cp) (utf8_decode rest')
            else None
        | _ => None
        end
      else if b0 <? 248 then
        match rest with
        | b1 :: b2 :: b3 :: rest' =>
            let cp := (b0 - 240) * 262144 + (b1 - 128) * 4096
                      + (b2 - 128) * 64 + (b3 - 128) in
            if is_continuation b1 && is_continuation b2 && is_continuation b3
               && (65536 <=? cp) && (cp <=? 1114111)
            then option_map (app (utf16_of_code_point cp)) (utf8_decode rest')
            else None
        | _ => None
        end
      else None
  end.

(** [decodeURIComponent(escape(bin))] on a binary string. *)
Definition decodeURIComponent_escape (bin : jsstring) : result jsstring :=
  match utf8_decode bin with
  | Some s => Ok s
  | None => Throw uri_malformed
  end.

(** ** base64 *)

Definition b64_char (i : N) : N :=
  if i <? 26 then 65 + i
  else if i <? 52 then 71 + i
  else if i <? 62 then i - 4
  else if i =? 62 then 43 else 47.

Definition b64_value (c : N) : option N :=
  if (65 <=? c) && (c <=? 90) then Some (c - 65)
  else if (97 <=? c) && (c <=? 122) then Some (c - 71)
  else if (48 <=? c) && (c <=? 57) then Some (c + 4)
  else if c =? 43 then Some 62
  else if c =? 47 then Some 63
  else None.

Fixpoint btoa_bytes (l : list N) : jsstring :=
  match l with
  | [] => []
  | [a] => [b64_char (a / 4); b64_char ((a mod 4) * 16); 61; 61]
  | [a; b] => [b64_char (a / 4); b64_char ((a mod 4) * 16 + b / 16);
               b64_char ((b mod 16) * 4); 61]
  | a :: b :: c :: rest =>
      b64_char (a / 4) :: b64_char ((a mod 4) * 16 + b / 16)
        :: b64_char ((b mod 16) * 4 + c / 64) :: b64_char (c mod 64)
        :: btoa_bytes rest
  end.

Definition invalid_character : jsstring :=
  lit "Failed to execute 'btoa' on 'Window': The string to be encoded contains characters outside of the Latin1 range.".
Definition not_correctly_encoded : jsstring :=
  lit "Failed to execute 'atob' on 'Window': The string to be decoded is not correctly encoded.".

Definition btoa (bin : jsstring) : result jsstring :=
  if forallb (fun c => c <? 256) bin then Ok (btoa_bytes bin) else Throw invalid_character.

Fixpoint sextets (s : jsstring) : option (list N) :=
  match s with
  | [] => Some []
  | c :: rest =>
      match b64_value c, sextets rest with
      | Some v, Some vs => Some (v :: vs)
      | _, _ => None
      end
  end.

Fixpoint bytes_of_sextets (l : list N) : list N :=
  match l with
  | a :: b :: c :: d :: rest =>
      (a * 4 + b / 16) :: ((b mod 16) * 16 + c / 4) :: ((c mod 4) * 64 + d)
        :: bytes_of_sextets rest
  | [a; b; c] => [a * 4 + b / 16; (b mod 16) * 16 + c / 4]
  | [a; b] => [a * 4 + b / 16]
  | _ => []
  end.

Definition is_ascii_whitespace (c : N) : bool :=
  existsb (N.eqb c) [9; 10; 12; 13; 32].

(** Drop one or two trailing [=]. *)
Definition strip_padding (s : jsstring) : jsstring :=
  match rev s with
  | 61 :: 61 :: r => rev r
  | 61 :: r => rev r
  | _ => s
  end.

(** [atob]: the forgiving base64 decoding of the HTML standard. *)
Definition atob (data : jsstring) : result jsstring :=
  let data := List.filter (fun c => negb (is_ascii_whitespace c)) data in
  let data := if (length data mod 4 =? 0)%nat then strip_padding data else data in
  if (length data mod 4 =? 1)%nat then Throw not_correctly_encoded
  else match sextets data with
       | Some vs => Ok (bytes_of_sextets vs)
       | None => Throw not_correctly_encoded
       end.

(** ** SHA-256 ([crypto.subtle.digest('SHA-256', bytes)]) *)

Module SHA256.

Definition w32 (x : N) : N := x mod 4294967296.
Definition add (x y : N) : N := w32 (x + y).
Definition rotr (n x : N) : N := N.lor (N.shiftr x n) (w32 (N.shiftl x (32 - n))).
Definition shr (n x : N) : N := N.shiftr x n.
Definition lnot32 (x : N) : N := 4294967295 - x.

Definition Ch (x y z : N) : N := N.lxor (N.land x y) (N.land (lnot32 x) z).
Definition Maj (x y z : N) : N := N.lxor (N.lxor (N.land x y) (N.land x z)) (N.land y z).
Definition Sigma0 (x : N) : N := N.lxor (N.lxor (rotr 2 x) (rotr 13 x)) (rotr 22 x).
Definition Sigma1 (x : N) : N := N.lxor (N.lxor (rotr 6 x) (rotr 11 x)) (rotr 25 x).
Definition sigma0 (x : N) : N := N.lxor (N.lxor (rotr 7 x) (rotr 18 x)) (shr 3 x).
Definition sigma1 (x : N) : N := N.lxor (N.lxor (rotr 17 x) (rotr 19 x)) (shr 10 x).

Definition K : list N :=
  [1116352408; 1899447441; 3049323471; 3921009573; 961987163; 1508970993;
   2453635748; 2870763221; 3624381080; 310598401; 607225278; 1426881987;
   1925078388; 2162078206; 2614888103; 3248222580; 3835390401; 4022224774;
   264347078; 604807628; 770255983; 1249150122; 1555081692; 1996064986;
   2554220882; 2821834349; 2952996808; 3210313671; 3336571891; 3584528711;
   113926993; 338241895; 666307205; 773529912; 1294757372; 1396182291;
   1695183700; 1986661051; 2177026350; 2456956037; 2730485921; 2820302411;
   3259730800; 3345764771; 3516065817; 3600352804; 4094571909; 275423344;
   430227734; 506948616; 659060556; 883997877; 958139571; 1322822218;
   1537002063; 1747873779; 1955562222; 2024104815; 2227730452; 2361852424;
   2428436474; 2756734187; 3204031479; 3329325298].

Definition H0 : list N :=
  [1779033703; 3144134277; 1013904242; 2773480762;
   1359893119; 2600822924; 528734635; 1541459225].

(** Message padding: a [1] bit, zeros, and the bit length on 64 bits. *)
Definition be_bytes (width : nat) (x : N) : list N :=
  List.map (fun i => (x / 256 ^ N.of_nat i) mod 256) (rev (seq 0 width)).

Definition pad (msg : list N) : list N :=
  let len := length msg in
  let zeros := ((64 - (len + 9) mod 64) mod 64)%nat in
  msg ++ 128 :: repeat 0 zeros ++ be_bytes 8 (8 * N.of_nat len).

Fixpoint words_of_bytes (l : list N) : list N :=
  match l with
  | a :: b :: c :: d :: rest =>
      (a * 16777216 + b * 65536 + c * 256 + d) :: words_of_bytes rest
  | _ => []
  end.

Fixpoint chunks (fuel : nat) (l : list N) : list (list N) :=
  match fuel with
  | O => []
  | S fuel' =>
      match l with
      | [] => []
      | _ => firstn 16 l :: chunks fuel' (skipn 16 l)
      end
  end.

(** The message schedule; [recent] holds the last sixteen words, newest
    first. *)
Fixpoint schedule (n : nat) (recent : list N) : list N :=
  match n with
  | O => []
  | S n' =>
      let w := add (add (sigma1 (nth 1 recent 0)) (nth 6 recent 0))
                   (add (sigma0 (nth 14 recent 0)) (nth 15 recent 0)) in
      w :: schedule n' (w :: firstn 15 recent)
  end.

Definition round (st : list N) (kw : N * N) : list N :=
  match st with
  | [a; b; c; d; e; f; g; h] =>
      let t1 := add (add (add (add h (Sigma1 e)) (Ch e f g)) (fst kw)) (snd kw) in
      let t2 := add (Sigma0 a) (Maj a b c) in
      [add t1 t2; a; b; c; add d t1; e; f; g]
  | _ => st
  end.

Definition compress (H block : list N) : list N :=
  let W := block ++ schedule 48 (rev block) in
  let st := fold_left round (combine K W) H in
  List.map (fun p => add (fst p) (snd p)) (combine H st).

Definition digest (msg : list N) : list N :=
  let words := words_of_bytes (pad msg) in
  let H := fold_left compress (chunks (length words) words) H0 in
  flat_map (be_bytes 4) H.

End SHA256.

(* ================================================================== *)
(** * [JSON.parse] *)
(* ================================================================== *)

Module JSONParse.

Definition is_ws (c : N) : bool := existsb (N.eqb c) [9; 10; 13; 32].

Fixpoint skip_ws (s : jsstring) : jsstring :=
  match s with
  | c :: rest => if is_ws c then skip_ws rest else s
  | [] => []
  end.

Definition hex_value (c : N) : option N :=
  if is_digit c then Some (c - 48)
  else if (97 <=? c) && (c <=? 102) then Some (c - 87)
  else if (65 <=? c) && (c <=? 70) then Some (c - 55)
  else None.

Definition hex4_value (a b c d : N) : option N :=
  match hex_value a, hex_value b, hex_value c, hex_value d with
  | Some x, Some y, Some z, Some w => Some (x * 4096 + y * 256 + z * 16 + w)
  | _, _, _, _ => None
  end.

(** The characters of a string literal after its opening quote, up to
    and including the closing one. *)
Fixpoint string_body (s : jsstring) : option (jsstring * jsstring) :=
  let cons_to c r := option_map (fun p => (c :: fst p, snd p)) r in
  match s with
  | [] => None
  | 34 :: rest => Some ([], rest)
  | 92 :: rest =>
      match rest with
      | 34 :: r => cons_to 34 (string_body r)
      | 92 :: r => cons_to 92 (string_body r)
      | 47 :: r => cons_to 47 (string_body r)
      | 98 :: r => cons_to 8 (string_body r)
      | 102 :: r => cons_to 12 (string_body r)
      | 110 :: r => cons_to 10 (string_body r)
      | 114 :: r => cons_to 13 (string_body r)
      | 116 :: r => cons_to 9 (string_body r)
      | 117 :: a :: b :: c :: d :: r =>
          match hex4_value a b c d with
          | Some u => cons_to u (string_body r)
          | None => None
          end
      | _ => None
      end
  | c :: rest => if c <? 32 then None else cons_to c (string_body rest)
  end.

Fixpoint take_digits (s : jsstring) : jsstring * jsstring :=
  match s with
  | c :: rest =>
      if is_digit c then let '(ds, r) := take_digits rest in (c :: ds, r) else ([], s)
  | [] => ([], [])
  end.

(** An integer literal.  A fraction or an exponent is not an integer and
    has no image in [json]: it is refused, as is a leading zero. *)
Definition number (s : jsstring) : option (Z * jsstring) :=
  let '(neg, s') := match s with 45 :: r => (true, r) | _ => (false, s) end in
  let '(ds, rest) := take_digits s' in
  match ds with
  | [] => None
  | d :: more =>
      if (d =? 48) && negb (match more with [] => true | _ => false end) then None
      else match rest with
           | 46 :: _ | 101 :: _ | 69 :: _ => None
           | _ => let v := Z.of_N (digits_value ds 0) in
                  Some (if neg then (- v)%Z else v, rest)
           end
  end.

Fixpoint value (fuel : nat) (s : jsstring) : option (json * jsstring) :=
  match fuel with
  | O => None
  | S fuel' =>
      match skip_ws s with
      | 110 :: 117 :: 108 :: 108 :: r => Some (JNull, r)
      | 116 :: 114 :: 117 :: 101 :: r => Some (JBool true, r)
      | 102 :: 97 :: 108 :: 115 :: 101 :: r => Some (JBool false, r)
      | 34 :: r => option_map (fun p => (JStr (fst p), snd p)) (string_body r)
      | 91 :: r =>
          match skip_ws r with
          | 93 :: r' => Some (JArr [], r')
          | _ => option_map (fun p => (JArr (fst p), snd p)) (elements fuel' r)
          end
      | 123 :: r =>
          match skip_ws r with
          | 125 :: r' => Some (JObj [], r')
          | _ => option_map (fun p => (JObj (fst p), snd p)) (members fuel' [] r)
          end
      | r => option_map (fun p => (JNum (fst p), snd p)) (number r)
      end
  end
with elements (fuel : nat) (s : jsstring) : option (list json * jsstring) :=
  match fuel with
  | O => None
  | S fuel' =>
      match value fuel' s with
      | Some (v, r) =>
          match skip_ws r with
          | 44 :: r' => option_map (fun p => (v :: fst p, snd p)) (elements fuel' r')
          | 93 :: r' => Some ([v], r')
          | _ => None
          end
      | None => None
      end
  end
with members (fuel : nat) (acc : list (jsstring * json)) (s : jsstring)
  : option (list (jsstring * json) * jsstring) :=
  match fuel with
  | O => None
  | S fuel' =>
      match skip_ws s with
      | 34 :: r =>
          match string_body r with
          | Some (k, r1) =>
              match skip_ws r1 with
              | 58 :: r2 =>
                  match value fuel' r2 with
                  | Some (v, r3) =>
                      let acc := obj_set acc k v in
                      match skip_ws r3 with
                      | 44 :: r4 => members fuel' acc r4
                      | 125 :: r4 => Some (acc, r4)
                      | _ => None
                      end
                  | None => None
                  end
              | _ => None
              end
          | None => None
          end
      | _ => None
      end
  end.

Definition syntax_error : jsstring := lit "Unexpected token in JSON".

(** [JSON.parse(text)]; the engine's message names the offending token,
    one fixed text stands for it here. *)
Definition parse (text : jsstring) : result json :=
  match value (S (length text)) text with
  | Some (v, rest) =>
      match skip_ws rest with
      | [] => Ok v
      | _ => Throw syntax_error
      end
  | None => Throw syntax_error
  end.

End JSONParse.

(* ================================================================== *)
(** * The host environment *)
(* ================================================================== *)

(** What the scripts read from the browser when they run.  The gzip
    streams are the browser's; their presence is what
    ['CompressionStream' in window] tests. *)
Record Host := {
  Date_now : Z;
  location_href : jsstring;
  document_title : jsstring;
  navigator_userAgent : jsstring;
  crypto_subtle : bool;
  CompressionStream : option (list N -> list N);
  DecompressionStream : option (list N -> result (list N));
  TextDecoder_decode : list N -> jsstring;
  fresh_id : nat -> jsstring;
  utils_available : bool;                 (* window.AngularFormSnapshotUtils *)
  clipboard_writeText : jsstring -> bool; (* does the write go through *)
  runtime_sendMessage : option jsstring   (* the rejection message, if any *)
}.

(** What a run leaves behind, in order: the calls into the codec and the
    host effects.  [Runtime_sendMessage] is the [SAVE_SNAPSHOT] message to
    the background worker; [Log_message] is the [LOG_MESSAGE] that [log]
    sends it for an error or a warning. *)
Inductive Op :=
| Call_JSON_stringify
| Call_compressData
| Call_encodeData
| Call_calculateChecksum
| Call_decodeData
| Call_decompressData
| Call_JSON_parse
| Console_error (text : jsstring)
| Clipboard_write (text : jsstring)
| Runtime_sendMessage
| Log_message (level message : jsstring)
| Notification (title : jsstring).

Definition tell (o : Op) : JS (list Op) unit := modify (fun t => t ++ [o]).
Definition lift {S A} (r : result A) : JS S A := fun s => (s, r).

Module ENCODING_CONFIG.
Definition VERSION : jsstring := lit "1.0".
Definition SEPARATOR : N := 124.
Definition COMPRESSION_THRESHOLD : nat := 1024.
Definition MAX_SNAPSHOT_SIZE : nat := 5 * 1024 * 1024.
End ENCODING_CONFIG.

Module CONTENT_SCRIPT_CONFIG.
Definition MAX_FORM_CONTROLS : nat := 1000.
End CONTENT_SCRIPT_CONFIG.

(** [Number.prototype.toString(16)] and [String.prototype.padStart]. *)
Fixpoint hex_digits (fuel : nat) (n : N) (acc : jsstring) : jsstring :=
  match fuel with
  | O => acc
  | S fuel' =>
      let acc' := hex_digit (n mod 16) :: acc in
      if n <? 16 then acc' else hex_digits fuel' (n / 16) acc'
  end.
Definition toString16 (n : N) : jsstring := hex_digits (S (N.to_nat (N.log2 n))) n [].
Definition padStart (width : nat) (c : N) (s : jsstring) : jsstring :=
  repeat c (width - length s) ++ s.

(** [ToInt32]. *)
Definition to_int32 (z : Z) : Z := ((z + 2147483648) mod 4294967296 - 2147483648)%Z.

(* ================================================================== *)
(** * [DataEncoder] *)
(* ================================================================== *)

(** The three shapes [compressData] hands on: the text itself, a
    [Uint8Array], or the fallback's [{dictionary, data}]. *)
Inductive Packed :=
| Text (s : jsstring)
| Bytes (b : list N)
| Dict (dictionary : list (jsstring * jsstring)) (data : jsstring).

Module DataEncoder.
Import ENCODING_CONFIG.

Definition metadata_json (m : Metadata) : json :=
  JObj ([ (lit "isDisabled", JBool (isDisabled m));
          (lit "isReadonly", JBool (isReadonly m));
          (lit "isRequired", JBool (isRequired m));
          (lit "placeholder", JStr (placeholder m));
          (lit "className", JStr (className m)) ]
        ++ match material m with
           | Some mm => [ (lit "matLabel", JStr (matLabel mm));
                          (lit "matHint", JStr (matHint mm));
                          (lit "matError", JStr (matError mm)) ]
           | None => []
           end).

(** The object literal of [formControls.map(ctrl => ({...}))]. *)
Definition control_json (ctrl : FormControlData) : json :=
  JObj [ (lit "id", JStr (ctrl_id ctrl));
         (lit "type", JStr (ctrl_type ctrl));
         (lit "name", match name ctrl with Some s => JStr s | None => JNull end);
         (lit "value", value ctrl);
         (lit "path", JStr (path ctrl));
         (lit "tagName", JStr (tagName ctrl));
         (lit "attributes", AngularFormSnapshotContent.attributes_object (attributes ctrl));
         (lit "validators", JArr (List.map JStr (validators ctrl)));
         (lit "metadata", metadata_json (metadata ctrl)) ].

Definition snapshot_json (h : Host) (formControls : list FormControlData) : json :=
  JObj [ (lit "version", JStr VERSION);
         (lit "timestamp", JNum (Date_now h));
         (lit "url", JStr (location_href h));
         (lit "title", JStr (document_title h));
         (lit "userAgent", JStr (navigator_userAgent h));
         (lit "formControls", JArr (List.map control_json formControls)) ].

(** *** The dictionary fallback *)

Definition is_word_char (c : N) : bool :=
  ((65 <=? c) && (c <=? 90)) || ((97 <=? c) && (c <=? 122)) || is_digit c || (c =? 95).

(** Maximal runs of word and of non-word characters. *)
Fixpoint runs (s : jsstring) : list (bool * jsstring) :=
  match s with
  | [] => []
  | c :: rest =>
      match runs rest with
      | (w, r) :: more =>
          if Bool.eqb w (is_word_char c) then (w, c :: r) :: more
          else (is_word_char c, [c]) :: (w, r) :: more
      | [] => [(is_word_char c, [c])]
      end
  end.

(** [data.match(/\b\w+\b/g) || []]. *)
Definition words (data : jsstring) : list jsstring :=
  List.map snd (List.filter fst (runs data)).

(** [result.replace(new RegExp(`\\b${word}\\b`, 'g'), token)]. *)
Definition replace_word (word token result : jsstring) : jsstring :=
  concat (List.map (fun run => if fst run && jsstring_eqb (snd run) word
                               then token else snd run)
                   (runs result)).

(** Names every object inherits: [wordCounts[word]] is never a number
    for them, so they never pass the [count > 2] filter. *)
Definition inherited_names : list jsstring :=
  [ lit "constructor"; lit "hasOwnProperty"; lit "isPrototypeOf";
    lit "propertyIsEnumerable"; lit "toLocaleString"; lit "toString"; lit "valueOf";
    lit "__defineGetter__"; lit "__defineSetter__"; lit "__lookupGetter__";
    lit "__lookupSetter__"; lit "__proto__" ].

Definition dictionary_token (dictIndex : nat) : jsstring :=
  167 :: N_to_string (N.of_nat dictIndex) ++ [167].

Definition dictionaryCompress (data : jsstring) : Packed :=
  let wordCounts :=
    fold_left (fun counts word =>
                 obj_set counts word
                   (S (match obj_get counts word with Some n => n | None => O end)))
              (words data) [] in
  let frequent :=
    List.filter (fun wc => (2 <? snd wc)%nat && (3 <? length (fst wc))%nat
                           && negb (existsb (jsstring_eqb (fst wc)) inherited_names))
                wordCounts in
  let dictionary :=
    fst (fold_left (fun acc wc =>
                      (obj_set (fst acc) (fst wc) (dictionary_token (snd acc)),
                       S (snd acc)))
                   frequent ([], O)) in
  let result :=
    fold_left (fun result entry => replace_word (fst entry) (snd entry) result)
              dictionary data in
  Dict dictionary result.

(** [result.replace(new RegExp(token, 'g'), word)]: every occurrence of
    the token text, left to right. *)
Fixpoint strip_prefix (p s : jsstring) : option jsstring :=
  match p, s with
  | [], _ => Some s
  | a :: p', b :: s' => if a =? b then strip_prefix p' s' else None
  | _ :: _, [] => None
  end.

Fixpoint replace_all (fuel : nat) (pat by_ s : jsstring) : jsstring :=
  match fuel with
  | O => s
  | S fuel' =>
      match s with
      | [] => []
      | c :: rest =>
          match pat, strip_prefix pat s with
          | _ :: _, Some s' => by_ ++ replace_all fuel' pat by_ s'
          | _, _ => c :: replace_all fuel' pat by_ rest
          end
      end
  end.

Definition type_error_entries : jsstring :=
  lit "Cannot convert undefined or null to object".

Definition dictionaryDecompress (compressed : Packed) : result jsstring :=
  match compressed with
  | Text s => Ok s
  | Bytes _ => Throw type_error_entries
  | Dict dictionary data =>
      Ok (fold_left (fun result entry =>
                       replace_all (length result) (snd entry) (fst entry) result)
                    dictionary data)
  end.

(** *** Compression *)

Definition compressData (h : Host) (data : jsstring) : JS (list Op) Packed :=
  tell Call_compressData ;;
  if (length data <? COMPRESSION_THRESHOLD)%nat then ret (Text data)
  else match CompressionStream h with
       | Some gzip => ret (Bytes (gzip (TextEncoder_encode data)))
       | None => ret (dictionaryCompress data)
       end.

Definition decompressData (h : Host) (data : Packed) : JS (list Op) jsstring :=
  tell Call_decompressData ;;
  match data with
  | Text s => ret s
  | Bytes b =>
      match DecompressionStream h with
      | Some gunzip => do raw <- lift (gunzip b); ret (TextDecoder_decode h raw)
      | None => lift (dictionaryDecompress data)
      end
  | Dict _ _ => lift (dictionaryDecompress data)
  end.

(** *** Text encoding *)

(** [JSON.stringify] of what is not a string: a [Uint8Array] is an
    object keyed by its indices. *)
Definition packed_json (data : Packed) : json :=
  match data with
  | Text s => JStr s
  | Bytes b =>
      JObj (List.map (fun ib => (N_to_string (N.of_nat (fst ib)), JNum (Z.of_N (snd ib))))
                     (combine (seq 0 (length b)) b))
  | Dict dictionary data =>
      JObj [ (lit "dictionary", AngularFormSnapshotContent.attributes_object dictionary);
             (lit "data", JStr data) ]
  end.

Definition replace_char (a b : N) (s : jsstring) : jsstring :=
  List.map (fun c => if c =? a then b else c) s.

(** [s.replace(/=+$/, '')]. *)
Fixpoint strip_leading (c : N) (s : jsstring) : jsstring :=
  match s with
  | x :: rest => if x =? c then strip_leading c rest else s
  | [] => []
  end.
Definition strip_trailing (c : N) (s : jsstring) : jsstring :=
  rev (strip_leading c (rev s)).

Definition encodeData (data : Packed) : JS (list Op) jsstring :=
  tell Call_encodeData ;;
  let jsonString := match data with Text s => s | _ => JSON_stringify (packed_json data) end in
  do bin <- lift (unescape_encodeURIComponent jsonString);
  do base64 <- lift (btoa bin);
  ret (strip_trailing 61 (replace_char 47 95 (replace_char 43 45 base64))).

Definition decodeData (encodedData : jsstring) : JS (list Op) jsstring :=
  tell Call_decodeData ;;
  let base64 := replace_char 95 47 (replace_char 45 43 encodedData) in
  let padded := base64 ++ repeat 61 ((4 - length base64 mod 4) mod 4)%nat in
  do bin <- lift (atob padded);
  lift (decodeURIComponent_escape bin).

(** *** Checksum *)

Definition hex_byte (b : N) : jsstring := padStart 2 48 (toString16 b).

Definition fallback_hash (data : jsstring) : Z :=
  fold_left (fun hash char =>
               to_int32 (to_int32 (hash * 32) - hash + Z.of_N char)%Z)
            data 0%Z.

Definition calculateChecksum (h : Host) (data : jsstring) : JS (list Op) jsstring :=
  tell Call_calculateChecksum ;;
  if crypto_subtle h then
    let hashArray := SHA256.digest (TextEncoder_encode data) in
    ret (firstn 16 (concat (List.map hex_byte hashArray)))
  else
    ret (padStart 8 48 (toString16 (Z.to_N (Z.abs (fallback_hash data))))).

(** *** The token *)

Definition encodeFormData (h : Host) (formControls : list FormControlData)
  : JS (list Op) jsstring :=
  try_catch
    (let snapshot := snapshot_json h formControls in
     tell Call_JSON_stringify ;;
     let jsonString := JSON_stringify snapshot in
     do compressed <- compressData h jsonString;
     do encoded <- encodeData compressed;
     do checksum <- calculateChecksum h encoded;
     ret (VERSION ++ SEPARATOR :: checksum ++ SEPARATOR :: encoded))
    (fun error =>
       tell (Console_error (lit "[DataEncoder] Encoding failed:")) ;;
       throw (lit "Data encoding failed: " ++ error)).

Definition decodeFormData (h : Host) (encodedData : jsstring) : JS (list Op) json :=
  try_catch
    (match split SEPARATOR encodedData with
     | [version; checksum; data] =>
         if negb (jsstring_eqb version VERSION)
         then throw (lit "Unsupported version: " ++ version)
         else
           do calculatedChecksum <- calculateChecksum h data;
           if negb (jsstring_eqb checksum calculatedChecksum)
           then throw (lit "Data integrity check failed")
           else
             do decoded <- decodeData data;
             do decompressed <- decompressData h (Text decoded);
             tell Call_JSON_parse ;;
             lift (JSONParse.parse decompressed)
     | _ => throw (lit "Invalid encoded data format")
     end)
    (fun error =>
       tell (Console_error (lit "[DataEncoder] Decoding failed:")) ;;
       throw (lit "Data decoding failed: " ++ error)).

End DataEncoder.

(* ================================================================== *)
(** * [AngularFormSnapshotContent]: capture *)
(* ================================================================== *)

Record CaptureOptions := {
  copyToClipboard : bool;   (* options.copyToClipboard !== false *)
  saveToStorage : bool      (* options.saveToStorage !== false *)
}.

Record CaptureResult := {
  formCount : nat;
  snapshot_forms : list FormControlData;
  encodedSnapshot : jsstring
}.

Module Capture.
Import CONTENT_SCRIPT_CONFIG.

(** The entry of [snapshot.forms] made from a live control: the nine
    serialised properties. *)
Definition snapshot_form (control : FormControlData) : FormControlData :=
  {| ctrl_id := ctrl_id control;
     ctrl_type := ctrl_type control;
     element := None;
     tagName := tagName control;
     name := name control;
     value := value control;
     attributes := attributes control;
     validators := validators control;
     path := path control;
     parentForm := None;
     formGroupName := None;
     materialFormField := None;
     metadata := metadata control |}.

(** [this.log(level, message)]: the console apart, errors and warnings
    are sent to the background worker. *)
Definition log (level message : jsstring) : JS (list Op) unit :=
  if jsstring_eqb level (lit "error") || jsstring_eqb level (lit "warn")
  then tell (Log_message level message)
  else ret tt.

Definition copy_to_clipboard (h : Host) (text : jsstring) : JS (list Op) unit :=
  tell (Clipboard_write text) ;;
  if clipboard_writeText h text then ret tt
  else log (lit "error") (lit "Failed to copy to clipboard") ;;
       throw (lit "Failed to copy to clipboard").

Definition save_to_storage (h : Host) : JS (list Op) unit :=
  tell Runtime_sendMessage ;;
  match runtime_sendMessage h with
  | None => ret tt
  | Some rejection => throw rejection
  end.

Definition too_many (n : nat) : jsstring :=
  lit "Too many form controls detected (" ++ N_to_string (N.of_nat n)
    ++ lit "). Maximum allowed: " ++ N_to_string (N.of_nat MAX_FORM_CONTROLS).

(** The [info] logs of the run go to the console only and are left
    out. *)
Definition captureForms (h : Host) (document : DomNode) (options : CaptureOptions)
  : JS (list Op) CaptureResult :=
  try_catch
    (if negb (utils_available h)
     then throw (lit "Angular snapshot utilities not available")
     else
       let formControls :=
         FormControlInspector.inspectAllFormControls (fresh_id h) document in
       if (length formControls =? 0)%nat
       then throw (lit "No form controls found on the page")
       else if (MAX_FORM_CONTROLS <? length formControls)%nat
       then throw (too_many (length formControls))
       else
         let forms := List.map snapshot_form formControls in
         do encoded <- DataEncoder.encodeFormData h forms;
         (if copyToClipboard options then copy_to_clipboard h encoded else ret tt) ;;
         (if saveToStorage options then save_to_storage h else ret tt) ;;
         tell (Notification (lit "Forms Captured")) ;;
         ret {| formCount := length formControls;
                snapshot_forms := forms;
                encodedSnapshot := encoded |})
    (fun error =>
       log (lit "error") (lit "Form capture failed") ;;
       tell (Notification (lit "Capture Failed")) ;;
       throw error).

End Capture.

(* ================================================================== *)
(** * Sample pages, snapshots and hosts *)
(* ================================================================== *)

Module Samples.

Definition blank (node : positive) (tag : jsstring) : Element :=
  {| el_node := node; el_tagName := tag; el_attributes := [];
     el_id := []; el_className := []; el_name := []; el_type := [];
     el_value := []; el_checked := false; el_disabled := false;
     el_readOnly := false; el_required := false; el_placeholder := [];
     el_pattern := []; el_minLength := 0; el_maxLength := 0;
     el_min := []; el_max := []; el_action := []; el_method := [];
     el_options := []; el_selectedIndex := (-1); el_textContent := [] |}.

Definition attr (attrs : list (jsstring * jsstring)) (key default : jsstring) : jsstring :=
  match obj_get attrs key with Some v => v | None => default end.

(** [<input ...>] with the given attributes, in their order; the [id],
    [name], [type] and [value] properties reflect them, and a disabled
    input carries the [disabled] attribute that its property reflects. *)
Definition input (node : positive) (attrs : list (jsstring * jsstring))
    (is_checked is_disabled : bool) : Element :=
  {| el_node := node; el_tagName := lit "INPUT";
     el_attributes := if is_disabled then attrs ++ [(lit "disabled", [])] else attrs;
     el_id := attr attrs (lit "id") []; el_className := attr attrs (lit "class") [];
     el_name := attr attrs (lit "name") []; el_type := attr attrs (lit "type") (lit "text");
     el_value := attr attrs (lit "value") []; el_checked := is_checked;
     el_disabled := is_disabled;
     el_readOnly := false; el_required := false; el_placeholder := [];
     el_pattern := []; el_minLength := (-1); el_maxLength := (-1);
     el_min := []; el_max := []; el_action := []; el_method := [];
     el_options := []; el_selectedIndex := (-1); el_textContent := [] |}.

Definition select (node : positive) (name_ : jsstring) (opts : list OptionEl)
    (selected : Z) : Element :=
  {| el_node := node; el_tagName := lit "SELECT";
     el_attributes := [(lit "name", name_)];
     el_id := []; el_className := []; el_name := name_; el_type := lit "select-one";
     el_value := []; el_checked := false; el_disabled := false;
     el_readOnly := false; el_required := false; el_placeholder := [];
     el_pattern := []; el_minLength := 0; el_maxLength := 0;
     el_min := []; el_max := []; el_action := []; el_method := [];
     el_options := opts; el_selectedIndex := selected; el_textContent := [] |}.

Definition leaf (e : Element) : DomNode := Node e [].

(** [<html><body> ...controls... </body></html>] *)
Definition page_of (controls : list Element) : DomNode :=
  Node (blank 1 (lit "HTML")) [Node (blank 2 (lit "BODY")) (List.map leaf controls)].

Definition host : Host :=
  {| Date_now := 1700000000000;
     location_href := lit "https://example.test/form";
     document_title := lit "Form";
     navigator_userAgent := lit "Mozilla/5.0";
     crypto_subtle := true;
     CompressionStream := None;
     DecompressionStream := None;
     TextDecoder_decode := fun bytes => bytes;
     fresh_id := fun n => lit "ctrl_" ++ N_to_string (N.of_nat n);
     utils_available := true;
     clipboard_writeText := fun _ => true;
     runtime_sendMessage := None |}.

(** The same page visited over plain http: no [crypto.subtle]. *)
Definition insecure_host : Host :=
  {| Date_now := Date_now host; location_href := lit "http://example.test/form";
     document_title := document_title host;
     navigator_userAgent := navigator_userAgent host;
     crypto_subtle := false;
     CompressionStream := None; DecompressionStream := None;
     TextDecoder_decode := TextDecoder_decode host; fresh_id := fresh_id host;
     utils_available := true; clipboard_writeText := clipboard_writeText host;
     runtime_sendMessage := None |}.

(** The same host one millisecond later. *)
Definition later_host : Host :=
  {| Date_now := Date_now host + 1; location_href := location_href host;
     document_title := document_title host;
     navigator_userAgent := navigator_userAgent host;
     crypto_subtle := true;
     CompressionStream := None; DecompressionStream := None;
     TextDecoder_decode := TextDecoder_decode host; fresh_id := fresh_id host;
     utils_available := true; clipboard_writeText := clipboard_writeText host;
     runtime_sendMessage := None |}.

(** The plain-http page some ten seconds later. *)
Definition insecure_later_host : Host :=
  {| Date_now := 1700000010212; location_href := location_href insecure_host;
     document_title := document_title host;
     navigator_userAgent := navigator_userAgent host;
     crypto_subtle := false;
     CompressionStream := None; DecompressionStream := None;
     TextDecoder_decode := TextDecoder_decode host; fresh_id := fresh_id host;
     utils_available := true; clipboard_writeText := clipboard_writeText host;
     runtime_sendMessage := None |}.

(** Two inputs that differ in the order of their attributes only. *)
Definition input_id_first : Located :=
  {| loc_node := leaf (input 3 [(lit "id", lit "a"); (lit "name", lit "b")] false false);
     loc_ancestors := [blank 2 (lit "BODY"); blank 1 (lit "HTML")] |}.
Definition input_name_first : Located :=
  {| loc_node := leaf (input 3 [(lit "name", lit "b"); (lit "id", lit "a")] false false);
     loc_ancestors := [blank 2 (lit "BODY"); blank 1 (lit "HTML")] |}.

(** An input nested under [depth] [div]s below [html > body]. *)
Definition nested_input (depth : nat) : Located :=
  {| loc_node := leaf (input 100 [(lit "name", lit "deep")] false false);
     loc_ancestors := repeat (blank 50 (lit "DIV")) depth
                        ++ [blank 2 (lit "BODY"); blank 1 (lit "HTML")] |}.

(** The scenario of the specification: a text input and a checkbox. *)
Definition email : Element :=
  input 3 [(lit "type", lit "text"); (lit "name", lit "email"); (lit "value", lit "a@b.com")]
        false false.
Definition subscribe : Element :=
  input 4 [(lit "type", lit "checkbox"); (lit "name", lit "subscribe")] true false.
Definition small_page : DomNode := page_of [email; subscribe].

(** Five text inputs, the third of them disabled when [third_disabled]. *)
Definition field (node : positive) (name_ : jsstring) (is_disabled : bool) : Element :=
  input node [(lit "type", lit "text"); (lit "name", name_)] false is_disabled.
Definition five_fields (third_disabled : bool) : DomNode :=
  page_of [ field 3 (lit "f1") false; field 4 (lit "f2") false;
            field 5 (lit "f3") third_disabled;
            field 6 (lit "f4") false; field 7 (lit "f5") false ].

(** A select whose only option has value [1] and label [One]. *)
Definition one_option : Element :=
  select 3 (lit "size") [{| opt_value := lit "1"; opt_textContent := lit "One" |}] (-1).
Definition select_page : DomNode := page_of [one_option].

Definition with_value (v : json) (c : FormControlData) : FormControlData :=
  {| ctrl_id := ctrl_id c; ctrl_type := ctrl_type c; element := None;
     tagName := tagName c; name := name c; value := v;
     attributes := attributes c; validators := validators c; path := path c;
     parentForm := None; formGroupName := None; materialFormField := None;
     metadata := metadata c |}.

Definition snapshot_of (h : Host) (controls : list FormControlData) : Snapshot :=
  {| snap_version := ENCODING_CONFIG.VERSION; snap_timestamp := Date_now h;
     snap_url := location_href h; snap_title := document_title h;
     snap_userAgent := navigator_userAgent h; formControls := controls |}.

(** What a capture of the page serialises. *)
Definition captured (document : DomNode) : list FormControlData :=
  List.map Capture.snapshot_form
    (FormControlInspector.inspectAllFormControls (fresh_id host) document).

(** A page whose serialised snapshot is well over the compression
    threshold: forty text inputs. *)
Definition forty_fields : DomNode :=
  page_of (List.map (fun i => field (Pos.of_nat (3 + i))
                                    (lit "field" ++ N_to_string (N.of_nat i)) false)
                    (seq 0 40)).

End Samples.

(** Further pages, texts and hosts. *)
Module Scenarios.

(** A text with a Latin-1 letter, a three-byte character and a surrogate
    pair: "hé€" followed by U+1F600. *)
Definition greeting : jsstring := [104; 233; 8364; 55357; 56832].

(** A browser with [CompressionStream]; what its gzip makes of the bytes
    does not matter here, it is taken to return them as they are. *)
Definition gzip_host : Host :=
  {| Date_now := Date_now Samples.host; location_href := location_href Samples.host;
     document_title := document_title Samples.host;
     navigator_userAgent := navigator_userAgent Samples.host;
     crypto_subtle := true;
     CompressionStream := Some (fun bytes => bytes);
     DecompressionStream := Some (fun bytes => Ok bytes);
     TextDecoder_decode := TextDecoder_decode Samples.host;
     fresh_id := fresh_id Samples.host;
     utils_available := true; clipboard_writeText := clipboard_writeText Samples.host;
     runtime_sendMessage := None |}.


End Scenarios.

(* ================================================================== *)
(** * Vocabulary of the properties *)
(* ================================================================== *)

(** The invariant of the passes of [inspectAllFormControls]: the set of
    processed elements is exactly the set of elements of the descriptors
    kept so far, and no element is kept twice. *)
Definition merge_inv (acc : list FormControlData * gset (option positive)) : Prop :=
  NoDup (List.map element (fst acc))
  /\ forall x, x ∈ snd acc <-> In x (List.map element (fst acc)).

(** What restoring never writes: an element with its [checked], [value]
    and [selectedIndex] slots blanked. *)
Definition static (e : Element) : Element :=
  set_selectedIndex 0 (set_value_slot [] (set_checked false e)).

(** Two pages with the same elements up to the slots restoring writes. *)
Definition same_static (dom1 dom2 : DomNode) : Prop :=
  forall handle,
    option_map static (find_element handle dom1)
    = option_map static (find_element handle dom2).

(** What happens to one snapshot control of a restore run. *)
Inductive Outcome :=
| Restored
| Skipped
| Failed (message : jsstring).

(** The outcome of a snapshot control, read off the page as it is when the
    run starts: skipped when its key has no live counterpart, otherwise
    what [restoreControlValue] on the counterpart does. *)
Definition outcome (dom : DomNode) (currentControlsMap : gmap jsstring FormControlData)
    (snapshotControl : FormControlData) : Outcome :=
  match currentControlsMap !! AngularFormSnapshotContent.generateControlKey snapshotControl with
  | None => Skipped
  | Some currentControl =>
      match snd (AngularFormSnapshotContent.restoreControlValue currentControl snapshotControl
                   {| page_dom := dom; page_events := [] |}) with
      | Ok _ => Restored
      | Throw message => Failed message
      end
  end.

Definition is_restored (o : Outcome) : bool :=
  match o with Restored => true | _ => false end.
Definition is_skipped (o : Outcome) : bool :=
  match o with Skipped => true | _ => false end.

(** The entry a failed control leaves in the report. *)
Definition error_entries (snapshotControl : FormControlData) (o : Outcome) : list ErrorEntry :=
  match o with
  | Failed message =>
      [{| err_control := null_or (name snapshotControl) (path snapshotControl);
          err_error := message |}]
  | _ => []
  end.

(** The live counterpart of a snapshot control is read-only or disabled. *)
Definition blocked (dom : DomNode) (currentControlsMap : gmap jsstring FormControlData)
    (snapshotControl : FormControlData) : Prop :=
  exists currentControl handle e,
    currentControlsMap !! AngularFormSnapshotContent.generateControlKey snapshotControl
      = Some currentControl
    /\ element currentControl = Some handle
    /\ find_element handle dom = Some e
    /\ el_readOnly e || el_disabled e = true.

(** A write that touches none of the static properties. *)
Definition slot_write (f : Element -> Element) : Prop :=
  forall e, static (f e) = static e /\ el_node (f e) = el_node e.

(** What [update_element id f] does to one element. *)
Definition touch (id : positive) (f : Element -> Element) (e : Element) : Element :=
  if Pos.eqb (el_node e) id then f e else e.

(** A computation that leaves the static part of the page alone. *)
Definition preserves {A} (m : JS Page A) : Prop :=
  forall pg, same_static (page_dom (fst (m pg))) (page_dom pg).

(** A computation whose result does not depend on the page. *)
Definition blind {A} (m : JS Page A) : Prop :=
  forall pg1 pg2, snd (m pg1) = snd (m pg2).

(** Both at once: the computation may write slots and dispatch events, and
    whether it throws is decided by its arguments alone. *)
Definition tame {A} (m : JS Page A) : Prop := preserves m /\ blind m.

(** The tally after a run over [controls], outcomes read off [dom]. *)
Definition tally_after (dom : DomNode) (currentControlsMap : gmap jsstring FormControlData)
    (controls : list FormControlData) (t : AngularFormSnapshotContent.Tally)
  : AngularFormSnapshotContent.Tally :=
  {| AngularFormSnapshotContent.t_restored :=
       AngularFormSnapshotContent.t_restored t
       + length (List.filter (fun c => is_restored (outcome dom currentControlsMap c)) controls);
     AngularFormSnapshotContent.t_skipped :=
       AngularFormSnapshotContent.t_skipped t
       + length (List.filter (fun c => is_skipped (outcome dom currentControlsMap c)) controls);
     AngularFormSnapshotContent.t_errors :=
       AngularFormSnapshotContent.t_errors t
       ++ flat_map (fun c => error_entries c (outcome dom currentControlsMap c)) controls |}.

(** Character classes of the token. *)
Definition is_hex (c : N) : bool := is_digit c || ((97 <=? c) && (c <=? 102)).
Definition is_alnum (c : N) : bool :=
  is_digit c || ((65 <=? c) && (c <=? 90)) || ((97 <=? c) && (c <=? 122)).
Definition is_b64 (c : N) : bool := is_alnum c || (c =? 43) || (c =? 47).
Definition is_url_safe (c : N) : bool := is_alnum c || (c =? 45) || (c =? 95).
Definition is_separator (c : N) : bool := c =? ENCODING_CONFIG.SEPARATOR.

(** The two character substitutions of [encodeData], and of [decodeData]. *)
Definition url (s : jsstring) : jsstring :=
  DataEncoder.replace_char 47 95 (DataEncoder.replace_char 43 45 s).
Definition unurl (s : jsstring) : jsstring :=
  DataEncoder.replace_char 95 47 (DataEncoder.replace_char 45 43 s).

(** An ASCII character. *)
Definition plain (c : N) : Prop := c < 128.

(** A string the strict UTF-8 encoder accepts: no surrogate without its
    partner. *)
Definition encodable (s : jsstring) : Prop := utf8_encode None s <> None.

(** The three whole-call failures of [decodeFormData], as the caller sees
    them. *)
Definition format_error : jsstring :=
  lit "Data decoding failed: Invalid encoded data format".
Definition version_error (version : jsstring) : jsstring :=
  lit "Data decoding failed: Unsupported version: " ++ version.
Definition integrity_error : jsstring :=
  lit "Data decoding failed: Data integrity check failed".

(** The line [decodeFormData] logs when it fails. *)
Definition decode_failed : Op := Console_error (lit "[DataEncoder] Decoding failed:").

(** The checksum of an encoded text, as [calculateChecksum] returns it. *)
Definition checksum_of (h : Host) (data : jsstring) : jsstring :=
  match snd (DataEncoder.calculateChecksum h data []) with
  | Ok checksum => checksum
  | Throw _ => []
  end.

(** What [compressData] returns, what [encodeData] serialises, and the
    text it returns for it. *)
Definition packed_of (h : Host) (jsonString : jsstring) : Packed :=
  match snd (DataEncoder.compressData h jsonString []) with
  | Ok packed => packed
  | Throw _ => Text jsonString
  end.
Definition json_text_of (data : Packed) : jsstring :=
  match data with
  | Text s => s
  | _ => JSON_stringify (DataEncoder.packed_json data)
  end.
Definition encoded_text (jsonString : jsstring) : jsstring :=
  match utf8_encode None jsonString with
  | Some bytes => DataEncoder.strip_trailing 61 (url (btoa_bytes bytes))
  | None => []
  end.

(** The text [decodeData] reads from a payload: the UTF-8 decoding of the
    UTF-8 bytes [encodeData] wrote. *)
Definition decoded_text (jsonString : jsstring) : option jsstring :=
  match utf8_encode None jsonString with
  | Some bytes => utf8_decode bytes
  | None => None
  end.

(** The payload and the token of a capture. *)
Definition payload_of (h : Host) (formControls : list FormControlData) : jsstring :=
  encoded_text
    (json_text_of (packed_of h (JSON_stringify (DataEncoder.snapshot_json h formControls)))).
Definition token_of (h : Host) (formControls : list FormControlData) : jsstring :=
  ENCODING_CONFIG.VERSION
    ++ ENCODING_CONFIG.SEPARATOR :: checksum_of h (payload_of h formControls)
    ++ ENCODING_CONFIG.SEPARATOR :: payload_of h formControls.

(** The calls a successful [encodeFormData] makes. *)
Definition encode_trace : list Op :=
  [Call_JSON_stringify; Call_compressData; Call_encodeData; Call_calculateChecksum].

(** The ambient values [encodeFormData] reads. *)
Definition same_ambient (h1 h2 : Host) : Prop :=
  Date_now h1 = Date_now h2
  /\ location_href h1 = location_href h2
  /\ document_title h1 = document_title h2
  /\ navigator_userAgent h1 = navigator_userAgent h2
  /\ crypto_subtle h1 = crypto_subtle h2
  /\ CompressionStream h1 = CompressionStream h2.

(** The host with another (or no) [DecompressionStream]. *)
Definition with_DecompressionStream (d : option (list N -> result (list N))) (h : Host)
  : Host :=
  {| Date_now := Date_now h; location_href := location_href h;
     document_title := document_title h; navigator_userAgent := navigator_userAgent h;
     crypto_subtle := crypto_subtle h; CompressionStream := CompressionStream h;
     DecompressionStream := d; TextDecoder_decode := TextDecoder_decode h;
     fresh_id := fresh_id h; utils_available := utils_available h;
     clipboard_writeText := clipboard_writeText h;
     runtime_sendMessage := runtime_sendMessage h |}.

(** The calls a successful [decodeFormData] makes. *)
Definition decode_trace : list Op :=
  [Call_calculateChecksum; Call_decodeData; Call_decompressData; Call_JSON_parse].

(** The property names of an object. *)
Definition keys_of (v : json) : list jsstring :=
  match v with
  | JObj props => List.map fst props
  | _ => []
  end.

(** One character of [s] replaced: the one at position [i] becomes [c]. *)
Definition replace_at (i : nat) (c : N) (s : jsstring) : jsstring :=
  firstn i s ++ c :: skipn (S i) s.

(** What may follow a value in a serialised text: nothing, a comma or a
    closing bracket. *)
Definition stop (rest : jsstring) : Prop :=
  match rest with
  | [] => True
  | c :: _ => c = 44 \/ c = 93 \/ c = 125
  end.

(** Strings of 16-bit code units, all through a value. *)
Definition wf_string (s : jsstring) : bool := forallb (fun c => c <? 65536) s.

Fixpoint json_wf (v : json) : bool :=
  match v with
  | JStr s => wf_string s
  | JArr items => forallb json_wf items
  | JObj props => forallb (fun kv => wf_string (fst kv) && json_wf (snd kv)) props
  | _ => true
  end.

(** The value as [JSON.parse] rebuilds it: every object filled property
    by property, in the order of the text. *)
Fixpoint parsed (v : json) : json :=
  match v with
  | JArr items => JArr (List.map parsed items)
  | JObj props =>
      JObj (fold_left (fun acc kv => obj_set acc (fst kv) (parsed (snd kv))) props [])
  | _ => v
  end.

(** The first character of a serialised value. *)
Definition token_start (c : N) : Prop :=
  In c [110; 116; 102; 34; 91; 123; 45; 48; 49; 50; 51; 52; 53; 54; 55; 56; 57].

(** [JSON.parse] reads the serialised value back, whatever follows it. *)
Definition reads (v : json) : Prop :=
  forall fuel rest,
    (length (JSON_stringify v) <= fuel)%nat -> stop rest ->
    JSONParse.value fuel (JSON_stringify v ++ rest) = Some (parsed v, rest).

(** An object whose property names are distinct and none of them an array
    index: [JSON.parse] rebuilds it in the same order. *)
Definition named_keys {V} (props : list (jsstring * V)) : Prop :=
  NoDup (List.map fst props)
  /\ Forall (fun kv => array_index (fst kv) = None) props.

(** A descriptor whose serialised form is what [JSON.parse] gives back:
    its value is a scalar, and its attributes have distinct names, none an
    array index. *)
Definition plain_control (c : FormControlData) : Prop :=
  parsed (value c) = value c /\ named_keys (attributes c).

(** A computation that leaves the element behind [handle] as it is. *)
Definition spares {A} (handle : positive) (m : JS Page A) : Prop :=
  forall pg, find_element handle (page_dom (fst (m pg))) = find_element handle (page_dom pg).

(** A control whose value setter stores a text without line breaks as
    it is: a [textarea], or an [input] of type [text], [search], [tel] or
    [password].  The other types rewrite what they are given (a number
    input empties what is not a number, [url] and [email] trim), or keep
    the value in the [value] attribute. *)
Definition text_control (e : Element) : bool :=
  (has_tag [lit "textarea"] e && jsstring_eqb (el_type e) (lit "textarea"))
  || (has_tag [lit "input"] e
      && existsb (jsstring_eqb (el_type e))
           [lit "text"; lit "search"; lit "tel"; lit "password"]).

(** A text without a line feed or a carriage return. *)
Definition single_line (s : jsstring) : bool :=
  forallb (fun c => negb ((c =? 10) || (c =? 13))) s.

(** The events [triggerChangeEvent] dispatches on an element, in order. *)
Definition change_events (e : Element) : list (positive * jsstring) :=
  [(el_node e, lit "input"); (el_node e, lit "change"); (el_node e, lit "blur")]
    ++ (if hasAttribute e (lit "formControlName") || hasAttribute e (lit "ngModel")
        then [(el_node e, lit "ng-change")] else []).

(** A descriptor without its identifier. *)
Definition anonymous (c : FormControlData) : FormControlData :=
  {| ctrl_id := []; ctrl_type := ctrl_type c; element := element c; tagName := tagName c;
     name := name c; value := value c; attributes := attributes c;
     validators := validators c; path := path c; parentForm := parentForm c;
     formGroupName := formGroupName c; materialFormField := materialFormField c;
     metadata := metadata c |}.

(** An element on which the two path generators write the same selector:
    it has an [id], or no class, or a class attribute without a blank
    class between two spaces. *)
Definition tidy (e : Element) : bool :=
  truthy (el_id e) || negb (truthy (el_className e))
  || forallb (fun cls => truthy (trim cls)) (split 32 (el_className e)).

(** Further elements in their place in a page. *)
Module Layouts.

(** An input with two classes in a [div] with one, below [html > body]. *)
Definition styled_input : Located :=
  {| loc_node :=
       Samples.leaf (Samples.input 100 [(lit "class", lit "form-control wide");
                                        (lit "name", lit "city")] false false);
     loc_ancestors :=
       [Samples.input 50 [(lit "class", lit "row")] false false;
        Samples.blank 2 (lit "BODY"); Samples.blank 1 (lit "HTML")] |}.

End Layouts.

(* ================================================================== *)
(** * The background worker (service-worker.js) *)
(* ================================================================== *)

Module ServiceWorker.

Definition SW_VERSION : jsstring := lit "1.0.0".

(** [extensionState.settings], as far as the snapshot store reads it. *)
Record Settings := {
  maxSnapshots : nat;
  compressionLevel : jsstring
}.

Definition default_settings : Settings :=
  {| maxSnapshots := 50; compressionLevel := lit "medium" |}.

Record Compressed := {
  comp_type : jsstring;
  comp_data : jsstring
}.

Record SnapshotEntry := {
  entry_id : jsstring;
  entry_tabId : option Z;          (* [sender.tab?.id]: a number or [undefined] *)
  entry_url : jsstring;
  entry_title : jsstring;
  entry_timestamp : Z;
  entry_formCount : nat;
  entry_compressed : Compressed;
  entry_version : jsstring
}.

(** The snapshot object of [captureForms], as the message carries it; the
    worker reads four of its properties. *)
Record CapturedSnapshot := {
  cap_timestamp : Z;
  cap_url : jsstring;
  cap_title : jsstring;
  cap_forms : list json
}.

(** A stored log entry, by its level and its message. *)
Record LogEntry := {
  log_level : jsstring;
  log_message : jsstring
}.

(** The state of the worker: the settings and the set of Angular tabs of
    [extensionState], the two lists it keeps in [chrome.storage.local],
    and the messages it has sent to tabs, oldest first. *)
Record Worker := {
  settings : Settings;
  angularTabs : gset Z;
  angular_form_snapshots : list SnapshotEntry;
  debug_logs : list LogEntry;
  tabs_sendMessage : list (Z * json)
}.

Definition with_snapshots (snapshots : list SnapshotEntry) (w : Worker) : Worker :=
  {| settings := settings w; angularTabs := angularTabs w;
     angular_form_snapshots := snapshots; debug_logs := debug_logs w;
     tabs_sendMessage := tabs_sendMessage w |}.

Definition with_logs (logs : list LogEntry) (w : Worker) : Worker :=
  {| settings := settings w; angularTabs := angularTabs w;
     angular_form_snapshots := angular_form_snapshots w; debug_logs := logs;
     tabs_sendMessage := tabs_sendMessage w |}.

Definition with_sent (sent : list (Z * json)) (w : Worker) : Worker :=
  {| settings := settings w; angularTabs := angularTabs w;
     angular_form_snapshots := angular_form_snapshots w; debug_logs := debug_logs w;
     tabs_sendMessage := sent |}.

(** [if (l.length > limit) l.splice(0, l.length - limit)]. *)
Definition keep_last {A} (limit : nat) (l : list A) : list A :=
  if (limit <? length l)%nat then skipn (length l - limit) l else l.

Module Logger.

(** Only errors and warnings are stored, the last hundred of them. *)
Definition log (level message : jsstring) : JS Worker unit :=
  if jsstring_eqb level (lit "error") || jsstring_eqb level (lit "warn")
  then modify (fun w =>
         with_logs (keep_last 100 (debug_logs w
                                     ++ [{| log_level := level; log_message := message |}])) w)
  else ret tt.

Definition info (message : jsstring) : JS Worker unit := log (lit "info") message.
Definition warn (message : jsstring) : JS Worker unit := log (lit "warn") message.
Definition error (message : jsstring) : JS Worker unit := log (lit "error") message.
Definition debug (message : jsstring) : JS Worker unit := log (lit "debug") message.

End Logger.

Module SnapshotManager.

Definition compressHigh (data : jsstring) : result Compressed :=
  match unescape_encodeURIComponent data with
  | Ok bin =>
      match btoa bin with
      | Ok compressed => Ok {| comp_type := lit "base64_gzip"; comp_data := compressed |}
      | Throw e => Throw e
      end
  | Throw e => Throw e
  end.

Definition compressMedium (data : jsstring) : result Compressed :=
  match btoa data with
  | Ok compressed => Ok {| comp_type := lit "base64_deflate"; comp_data := compressed |}
  | Throw e => Throw e
  end.

Definition compressLow (data : jsstring) : result Compressed :=
  match unescape_encodeURIComponent data with
  | Ok bin =>
      match btoa bin with
      | Ok compressed => Ok {| comp_type := lit "base64_simple"; comp_data := compressed |}
      | Throw e => Throw e
      end
  | Throw e => Throw e
  end.

Definition decompressHigh (data : jsstring) : result json :=
  match atob data with
  | Ok bin =>
      match decodeURIComponent_escape bin with
      | Ok text => JSONParse.parse text
      | Throw e => Throw e
      end
  | Throw e => Throw e
  end.

Definition decompressMedium (data : jsstring) : result json :=
  match atob data with
  | Ok text => JSONParse.parse text
  | Throw e => Throw e
  end.

Definition decompressLow (data : jsstring) : result json :=
  match atob data with
  | Ok bin =>
      match decodeURIComponent_escape bin with
      | Ok text => JSONParse.parse text
      | Throw e => Throw e
      end
  | Throw e => Throw e
  end.

Definition compressSnapshot (snapshot : CapturedSnapshot) : JS Worker Compressed :=
  do w <- get;
  let dataString := JSON_stringify (JArr (cap_forms snapshot)) in
  let level := compressionLevel (settings w) in
  if jsstring_eqb level (lit "high") then lift (compressHigh dataString)
  else if jsstring_eqb level (lit "medium") then lift (compressMedium dataString)
  else if jsstring_eqb level (lit "low") then lift (compressLow dataString)
  else lift (compressMedium dataString).

Definition decompressSnapshot (compressedData : Compressed) : result json :=
  if jsstring_eqb (comp_type compressedData) (lit "base64_gzip")
  then decompressHigh (comp_data compressedData)
  else if jsstring_eqb (comp_type compressedData) (lit "base64_deflate")
  then decompressMedium (comp_data compressedData)
  else decompressLow (comp_data compressedData).

(** [`${tabId}`]. *)
Definition tab_text (tabId : option Z) : jsstring :=
  match tabId with
  | Some n => Z_to_string n
  | None => lit "undefined"
  end.

(** [`snapshot_${tabId}_${timestamp}`]. *)
Definition snapshot_id (tabId : option Z) (timestamp : Z) : jsstring :=
  lit "snapshot_" ++ tab_text tabId ++ lit "_" ++ Z_to_string timestamp.

Definition saveSnapshot (tabId : option Z) (snapshot : CapturedSnapshot) : JS Worker jsstring :=
  try_catch
    (let snapshotId := snapshot_id tabId (cap_timestamp snapshot) in
     do compressedData <- compressSnapshot snapshot;
     let snapshotEntry :=
       {| entry_id := snapshotId;
          entry_tabId := tabId;
          entry_url := cap_url snapshot;
          entry_title := cap_title snapshot;
          entry_timestamp := cap_timestamp snapshot;
          entry_formCount := length (cap_forms snapshot);
          entry_compressed := compressedData;
          entry_version := SW_VERSION |} in
     do w <- get;
     let snapshots := angular_form_snapshots w ++ [snapshotEntry] in
     let snapshots := keep_last (maxSnapshots (settings w)) snapshots in
     modify (with_snapshots snapshots) ;;
     Logger.info (lit "Snapshot saved successfully") ;;
     ret snapshotId)
    (fun error =>
       Logger.error (lit "Failed to save snapshot") ;;
       throw error).

Definition loadSnapshot (snapshotId : jsstring) : JS Worker json :=
  try_catch
    (do w <- get;
     match List.find (fun s => jsstring_eqb (entry_id s) snapshotId)
                     (angular_form_snapshots w) with
     | None => throw (lit "Snapshot not found: " ++ snapshotId)
     | Some snapshot =>
         do decompressedData <- lift (decompressSnapshot (entry_compressed snapshot));
         Logger.info (lit "Snapshot loaded successfully") ;;
         ret decompressedData
     end)
    (fun error =>
       Logger.error (lit "Failed to load snapshot") ;;
       throw error).

End SnapshotManager.

Module MessageHandler.

(** [!tabId]. *)
Definition no_tab (tabId : option Z) : bool :=
  match tabId with
  | Some n => (n =? 0)%Z
  | None => true
  end.

(** One step of the sort by [(a, b) => b.timestamp - a.timestamp]: [a]
    goes in front of the first entry that is not newer than it. *)
Fixpoint insert_by_timestamp (a : SnapshotEntry) (l : list SnapshotEntry)
  : list SnapshotEntry :=
  match l with
  | [] => [a]
  | b :: rest =>
      if (entry_timestamp a <? entry_timestamp b)%Z
      then b :: insert_by_timestamp a rest
      else a :: l
  end.

(** [Array.prototype.sort] is stable, so with this comparator its result
    is determined: the entries newest first, those of one timestamp in the
    order they had. *)
Definition sort_by_timestamp (l : list SnapshotEntry) : list SnapshotEntry :=
  fold_right insert_by_timestamp [] l.

Definition getSnapshotsList (tabId : option Z) : JS Worker (list SnapshotEntry) :=
  do w <- get;
  ret (sort_by_timestamp
         (List.filter (fun s => no_tab tabId || bool_decide (entry_tabId s = tabId))
                      (angular_form_snapshots w))).

End MessageHandler.

Module CommandHandler.

(** The message [chrome.tabs.sendMessage] carries to the tab. *)
Definition restore_message (snapshotData : json) : json :=
  JObj [ (lit "type", JStr (lit "RESTORE_FORMS"));
         (lit "data", JObj [ (lit "snapshot", snapshotData);
                             (lit "source", JStr (lit "keyboard_shortcut")) ]) ].

Definition restoreFormsCommand (tabId : Z) : JS Worker unit :=
  do w <- get;
  if negb (bool_decide (tabId ∈ angularTabs w))
  then Logger.warn (lit "Restore attempted on non-Angular tab")
  else
    do snapshots <- MessageHandler.getSnapshotsList (Some tabId);
    match snapshots with
    | [] => Logger.warn (lit "No snapshots available for restore")
    | latestSnapshot :: _ =>
        do snapshotData <- SnapshotManager.loadSnapshot (entry_id latestSnapshot);
        modify (fun w => with_sent (tabs_sendMessage w
                                      ++ [(tabId, restore_message snapshotData)]) w)
    end.

End CommandHandler.

End ServiceWorker.

(* ================================================================== *)
(** * The restore request (content-script.js) *)
(* ================================================================== *)

(** [v[k]] for a property that holds data: an own property of an object,
    an element or the length of an array, a character or the length of a
    string; [None] is [undefined]. *)
Definition property (v : json) (k : jsstring) : option json :=
  match v with
  | JObj props => obj_get props k
  | JArr items =>
      match array_index k with
      | Some i => nth_error items (N.to_nat i)
      | None => if jsstring_eqb k (lit "length")
                then Some (JNum (Z.of_nat (length items))) else None
      end
  | JStr s =>
      match array_index k with
      | Some i => option_map (fun c => JStr [c]) (nth_error s (N.to_nat i))
      | None => if jsstring_eqb k (lit "length")
                then Some (JNum (Z.of_nat (length s))) else None
      end
  | _ => None
  end.

Definition is_truthy (v : option json) : bool :=
  match v with
  | Some v => ToBoolean v
  | None => false
  end.

Definition not_a_function : jsstring := lit "encodedData.split is not a function".

(** [decodeFormData] on whatever the options hold: only a string has a
    [split]. *)
Definition decode_value (h : Host) (encodedData : option json) : JS (list Op) json :=
  match encodedData with
  | Some (JStr text) => DataEncoder.decodeFormData h text
  | _ =>
      tell (Console_error (lit "[DataEncoder] Decoding failed:")) ;;
      throw (lit "Data decoding failed: " ++ not_a_function)
  end.

(** [readFromClipboard]: [clipboard] is the text the browser hands over,
    if it does. *)
Definition readFromClipboard (clipboard : option jsstring) : JS (list Op) jsstring :=
  match clipboard with
  | Some text => ret text
  | None =>
      Capture.log (lit "error") (lit "Failed to read from clipboard") ;;
      throw (lit "Failed to read from clipboard")
  end.

(** [restoreForms] from its options to the snapshot it will restore: the
    choice of the source and the validity check.  The options are the
    [data] of the message; reading a property of [null] is a [TypeError]. *)
Definition restoreForms_snapshot (h : Host) (clipboard : option jsstring) (options : json)
  : JS (list Op) json :=
  match options with
  | JNull => throw (lit "Cannot read properties of null (reading 'snapshot')")
  | _ =>
      do snapshot <-
        (if is_truthy (property options (lit "snapshot"))
         then ret (property options (lit "snapshot"))
         else if is_truthy (property options (lit "encodedSnapshot"))
         then do decoded <- decode_value h (property options (lit "encodedSnapshot"));
              ret (Some decoded)
         else match property options (lit "fromClipboard") with
              | Some (JBool false) => throw (lit "No snapshot data provided")
              | _ =>
                  do clipboardData <- readFromClipboard clipboard;
                  do decoded <- DataEncoder.decodeFormData h clipboardData;
                  ret (Some decoded)
              end);
      match snapshot with
      | Some snapshot =>
          if negb (ToBoolean snapshot)
             || negb (is_truthy (property snapshot (lit "formControls")))
          then throw (lit "Invalid snapshot data")
          else ret snapshot
      | None => throw (lit "Invalid snapshot data")
      end
  end.

(** Sample states of the worker and snapshots sent to it. *)
Module Workers.
Import ServiceWorker.

(** A worker that has stored nothing yet; tab 7 shows an Angular page. *)
Definition fresh (level : jsstring) : Worker :=
  {| settings := {| maxSnapshots := 50; compressionLevel := level |};
     angularTabs := {[ 7%Z ]};
     angular_form_snapshots := [];
     debug_logs := [];
     tabs_sendMessage := [] |}.

(** The snapshot of the small page, and one with a euro sign in a value. *)
Definition captured_page : CapturedSnapshot :=
  {| cap_timestamp := Date_now Samples.host;
     cap_url := location_href Samples.host;
     cap_title := document_title Samples.host;
     cap_forms := List.map DataEncoder.control_json (Samples.captured Samples.small_page) |}.

Definition euro_page : CapturedSnapshot :=
  {| cap_timestamp := Date_now Samples.host;
     cap_url := location_href Samples.host;
     cap_title := document_title Samples.host;
     cap_forms := [JObj [(lit "value", JStr [8364])]] |}.

(** The default worker after the small page has been saved from tab 7. *)
Definition after_one_save : Worker :=
  fst (SnapshotManager.saveSnapshot (Some 7%Z) captured_page (fresh (lit "medium"))).

End Workers.

(** The entry [saveSnapshot] stores for a snapshot. *)
Definition entry_of (tabId : option Z) (snapshot : ServiceWorker.CapturedSnapshot)
  (compressed : ServiceWorker.Compressed) : ServiceWorker.SnapshotEntry :=
  {| ServiceWorker.entry_id :=
       ServiceWorker.SnapshotManager.snapshot_id tabId (ServiceWorker.cap_timestamp snapshot);
     ServiceWorker.entry_tabId := tabId;
     ServiceWorker.entry_url := ServiceWorker.cap_url snapshot;
     ServiceWorker.entry_title := ServiceWorker.cap_title snapshot;
     ServiceWorker.entry_timestamp := ServiceWorker.cap_timestamp snapshot;
     ServiceWorker.entry_formCount := length (ServiceWorker.cap_forms snapshot);
     ServiceWorker.entry_compressed := compressed;
     ServiceWorker.entry_version := ServiceWorker.SW_VERSION |}.

(** The worker after an error or a warning has been logged. *)
Definition logged (level message : jsstring) (w : ServiceWorker.Worker) : ServiceWorker.Worker :=
  ServiceWorker.with_logs
    (ServiceWorker.keep_last 100
       (ServiceWorker.debug_logs w
          ++ [{| ServiceWorker.log_level := level; ServiceWorker.log_message := message |}])) w.

(** A binary string: every code unit is a byte. *)
Definition latin1 (s : jsstring) : bool := forallb (fun c => c <? 256) s.

(** The text the worker compresses. *)
Definition forms_text (snapshot : ServiceWorker.CapturedSnapshot) : jsstring :=
  JSON_stringify (JArr (ServiceWorker.cap_forms snapshot)).

(** The compression levels that go through UTF-8. *)
Definition through_utf8 (level : jsstring) : bool :=
  jsstring_eqb level (lit "high")
  || (negb (jsstring_eqb level (lit "medium")) && jsstring_eqb level (lit "low")).

(** The options of a restore asked from the popup, and those that carry
    the token itself. *)
Definition from_clipboard : json := JObj [(lit "fromClipboard", JBool true)].
Definition from_token (token : jsstring) : json :=
  JObj [(lit "encodedSnapshot", JStr token)].

(** A stored entry that decompresses to an array. *)
Definition holds_array (e : ServiceWorker.SnapshotEntry) : Prop :=
  exists items,
    ServiceWorker.SnapshotManager.decompressSnapshot (ServiceWorker.entry_compressed e)
    = Ok (JArr items).

(** The order of the list of snapshots: no entry is older than the one
    before it. *)
Definition newer_first (a b : ServiceWorker.SnapshotEntry) : Prop :=
  (ServiceWorker.entry_timestamp b <= ServiceWorker.entry_timestamp a)%Z.

(** The entries [getSnapshotsList] keeps for a tab. *)
Definition of_tab (tabId : option Z) (s : ServiceWorker.SnapshotEntry) : bool :=
  ServiceWorker.MessageHandler.no_tab tabId
  || bool_decide (ServiceWorker.entry_tabId s = tabId).

(* ================================================================== *)
(** * Properties *)
(* ================================================================== *)

(** ** Match keys *)

Section MatchKey.
Import AngularFormSnapshotContent.

Lemma filter_truthy_last parts s :
  truthy s = true ->
  List.filter truthy (parts ++ [s]) = List.filter truthy parts ++ [s].
Proof.
  intros Hs. rewrite List.filter_app. simpl. now rewrite Hs.
Qed.

Lemma js_or_empty s : js_or s [] = s.
Proof. now destruct s. Qed.

Lemma generateControlKey_parts control :
  generateControlKey control =
    join [124] (List.filter truthy [null_or (name control) []; tagName control; path control]
                ++ [JSON_stringify (attributes_object (attributes control))]).
Proof.
  unfold generateControlKey.
  rewrite !js_or_empty.
  change [null_or (name control) []; tagName control; path control;
          JSON_stringify (attributes_object (attributes control))]
    with ([null_or (name control) []; tagName control; path control]
          ++ [JSON_stringify (attributes_object (attributes control))]).
  now rewrite filter_truthy_last.
Qed.

Lemma generateControlKey_full control n :
  name control = Some n -> truthy n = true ->
  truthy (tagName control) = true -> truthy (path control) = true ->
  generateControlKey control =
    n ++ [124] ++ tagName control ++ [124] ++ path control ++ [124]
      ++ JSON_stringify (attributes_object (attributes control)).
Proof.
  intros Hn Tn Tt Tp. rewrite generateControlKey_parts, Hn.
  unfold null_or, js_or. simpl List.filter. rewrite Tn, Tt, Tp.
  destruct n; [discriminate|].
  destruct (tagName control); [discriminate|].
  destruct (path control); [discriminate|].
  reflexivity.
Qed.

End MatchKey.

(** C4 (as amended).  [generateControlKey] is a total function of four
    properties of the descriptor only: it joins with [|] the non-empty ones
    among name, tagName and path, followed by [JSON.stringify] of the
    attributes in the object's own property order (there is no sorting of
    the keys).  When the three strings are non-empty the key is the
    four-fold concatenation.  Descriptors that agree on the four properties
    have the same key whatever their identifier and value, so two
    extractions of one unchanged element, at different times, yield the
    same key. *)
Theorem generateControlKey_stable :
  forall c1 c2 : FormControlData,
    name c1 = name c2 -> tagName c1 = tagName c2 -> path c1 = path c2 ->
    attributes c1 = attributes c2 ->
    AngularFormSnapshotContent.generateControlKey c1
      = AngularFormSnapshotContent.generateControlKey c2
    /\ AngularFormSnapshotContent.generateControlKey c1
       = join [124]
           (List.filter truthy [null_or (name c1) []; tagName c1; path c1]
            ++ [JSON_stringify
                  (AngularFormSnapshotContent.attributes_object (attributes c1))])
    /\ (forall n, name c1 = Some n -> truthy n = true ->
          truthy (tagName c1) = true -> truthy (path c1) = true ->
          AngularFormSnapshotContent.generateControlKey c1
          = n ++ [124] ++ tagName c1 ++ [124] ++ path c1 ++ [124]
              ++ JSON_stringify
                   (AngularFormSnapshotContent.attributes_object (attributes c1)))
    /\ (forall (l formField : Located) (id1 id2 : jsstring),
          Forall (fun extract : jsstring -> Located -> FormControlData =>
                    AngularFormSnapshotContent.generateControlKey (extract id1 l)
                    = AngularFormSnapshotContent.generateControlKey (extract id2 l))
                 [ FormControlInspector.extractAngularFormControlData;
                   FormControlInspector.extractAngularFormControlNameData;
                   FormControlInspector.extractNgModelData;
                   FormControlInspector.extractGenericFormControlData;
                   fun cid input =>
                     FormControlInspector.extractMaterialFormControlData cid input formField ]).
Proof.
  intros c1 c2 Hn Ht Hp Ha. repeat split.
  - rewrite !generateControlKey_parts. now rewrite Hn, Ht, Hp, Ha.
  - apply generateControlKey_parts.
  - apply generateControlKey_full.
  - intros l formField id1 id2. repeat constructor.
Qed.

Lemma generateControlKey_stable_witness :
  let c1 := FormControlInspector.extractGenericFormControlData
              (lit "ctrl_1700000000000_a") Samples.input_id_first in
  let c2 := Samples.with_value (JStr (lit "typed later"))
              (FormControlInspector.extractGenericFormControlData
                 (lit "ctrl_1700000009999_b") Samples.input_id_first) in
  AngularFormSnapshotContent.generateControlKey c1
  = AngularFormSnapshotContent.generateControlKey c2
  /\ AngularFormSnapshotContent.generateControlKey c1
     = lit "b|input|html > body > input#a|{" ++ [34] ++ lit "id" ++ [34; 58; 34] ++ lit "a"
         ++ [34; 44; 34] ++ lit "name" ++ [34; 58; 34] ++ lit "b" ++ [34; 125].
Proof.
  intros c1 c2.
  destruct (generateControlKey_stable c1 c2) as (Hsame & _ & Hfull & _);
    try reflexivity.
  split; [exact Hsame|].
  rewrite (Hfull (lit "b")); reflexivity.
Defined.

(** C4 (as stated) fails: two descriptors of the same input that differ
    only in the order in which the attributes were written get different
    keys, because the attributes are rendered in insertion order. *)
Lemma generateControlKey_attribute_order_matters :
  ~ (forall c1 c2 : FormControlData,
       name c1 = name c2 -> tagName c1 = tagName c2 -> path c1 = path c2 ->
       Permutation (attributes c1) (attributes c2) ->
       AngularFormSnapshotContent.generateControlKey c1
       = AngularFormSnapshotContent.generateControlKey c2).
Proof.
  intros H.
  specialize (H (FormControlInspector.extractGenericFormControlData [] Samples.input_id_first)
                (FormControlInspector.extractGenericFormControlData [] Samples.input_name_first)).
  assert (Hp : Permutation [(lit "id", lit "a"); (lit "name", lit "b")]
                           [(lit "name", lit "b"); (lit "id", lit "a")])
    by apply perm_swap.
  specialize (H eq_refl eq_refl eq_refl Hp).
  vm_compute in H. discriminate H.
Qed.

(** ** Element paths *)

Section Paths.

Lemma utils_path_loop_length chain path :
  length (FormControlInspector.path_loop chain path) = (length chain + length path)%nat.
Proof.
  revert path. induction chain as [|current parents IH]; intros path; simpl.
  - reflexivity.
  - rewrite IH. simpl. lia.
Qed.

Lemma inspector_path_loop_length chain path :
  (length path <= AngularFormInspector.MAX_DEPTH)%nat ->
  (length (AngularFormInspector.path_loop chain path)
     <= S AngularFormInspector.MAX_DEPTH)%nat.
Proof.
  revert path. induction chain as [|current parents IH]; intros path Hle; simpl.
  - lia.
  - destruct (Nat.ltb_spec AngularFormInspector.MAX_DEPTH (S (length path))) as [Hgt|Hle'].
    + simpl. lia.
    + apply IH. simpl. lia.
Qed.

End Paths.

(** C9.  The path generator of the form inspector stops at the element and
    ten ancestors, for every element.  The generator of the shared
    utilities, which capture and restore call, has no such stop: its path
    has one component for the element and one for every ancestor, so an
    input under twelve [div]s below [html > body] gets fifteen components. *)
Theorem generateElementPath_depth :
  (forall l : Located,
      (length (AngularFormInspector.path_components l)
         <= 1 + AngularFormInspector.MAX_DEPTH)%nat)
  /\ (forall l : Located,
        length (FormControlInspector.path_components l)
        = (1 + length (loc_ancestors l))%nat)
  /\ length (FormControlInspector.path_components (Samples.nested_input 12)) = 15%nat
  /\ FormControlInspector.generateElementPath (Samples.nested_input 12)
     = lit "html > body > div > div > div > div > div > div > div > div > div > div > div > div > input"
  /\ AngularFormInspector.generateElementPath (Samples.nested_input 12)
     = lit "div > div > div > div > div > div > div > div > div > div > input".
Proof.
  repeat split.
  - intros l. unfold AngularFormInspector.path_components.
    apply inspector_path_loop_length. simpl. unfold AngularFormInspector.MAX_DEPTH. lia.
  - intros l. unfold FormControlInspector.path_components.
    rewrite utils_path_loop_length. simpl. lia.
Qed.

(** ** One descriptor per element *)

Section Dedup.
Import FormControlInspector.

Lemma merge_inv_empty : merge_inv ([], ∅).
Proof.
  split; simpl.
  - constructor.
  - intros x. split; [set_solver | tauto].
Qed.

Lemma merge_inv_step control acc :
  merge_inv acc -> element control ∉ snd acc ->
  merge_inv (fst acc ++ [control], {[ element control ]} ∪ snd acc).
Proof.
  intros [Hnd Hset] Hnew. split; simpl; rewrite List.map_app; simpl.
  - apply NoDup_app. repeat split.
    + exact Hnd.
    + intros x Hx Hy. apply list_elem_of_In in Hx.
      apply list_elem_of_singleton in Hy. subst x.
      apply Hnew, Hset, Hx.
    + apply NoDup_singleton.
  - intros x. rewrite in_app_iff, elem_of_union, elem_of_singleton, Hset.
    simpl. intuition congruence.
Qed.

Lemma merge_pass_inv controls acc :
  merge_inv acc -> merge_inv (merge_pass controls acc).
Proof.
  revert acc. induction controls as [|control rest IH]; intros [fc pe] Hinv; simpl.
  - exact Hinv.
  - case_bool_decide as Hin.
    + now apply IH.
    + apply IH. now apply (merge_inv_step control (fc, pe)).
Qed.

(** A pass only appends, and what it appends are candidates of the pass
    whose element had not been claimed before the pass. *)
Lemma merge_pass_appends controls acc :
  exists added,
    fst (merge_pass controls acc) = fst acc ++ added
    /\ Forall (fun c => In c controls /\ element c ∉ snd acc) added
    /\ (forall x, x ∈ snd acc -> x ∈ snd (merge_pass controls acc)).
Proof.
  revert acc. induction controls as [|control rest IH]; intros [fc pe]; simpl.
  - exists []. rewrite List.app_nil_r. auto.
  - case_bool_decide as Hin.
    + destruct (IH (fc, pe)) as (added & Heq & Hall & Hmono).
      exists added. repeat split; auto.
      eapply List.Forall_impl; [|exact Hall]. simpl. intuition.
    + destruct (IH (fc ++ [control], {[ element control ]} ∪ pe))
        as (added & Heq & Hall & Hmono).
      exists (control :: added). simpl in *. repeat split.
      * now rewrite Heq, <- List.app_assoc.
      * constructor; [auto|].
        eapply List.Forall_impl; [|exact Hall]. simpl.
        intros c [Hc Hne]. split; [auto | set_solver].
      * intros x Hx. apply Hmono. set_solver.
Qed.

(** Every candidate of a pass has its element claimed when the pass ends. *)
Lemma merge_pass_claims controls acc c :
  In c controls -> element c ∈ snd (merge_pass controls acc).
Proof.
  revert acc. induction controls as [|control rest IH]; intros [fc pe] Hc; simpl.
  - destruct Hc.
  - destruct Hc as [-> | Hc].
    + case_bool_decide as Hin.
      * destruct (merge_pass_appends rest (fc, pe)) as (_ & _ & _ & Hmono).
        now apply Hmono.
      * destruct (merge_pass_appends rest (fc ++ [c], {[ element c ]} ∪ pe))
          as (_ & _ & _ & Hmono).
        apply Hmono. set_solver.
    + case_bool_decide; now apply IH.
Qed.

End Dedup.

(** C10.  [inspectAllFormControls] returns at most one descriptor per DOM
    element.  Its result is what the Angular pass kept, then what the
    generic pass kept, then what the Material pass kept; a pass keeps
    candidates of its own only, and never one whose element is that of a
    candidate of an earlier pass. *)
Theorem inspectAllFormControls_one_per_element :
  forall (fresh : nat -> jsstring) (document : DomNode),
    let angular := FormControlInspector.findAngularFormControls fresh document 0 in
    let generic := FormControlInspector.findGenericFormControls fresh document (snd angular) in
    let material := FormControlInspector.findMaterialFormControls fresh document (snd generic) in
    let result := FormControlInspector.inspectAllFormControls fresh document in
    NoDup (List.map element result)
    /\ exists keptAngular keptGeneric keptMaterial,
         result = keptAngular ++ keptGeneric ++ keptMaterial
         /\ Forall (fun c => In c (fst angular)) keptAngular
         /\ Forall (fun c => In c (fst generic)
                             /\ ~ In (element c) (List.map element (fst angular)))
                   keptGeneric
         /\ Forall (fun c => In c (fst material)
                             /\ ~ In (element c) (List.map element (fst angular))
                             /\ ~ In (element c) (List.map element (fst generic)))
                   keptMaterial.
Proof.
  intros fresh document angular generic material result.
  unfold result, FormControlInspector.inspectAllFormControls.
  fold angular. destruct angular as [angularControls n1] eqn:Ha.
  simpl in generic. fold generic. destruct generic as [genericControls n2] eqn:Hg.
  simpl in material. fold material. destruct material as [materialControls n3] eqn:Hm.
  simpl fst.
  set (acc1 := FormControlInspector.merge_pass angularControls ([], ∅)).
  set (acc2 := FormControlInspector.merge_pass genericControls acc1).
  set (acc3 := FormControlInspector.merge_pass materialControls acc2).
  split.
  - apply (merge_pass_inv materialControls acc2),
          (merge_pass_inv genericControls acc1),
          (merge_pass_inv angularControls), merge_inv_empty.
  - destruct (merge_pass_appends angularControls ([], ∅)) as (k1 & E1 & F1 & _).
    destruct (merge_pass_appends genericControls acc1) as (k2 & E2 & F2 & M2).
    destruct (merge_pass_appends materialControls acc2) as (k3 & E3 & F3 & _).
    fold acc1 in E1. fold acc2 in E2. fold acc3 in E3. simpl in E1.
    exists k1, k2, k3. repeat split.
    + now rewrite E3, E2, E1, <- List.app_assoc.
    + eapply List.Forall_impl; [|exact F1]. simpl. tauto.
    + eapply List.Forall_impl; [|exact F2]. simpl. intros c [Hc Hne]. split; [exact Hc|].
      intros Hin. apply in_map_iff in Hin. destruct Hin as (a & Hea & Hain).
      apply Hne. rewrite <- Hea. now apply merge_pass_claims.
    + eapply List.Forall_impl; [|exact F3]. simpl. intros c [Hc Hne]. repeat split; [exact Hc| |].
      * intros Hin. apply in_map_iff in Hin. destruct Hin as (a & Hea & Hain).
        apply Hne, M2. rewrite <- Hea. now apply merge_pass_claims.
      * intros Hin. apply in_map_iff in Hin. destruct Hin as (a & Hea & Hain).
        apply Hne. rewrite <- Hea. now apply merge_pass_claims.
Qed.

(** ** Restoring *)

Section Restore.
Import AngularFormSnapshotContent.

Lemma DomNode_induction (P : DomNode -> Prop) :
  (forall e kids, Forall P kids -> P (Node e kids)) -> forall n, P n.
Proof.
  intros step. fix IH 1. intros [e kids]. apply step.
  induction kids as [|k kids IHk]; constructor; [apply IH | exact IHk].
Qed.

(** *** Writes and the static part of the page *)

Lemma slot_write_checked b : slot_write (set_checked b).
Proof. intros []; split; reflexivity. Qed.
Lemma slot_write_value s : slot_write (set_value_slot s).
Proof. intros []; split; reflexivity. Qed.
Lemma slot_write_selectedIndex i : slot_write (set_selectedIndex i).
Proof. intros []; split; reflexivity. Qed.

Lemma elements_update id f n :
  forall anc anc',
    List.map loc_element (subtree anc (update_element id f n))
    = List.map (touch id f) (List.map loc_element (subtree anc' n)).
Proof.
  induction n as [e kids IH] using DomNode_induction. intros anc anc'.
  simpl. f_equal.
  generalize (e :: anc') as a'.
  generalize ((if Pos.eqb (el_node e) id then f e else e) :: anc) as a.
  induction IH as [|k kids Hk _ IHkids]; intros a a'; simpl.
  - reflexivity.
  - rewrite !List.map_app. f_equal; [apply Hk | apply IHkids].
Qed.

Lemma find_map {A B} (p : B -> bool) (g : A -> B) l :
  List.find p (List.map g l) = option_map g (List.find (fun x => p (g x)) l).
Proof.
  induction l as [|x l IH]; simpl; [reflexivity|].
  destruct (p (g x)); [reflexivity | exact IH].
Qed.

Lemma find_same {A} (p q : A -> bool) l :
  (forall x, p x = q x) -> List.find p l = List.find q l.
Proof.
  intros Hpq. induction l as [|x l IH]; simpl; [reflexivity|].
  rewrite Hpq, IH. reflexivity.
Qed.

Lemma find_element_elements handle dom :
  find_element handle dom
  = List.find (fun e => Pos.eqb (el_node e) handle)
              (List.map loc_element (subtree [] dom)).
Proof. unfold find_element. now rewrite find_map. Qed.

Lemma find_element_update id f handle dom :
  slot_write f ->
  find_element handle (update_element id f dom)
  = option_map (touch id f) (find_element handle dom).
Proof.
  intros Hf. rewrite !find_element_elements, (elements_update id f dom [] []), find_map.
  f_equal. apply find_same. intros e. unfold touch.
  destruct (Pos.eqb (el_node e) id); [|reflexivity].
  now rewrite (proj2 (Hf e)).
Qed.

Lemma same_static_update id f dom :
  slot_write f -> same_static (update_element id f dom) dom.
Proof.
  intros Hf handle. rewrite find_element_update by exact Hf.
  destruct (find_element handle dom) as [e|]; simpl; [|reflexivity].
  f_equal. unfold touch. destruct (Pos.eqb (el_node e) id); [|reflexivity].
  apply Hf.
Qed.

Lemma same_static_refl dom : same_static dom dom.
Proof. intros handle. reflexivity. Qed.

Lemma same_static_trans d1 d2 d3 :
  same_static d1 d2 -> same_static d2 d3 -> same_static d1 d3.
Proof. intros H12 H23 handle. now rewrite H12. Qed.

(** *** Computations *)

Lemma preserves_ret {A} (a : A) : preserves (ret a).
Proof. intros pg. apply same_static_refl. Qed.
Lemma preserves_throw {A} e : preserves (@throw Page A e).
Proof. intros pg. apply same_static_refl. Qed.
Lemma preserves_write id f : slot_write f -> preserves (write_element id f).
Proof. intros Hf pg. simpl. now apply same_static_update. Qed.
Lemma preserves_dispatch id ev : preserves (dispatchEvent id ev).
Proof. intros pg. apply same_static_refl. Qed.
Lemma preserves_bind {A B} (m : JS Page A) (k : A -> JS Page B) :
  preserves m -> (forall a, preserves (k a)) -> preserves (bind m k).
Proof.
  intros Hm Hk pg. unfold bind. specialize (Hm pg).
  destruct (m pg) as [pg' [a|e]]; simpl in *.
  - eapply same_static_trans; [apply Hk | exact Hm].
  - exact Hm.
Qed.

Lemma blind_ret {A} (a : A) : blind (@ret Page A a).
Proof. intros pg1 pg2. reflexivity. Qed.
Lemma blind_throw {A} e : blind (@throw Page A e).
Proof. intros pg1 pg2. reflexivity. Qed.
Lemma blind_write id f : blind (write_element id f).
Proof. intros pg1 pg2. reflexivity. Qed.
Lemma blind_dispatch id ev : blind (dispatchEvent id ev).
Proof. intros pg1 pg2. reflexivity. Qed.
Lemma blind_bind {A B} (m : JS Page A) (k : A -> JS Page B) :
  blind m -> (forall a, blind (k a)) -> blind (bind m k).
Proof.
  intros Hm Hk pg1 pg2. unfold bind. specialize (Hm pg1 pg2).
  destruct (m pg1) as [q1 [a1|e1]], (m pg2) as [q2 [a2|e2]]; simpl in *;
    try discriminate.
  - injection Hm as ->. apply Hk.
  - now injection Hm as ->.
Qed.

Lemma tame_ret {A} (a : A) : tame (@ret Page A a).
Proof. split; [apply preserves_ret | apply blind_ret]. Qed.
Lemma tame_throw {A} e : tame (@throw Page A e).
Proof. split; [apply preserves_throw | apply blind_throw]. Qed.
Lemma tame_write id f : slot_write f -> tame (write_element id f).
Proof. split; [now apply preserves_write | apply blind_write]. Qed.
Lemma tame_dispatch id ev : tame (dispatchEvent id ev).
Proof. split; [apply preserves_dispatch | apply blind_dispatch]. Qed.
Lemma tame_bind {A B} (m : JS Page A) (k : A -> JS Page B) :
  tame m -> (forall a, tame (k a)) -> tame (bind m k).
Proof.
  intros [Pm Bm] Hk. split.
  - apply preserves_bind; [exact Pm | intros a; apply Hk].
  - apply blind_bind; [exact Bm | intros a; apply Hk].
Qed.
Lemma tame_if {A} (b : bool) (m1 m2 : JS Page A) :
  tame m1 -> tame m2 -> tame (if b then m1 else m2).
Proof. now destruct b. Qed.

Ltac tame_step :=
  first [ apply tame_bind; [|intros ?]
        | apply tame_if
        | apply tame_ret
        | apply tame_throw
        | apply tame_dispatch
        | apply tame_write;
          first [ apply slot_write_checked | apply slot_write_value
                | apply slot_write_selectedIndex ] ].

Lemma assign_value_tame e v : tame (assign_value e v).
Proof. unfold assign_value. repeat tame_step. Qed.

Lemma restoreSelectValue_tame e v : tame (restoreSelectValue e v).
Proof. unfold restoreSelectValue. destruct (List.find _ _); repeat tame_step. Qed.

Lemma triggerChangeEvent_tame e v : tame (DOMUtils.triggerChangeEvent e v).
Proof.
  unfold DOMUtils.triggerChangeEvent.
  repeat first [apply assign_value_tame | tame_step].
Qed.

Lemma restoreMaterialValue_tame e v : tame (restoreMaterialValue e v).
Proof.
  unfold restoreMaterialValue. apply tame_if; [|apply tame_ret]. split.
  - intros pg. unfold bind, get. simpl.
    destruct (List.find _ _); apply same_static_refl.
  - intros pg1 pg2. unfold bind, get. simpl.
    do 2 destruct (List.find _ _); reflexivity.
Qed.

Lemma apply_value_tame c e v : tame (apply_value c e v).
Proof.
  unfold apply_value.
  repeat first [ apply assign_value_tame | apply restoreSelectValue_tame
               | apply triggerChangeEvent_tame | apply restoreMaterialValue_tame
               | tame_step ].
Qed.

(** [apply_value] reads static properties of the element only. *)
Lemma apply_value_static c e1 e2 v :
  static e1 = static e2 -> apply_value c e1 v = apply_value c e2 v.
Proof.
  destruct e1, e2. unfold static. simpl. intros H. injection H as -> -> -> -> -> -> -> -> -> -> -> -> -> -> -> -> -> -> -> ->.
  reflexivity.
Qed.

Lemma static_readOnly e1 e2 :
  static e1 = static e2 -> el_readOnly e1 = el_readOnly e2 /\ el_disabled e1 = el_disabled e2.
Proof.
  intros H. split.
  - exact (f_equal el_readOnly H).
  - exact (f_equal el_disabled H).
Qed.

(** *** One control *)

(** On a page whose static part is that of [dom], restoring a control
    ends as it does on [dom], and leaves the static part as it is. *)
Lemma restoreControlValue_isolated dom c sc pg :
  same_static (page_dom pg) dom ->
  snd (restoreControlValue c sc pg)
  = snd (restoreControlValue c sc {| page_dom := dom; page_events := [] |})
  /\ same_static (page_dom (fst (restoreControlValue c sc pg))) dom.
Proof.
  intros Hs. unfold restoreControlValue.
  destruct (element c) as [handle|]; [|split; [reflexivity | exact Hs]].
  unfold bind, get. cbv beta iota. cbn [page_dom].
  pose proof (Hs handle) as Hh.
  destruct (find_element handle (page_dom pg)) as [e1|],
           (find_element handle dom) as [e2|]; cbn [option_map] in Hh;
    try discriminate; [|split; [reflexivity | exact Hs]].
  assert (Hst : static e1 = static e2) by congruence. clear Hh.
  destruct (static_readOnly _ _ Hst) as [-> ->].
  destruct (el_readOnly e2 || el_disabled e2); [split; [reflexivity | exact Hs]|].
  rewrite (apply_value_static c e1 e2 _ Hst).
  destruct (apply_value_tame c e2 (value sc)) as [Hp Hb]. split.
  - apply Hb.
  - eapply same_static_trans; [apply Hp | exact Hs].
Qed.

Lemma restore_one_spec dom m sc t pg :
  same_static (page_dom pg) dom ->
  exists pg',
    restore_one m sc t pg = (pg', Ok (tally_after dom m [sc] t))
    /\ same_static (page_dom pg') dom.
Proof.
  intros Hs. unfold restore_one, try_catch, tally_after, outcome. simpl.
  destruct (m !! generateControlKey sc) as [c|]; simpl.
  - destruct (restoreControlValue_isolated dom c sc pg Hs) as [Hres Hst].
    unfold bind at 1.
    destruct (restoreControlValue c sc pg) as [pg' [[]|e]]; simpl in *; rewrite <- Hres; simpl.
    + exists pg'. split; [|exact Hst].
      unfold ret. do 3 f_equal; [lia | lia | now rewrite List.app_nil_r].
    + exists pg'. split; [|exact Hst].
      unfold ret. do 3 f_equal; lia.
  - exists pg. split; [|exact Hs].
    unfold ret. do 3 f_equal; [lia | lia | now rewrite List.app_nil_r].
Qed.

Lemma tally_after_cons dom m sc rest t :
  tally_after dom m (sc :: rest) t = tally_after dom m rest (tally_after dom m [sc] t).
Proof.
  unfold tally_after. simpl.
  destruct (outcome dom m sc); simpl; f_equal; try lia;
    rewrite ?List.app_nil_r, <- ?List.app_assoc; reflexivity.
Qed.

Lemma restore_loop_spec dom m controls :
  forall t pg,
    same_static (page_dom pg) dom ->
    exists pg',
      restore_loop m controls t pg = (pg', Ok (tally_after dom m controls t))
      /\ same_static (page_dom pg') dom.
Proof.
  induction controls as [|sc rest IH]; intros t pg Hs.
  - exists pg. split; [|exact Hs]. simpl. unfold ret, tally_after. simpl.
    destruct t; simpl. do 3 f_equal; [lia | lia | now rewrite List.app_nil_r].
  - simpl. unfold bind.
    destruct (restore_one_spec dom m sc t pg Hs) as (pg1 & -> & Hs1).
    destruct (IH (tally_after dom m [sc] t) pg1 Hs1) as (pg2 & -> & Hs2).
    exists pg2. split; [|exact Hs2]. now rewrite (tally_after_cons dom m sc rest t).
Qed.

Lemma blocked_outcome dom m sc :
  blocked dom m sc -> outcome dom m sc = Failed (lit "Control is readonly or disabled").
Proof.
  intros (c & handle & e & Hm & Hel & Hfind & Hro).
  unfold outcome. rewrite Hm. unfold restoreControlValue. rewrite Hel.
  unfold bind, get. simpl. rewrite Hfind, Hro. reflexivity.
Qed.

Lemma unmatched_outcome dom m sc :
  m !! generateControlKey sc = None <-> outcome dom m sc = Skipped.
Proof.
  unfold outcome. destruct (m !! generateControlKey sc) as [c|]; [|tauto].
  split; [discriminate|]. now destruct (snd _).
Qed.

Lemma filter_all {A} (p : A -> bool) l :
  Forall (fun x => p x = true) l -> List.filter p l = l.
Proof.
  induction 1 as [|x l Hx _ IH]; simpl; [reflexivity|]. now rewrite Hx, IH.
Qed.

Lemma filter_none {A} (p : A -> bool) l :
  Forall (fun x => p x = false) l -> List.filter p l = [].
Proof.
  induction 1 as [|x l Hx _ IH]; simpl; [reflexivity|]. now rewrite Hx.
Qed.

End Restore.

(** C3.  Once it has a snapshot, [restoreForms] always returns a report,
    whatever happens to single controls.  Every snapshot control has one
    outcome, decided by the page as it is when the run starts and not by
    what the run did to earlier controls: it is skipped (and counted in
    [skippedCount], with no error entry) exactly when its key has no live
    counterpart; it leaves exactly one error entry, with the message
    "Control is readonly or disabled", when its counterpart is read-only
    or disabled; and the run goes on with the next control.  In particular,
    with five snapshot controls of which one has a disabled counterpart
    while the other four are restored, the report has [restoredCount = 4],
    [skippedCount = 0] and that single error entry. *)
Theorem restoreForms_isolates_failures :
  forall (fresh : nat -> jsstring) (snapshot : Snapshot) (pg : Page),
    let m := AngularFormSnapshotContent.build_map
               (FormControlInspector.inspectAllFormControls fresh (page_dom pg)) in
    let out := outcome (page_dom pg) m in
    let controls := formControls snapshot in
    exists pg' report,
      AngularFormSnapshotContent.restoreForms fresh (Some snapshot) pg = (pg', Ok report)
      /\ restoredCount report = length (List.filter (fun c => is_restored (out c)) controls)
      /\ skippedCount report = length (List.filter (fun c => is_skipped (out c)) controls)
      /\ errors report = flat_map (fun c => error_entries c (out c)) controls
      /\ errorCount report = length (errors report)
      /\ (forall c, m !! AngularFormSnapshotContent.generateControlKey c = None
                    <-> out c = Skipped)
      /\ (forall c, blocked (page_dom pg) m c ->
                    out c = Failed (lit "Control is readonly or disabled"))
      /\ (forall before x after,
            controls = before ++ x :: after ->
            length controls = 5%nat ->
            blocked (page_dom pg) m x ->
            Forall (fun c => out c = Restored) (before ++ after) ->
            restoredCount report = 4%nat
            /\ skippedCount report = 0%nat
            /\ errors report
               = [{| err_control := null_or (name x) (path x);
                     err_error := lit "Control is readonly or disabled" |}]).
Proof.
  intros fresh snapshot pg m out controls.
  unfold AngularFormSnapshotContent.restoreForms, bind at 1, get. simpl.
  fold m. fold controls.
  destruct (restore_loop_spec (page_dom pg) m controls
              {| AngularFormSnapshotContent.t_restored := 0;
                 AngularFormSnapshotContent.t_skipped := 0;
                 AngularFormSnapshotContent.t_errors := [] |} pg
              (same_static_refl _)) as (pg' & Hloop & _).
  unfold bind. rewrite Hloop. simpl.
  eexists _, _. split; [reflexivity|]. simpl.
  do 4 (split; [reflexivity|]).
  split; [intros c; apply unmatched_outcome|].
  split; [intros c; apply blocked_outcome|].
  intros before x after Hc Hlen Hblk Hall.
  subst out. cbv beta in *.
  apply Forall_app in Hall. destruct Hall as [Hb Ha].
  pose proof (blocked_outcome _ _ _ Hblk) as Hx.
  rewrite Hc, !List.filter_app, flat_map_app. simpl. rewrite Hx. simpl.
  assert (Hnone : forall l, Forall (fun c => outcome (page_dom pg) m c = Restored) l ->
                            flat_map (fun c => error_entries c (outcome (page_dom pg) m c)) l = []).
  { induction 1 as [|c l Hr _ IH]; simpl; [reflexivity|]. now rewrite Hr. }
  assert (Hall : forall l, Forall (fun c => outcome (page_dom pg) m c = Restored) l ->
                           List.filter (fun c => is_restored (outcome (page_dom pg) m c)) l = l
                           /\ List.filter (fun c => is_skipped (outcome (page_dom pg) m c)) l = []).
  { intros l Hl. split; [apply filter_all | apply filter_none];
      (eapply List.Forall_impl; [|exact Hl]); simpl; now intros c ->. }
  destruct (Hall _ Hb) as [-> ->], (Hall _ Ha) as [-> ->].
  rewrite (Hnone _ Hb), (Hnone _ Ha).
  rewrite Hc, List.length_app in Hlen. simpl in Hlen.
  repeat split. rewrite List.length_app. lia.
Qed.

Lemma restoreForms_isolates_failures_witness :
  let pg := {| page_dom := Samples.five_fields true; page_events := [] |} in
  let snapshot := Samples.snapshot_of Samples.host
                    (Samples.captured (Samples.five_fields true)) in
  exists pg' report,
    AngularFormSnapshotContent.restoreForms (fresh_id Samples.host) (Some snapshot) pg
    = (pg', Ok report)
    /\ length (formControls snapshot) = 5%nat
    /\ restoredCount report = 4%nat
    /\ skippedCount report = 0%nat
    /\ errors report = [{| err_control := lit "f3";
                           err_error := lit "Control is readonly or disabled" |}].
Proof.
  intros pg snapshot.
  destruct (restoreForms_isolates_failures (fresh_id Samples.host) snapshot pg)
    as (pg' & report & Hrun & _ & _ & _ & _ & _ & _ & Hfive).
  exists pg', report. split; [exact Hrun|]. split; [reflexivity|].
  destruct (Hfive (firstn 2 (formControls snapshot))
                  (nth 2 (formControls snapshot) (Samples.with_value JNull
                     (FormControlInspector.extractGenericFormControlData []
                        Samples.input_id_first)))
                  (skipn 3 (formControls snapshot)))
    as (Hr & Hs & He).
  - vm_compute. reflexivity.
  - vm_compute. reflexivity.
  - eexists _, 5%positive, _. repeat split; vm_compute; reflexivity.
  - repeat constructor; vm_compute; reflexivity.
  - repeat split; [exact Hr | exact Hs | rewrite He; vm_compute; reflexivity].
Defined.

(** The counterpart of a snapshot control is the live control with the
    same key, and the attributes are part of the key.  A control that was
    enabled when the snapshot was taken and carries the [disabled]
    attribute now has another key: the snapshot control has no counterpart,
    and it is skipped, not reported as an error. *)
Lemma disabled_after_capture_is_skipped :
  let pg := {| page_dom := Samples.five_fields true; page_events := [] |} in
  let snapshot := Samples.snapshot_of Samples.host
                    (Samples.captured (Samples.five_fields false)) in
  exists pg' report,
    AngularFormSnapshotContent.restoreForms (fresh_id Samples.host) (Some snapshot) pg
    = (pg', Ok report)
    /\ length (formControls snapshot) = 5%nat
    /\ restoredCount report = 4%nat
    /\ skippedCount report = 1%nat
    /\ errors report = [].
Proof.
  intros pg snapshot.
  unfold AngularFormSnapshotContent.restoreForms, bind at 1, get. cbv beta iota.
  set (m := AngularFormSnapshotContent.build_map
              (FormControlInspector.inspectAllFormControls (fresh_id Samples.host)
                 (page_dom pg))).
  destruct (restore_loop_spec (page_dom pg) m (formControls snapshot)
              {| AngularFormSnapshotContent.t_restored := 0;
                 AngularFormSnapshotContent.t_skipped := 0;
                 AngularFormSnapshotContent.t_errors := [] |} pg
              (same_static_refl _)) as (pg' & Hloop & _).
  unfold bind. rewrite Hloop. cbv beta iota.
  eexists _, _. split; [reflexivity|].
  split; [reflexivity|]. repeat split; vm_compute; reflexivity.
Qed.

(** ** The alphabet of the token *)

Section Alphabet.
Import DataEncoder.

Lemma list_ind3 {A} (P : list A -> Prop) :
  P [] -> (forall a, P [a]) -> (forall a b, P [a; b]) ->
  (forall a b c l, P l -> P (a :: b :: c :: l)) ->
  forall l, P l.
Proof.
  intros H0 H1 H2 H3. fix IH 1.
  intros [|a [|b [|c l]]]; [apply H0 | apply H1 | apply H2 | apply H3, IH].
Qed.

Lemma b64_char_is_b64 i : is_b64 (b64_char i) = true.
Proof.
  unfold b64_char, is_b64, is_alnum, is_digit.
  repeat match goal with
         | |- context [if ?c then _ else _] => destruct c eqn:?
         end;
    repeat match goal with
           | H : (_ <? _) = true |- _ => apply N.ltb_lt in H
           | H : (_ <? _) = false |- _ => apply N.ltb_ge in H
           | H : (_ =? _) = true |- _ => apply N.eqb_eq in H
           | H : (_ =? _) = false |- _ => apply N.eqb_neq in H
           end;
    rewrite ?orb_true_iff, ?andb_true_iff, ?N.leb_le, ?N.eqb_eq; lia.
Qed.

(** [btoa] writes alphabet characters, then at most two [=]. *)
Lemma btoa_bytes_shape l :
  exists body pad,
    btoa_bytes l = body ++ pad
    /\ Forall (fun c => is_b64 c = true) body
    /\ (pad = [] \/ pad = [61] \/ pad = [61; 61])
    /\ (length (body ++ pad) mod 4 = 0)%nat.
Proof.
  induction l as [|a|a b|a b c l IH] using list_ind3.
  - exists [], []. simpl. auto.
  - exists [b64_char (a / 4); b64_char ((a mod 4) * 16)], [61; 61].
    repeat split; auto using b64_char_is_b64.
  - exists [b64_char (a / 4); b64_char ((a mod 4) * 16 + b / 16);
            b64_char ((b mod 16) * 4)], [61].
    repeat split; auto using b64_char_is_b64.
  - destruct IH as (body & pad & Heq & Hb & Hp & Hlen).
    exists (b64_char (a / 4) :: b64_char ((a mod 4) * 16 + b / 16)
              :: b64_char ((b mod 16) * 4 + c / 64) :: b64_char (c mod 64) :: body), pad.
    repeat split; auto using b64_char_is_b64.
    + simpl. now rewrite Heq.
    + rewrite List.length_app in *. simpl length.
      replace (S (S (S (S (length body)))) + length pad)%nat
        with ((length body + length pad) + 1 * 4)%nat by lia.
      rewrite Nat.Div0.mod_add. exact Hlen.
Qed.

Lemma url_app a b : url (a ++ b) = url a ++ url b.
Proof. unfold url, replace_char. now rewrite !List.map_app. Qed.

Lemma is_b64_cases c :
  is_b64 c = true -> is_alnum c = true \/ c = 43 \/ c = 47.
Proof.
  unfold is_b64. rewrite !orb_true_iff, !N.eqb_eq. tauto.
Qed.

Lemma is_alnum_not c :
  is_alnum c = true -> c <> 43 /\ c <> 47 /\ c <> 45 /\ c <> 95 /\ c <> 61 /\ c <> 124.
Proof.
  unfold is_alnum, is_digit.
  rewrite !orb_true_iff, !andb_true_iff, !N.leb_le. lia.
Qed.

Lemma url_body body :
  Forall (fun c => is_b64 c = true) body ->
  Forall (fun c => is_url_safe c = true) (url body) /\ unurl (url body) = body.
Proof.
  induction 1 as [|c body Hc _ [IH1 IH2]]; simpl; [split; [constructor | reflexivity]|].
  unfold url, unurl, replace_char in *. simpl. rewrite IH2. split.
  - constructor; [|exact IH1].
    destruct (is_b64_cases c Hc) as [Ha | [-> | ->]]; [|reflexivity..].
    destruct (is_alnum_not c Ha) as (H1 & H2 & _).
    apply N.eqb_neq in H1, H2. rewrite H1, H2. unfold is_url_safe. now rewrite Ha.
  - f_equal.
    destruct (is_b64_cases c Hc) as [Ha | [-> | ->]]; [|reflexivity..].
    destruct (is_alnum_not c Ha) as (H1 & H2 & H3 & H4 & _).
    apply N.eqb_neq in H1, H2, H3, H4. now rewrite H1, H2, H3, H4.
Qed.

Lemma url_safe_not_pad c : is_url_safe c = true -> c <> 61 /\ c <> 124.
Proof.
  unfold is_url_safe. rewrite !orb_true_iff, !N.eqb_eq.
  intros [[Ha | ->] | ->]; [|lia..].
  destruct (is_alnum_not c Ha) as (_ & _ & _ & _ & H5 & H6). auto.
Qed.

Lemma strip_leading_head c x s :
  x <> c -> strip_leading c (x :: s) = x :: s.
Proof. intros Hx. simpl. apply N.eqb_neq in Hx. now rewrite Hx. Qed.

Lemma strip_trailing_body body pad :
  Forall (fun c => is_url_safe c = true) body ->
  pad = [] \/ pad = [61] \/ pad = [61; 61] ->
  strip_trailing 61 (body ++ pad) = body.
Proof.
  intros Hb Hp. unfold strip_trailing. rewrite List.rev_app_distr.
  assert (Hrev : strip_leading 61 (rev body) = rev body).
  { destruct (rev body) as [|x r] eqn:Hr; [reflexivity|].
    apply strip_leading_head.
    assert (Hx : In x body) by (apply in_rev; rewrite Hr; now left).
    rewrite Forall_forall in Hb. apply list_elem_of_In in Hx.
    now destruct (url_safe_not_pad x (Hb x Hx)). }
  destruct Hp as [-> | [-> | ->]]; simpl; rewrite Hrev; apply List.rev_involutive.
Qed.

(** What [encodeData] returns for a binary string. *)
Lemma encoded_shape l :
  exists body pad,
    btoa_bytes l = body ++ pad
    /\ Forall (fun c => is_b64 c = true) body
    /\ (pad = [] \/ pad = [61] \/ pad = [61; 61])
    /\ (length (body ++ pad) mod 4 = 0)%nat
    /\ strip_trailing 61 (url (btoa_bytes l)) = url body
    /\ Forall (fun c => is_url_safe c = true) (url body).
Proof.
  destruct (btoa_bytes_shape l) as (body & pad & Heq & Hb & Hp & Hlen).
  exists body, pad. repeat split; auto.
  - rewrite Heq, url_app.
    replace (url pad) with pad by (destruct Hp as [-> | [-> | ->]]; reflexivity).
    apply strip_trailing_body; [apply url_body, Hb | exact Hp].
  - apply url_body, Hb.
Qed.

End Alphabet.

(** ** The checksum *)

Section Checksum.
Import DataEncoder.

Lemma hex_digit_is_hex d : d < 16 -> is_hex (hex_digit d) = true.
Proof.
  intros Hd. unfold hex_digit, is_hex, is_digit.
  destruct (N.ltb_spec d 10);
    rewrite ?orb_true_iff, ?andb_true_iff, ?N.leb_le; lia.
Qed.

Lemma hex_digits_is_hex fuel :
  forall n acc,
    Forall (fun c => is_hex c = true) acc ->
    Forall (fun c => is_hex c = true) (hex_digits fuel n acc).
Proof.
  induction fuel as [|fuel IH]; intros n acc Hacc; simpl; [exact Hacc|].
  assert (Hd : is_hex (hex_digit (n mod 16)) = true)
    by (apply hex_digit_is_hex, N.mod_lt; discriminate).
  destruct (n <? 16); [|apply IH]; now constructor.
Qed.

Lemma hex_digits_length fuel :
  forall (k : nat) n acc,
    n < 16 ^ N.of_nat (S k) ->
    (length (hex_digits fuel n acc) <= S k + length acc)%nat.
Proof.
  induction fuel as [|fuel IH]; intros k n acc Hn; simpl hex_digits; [lia|].
  destruct (N.ltb_spec n 16) as [Hlt|Hge]; [simpl; lia|].
  destruct k as [|k].
  - change (16 ^ N.of_nat 1) with 16 in Hn. lia.
  - specialize (IH k (n / 16) (hex_digit (n mod 16) :: acc)).
    simpl length in IH. etransitivity; [apply IH|lia].
    apply N.Div0.div_lt_upper_bound.
    rewrite <- N.pow_succ_r'. now rewrite <- Nat2N.inj_succ.
Qed.

Lemma toString16_is_hex n : Forall (fun c => is_hex c = true) (toString16 n).
Proof. apply hex_digits_is_hex. constructor. Qed.

Lemma length_padStart width c s :
  (length s <= width)%nat -> length (padStart width c s) = width.
Proof.
  intros Hle. unfold padStart. rewrite List.length_app, List.repeat_length. lia.
Qed.

Lemma padStart_is_hex width s :
  Forall (fun c => is_hex c = true) s ->
  Forall (fun c => is_hex c = true) (padStart width 48 s).
Proof.
  intros Hs. unfold padStart. apply Forall_app. split; [|exact Hs].
  apply Forall_forall. intros x Hx. apply list_elem_of_In, repeat_spec in Hx. now subst x.
Qed.

Lemma hex_byte_shape b :
  b < 256 -> length (hex_byte b) = 2%nat /\ Forall (fun c => is_hex c = true) (hex_byte b).
Proof.
  intros Hb. unfold hex_byte. split.
  - apply length_padStart. unfold toString16.
    etransitivity; [apply (hex_digits_length _ 1)|simpl; lia]. exact Hb.
  - apply padStart_is_hex, toString16_is_hex.
Qed.

(** *** The digest has thirty-two bytes *)

Lemma round_length st kw : length (SHA256.round st kw) = length st.
Proof.
  unfold SHA256.round.
  destruct st as [|a [|b [|c [|d [|e [|f [|g [|h [|i st]]]]]]]]]; reflexivity.
Qed.

Lemma fold_round_length l st : length (fold_left SHA256.round l st) = length st.
Proof.
  revert st. induction l as [|kw l IH]; intros st; simpl; [reflexivity|].
  now rewrite IH, round_length.
Qed.

Lemma compress_length H block : length (SHA256.compress H block) = length H.
Proof.
  unfold SHA256.compress.
  rewrite List.length_map, List.length_combine, fold_round_length. lia.
Qed.

Lemma fold_compress_length blocks H :
  length (fold_left SHA256.compress blocks H) = length H.
Proof.
  revert H. induction blocks as [|b blocks IH]; intros H; simpl; [reflexivity|].
  now rewrite IH, compress_length.
Qed.

Lemma be_bytes_4 x :
  exists a b c d, SHA256.be_bytes 4 x = [a; b; c; d] /\ a < 256 /\ b < 256 /\ c < 256 /\ d < 256.
Proof.
  unfold SHA256.be_bytes. simpl. eexists _, _, _, _. split; [reflexivity|].
  repeat split; apply N.mod_lt; discriminate.
Qed.

Lemma flat_be_bytes H :
  length (flat_map (SHA256.be_bytes 4) H) = (4 * length H)%nat
  /\ Forall (fun b => b < 256) (flat_map (SHA256.be_bytes 4) H).
Proof.
  induction H as [|x H [IHl IHf]]; [split; [reflexivity | constructor]|].
  destruct (be_bytes_4 x) as (a & b & c & d & Hx & Ha & Hb & Hc & Hd).
  change (flat_map (SHA256.be_bytes 4) (x :: H))
    with (SHA256.be_bytes 4 x ++ flat_map (SHA256.be_bytes 4) H).
  rewrite Hx. split.
  - simpl length. lia.
  - repeat constructor; assumption.
Qed.

Lemma digest_shape msg :
  length (SHA256.digest msg) = 32%nat /\ Forall (fun b => b < 256) (SHA256.digest msg).
Proof.
  unfold SHA256.digest. destruct (flat_be_bytes
    (fold_left SHA256.compress
       (SHA256.chunks (length (SHA256.words_of_bytes (SHA256.pad msg)))
          (SHA256.words_of_bytes (SHA256.pad msg))) SHA256.H0)) as [Hl Hf].
  split; [|exact Hf]. rewrite Hl, fold_compress_length. reflexivity.
Qed.

Lemma concat_hex_bytes l :
  Forall (fun b => b < 256) l ->
  length (concat (List.map hex_byte l)) = (2 * length l)%nat
  /\ Forall (fun c => is_hex c = true) (concat (List.map hex_byte l)).
Proof.
  induction 1 as [|b l Hb _ [IHl IHf]]; [split; [reflexivity | constructor]|].
  destruct (hex_byte_shape b Hb) as [Hl Hf]. simpl. split.
  - rewrite List.length_app, Hl, IHl. lia.
  - apply Forall_app. now split.
Qed.

Lemma to_int32_range z : (- 2147483648 <= to_int32 z < 2147483648)%Z.
Proof.
  unfold to_int32.
  pose proof (Z.mod_pos_bound (z + 2147483648) 4294967296 eq_refl). lia.
Qed.

Lemma fallback_hash_range data :
  (- 2147483648 <= fallback_hash data < 2147483648)%Z.
Proof.
  unfold fallback_hash.
  assert (H : forall l z, (- 2147483648 <= z < 2147483648)%Z ->
    (- 2147483648 <= fold_left (fun hash char =>
          to_int32 (to_int32 (hash * 32) - hash + Z.of_N char)%Z) l z < 2147483648)%Z).
  { induction l as [|c l IH]; intros z Hz; simpl; [exact Hz|].
    apply IH, to_int32_range. }
  apply H. lia.
Qed.

Lemma firstn_Forall {A} (P : A -> Prop) n l : Forall P l -> Forall P (firstn n l).
Proof.
  intros H. revert n. induction H as [|x l Hx _ IH]; intros [|n]; simpl;
    constructor; auto.
Qed.

(** What [calculateChecksum] returns: sixteen hexadecimal characters
    with [crypto.subtle], eight without. *)
Lemma calculateChecksum_shape h data t :
  calculateChecksum h data t = (t ++ [Call_calculateChecksum], Ok (checksum_of h data))
  /\ length (checksum_of h data) = (if crypto_subtle h then 16 else 8)%nat
  /\ Forall (fun c => is_hex c = true) (checksum_of h data).
Proof.
  unfold checksum_of, calculateChecksum, bind, tell, modify, ret.
  destruct (crypto_subtle h); simpl.
  - split; [reflexivity|].
    destruct (digest_shape (TextEncoder_encode data)) as [Hl Hf].
    destruct (concat_hex_bytes _ Hf) as [Hcl Hcf]. split.
    + rewrite List.length_firstn, Hcl, Hl. reflexivity.
    + now apply firstn_Forall.
  - split; [reflexivity|]. split.
    + apply length_padStart. unfold toString16.
      etransitivity; [apply (hex_digits_length _ 7)|simpl; lia].
      pose proof (fallback_hash_range data).
      change (16 ^ N.of_nat 8) with 4294967296. lia.
    + apply padStart_is_hex, toString16_is_hex.
Qed.

End Checksum.

(** ** Encoding never fails *)

Section Encodable.
Import DataEncoder.

Lemma list_ind2 {A} (P : list A -> Prop) :
  P [] -> (forall c, P [c]) ->
  (forall c d l, P l -> P (d :: l) -> P (c :: d :: l)) ->
  forall l, P l.
Proof.
  intros H0 H1 H2 l.
  enough (H : P l /\ forall c, P (c :: l)) by apply H.
  induction l as [|d l [IHl IHc]]; split; auto.
Qed.

Lemma json_induction (P : json -> Prop) :
  P JNull -> (forall b, P (JBool b)) -> (forall n, P (JNum n)) ->
  (forall s, P (JStr s)) ->
  (forall items, Forall P items -> P (JArr items)) ->
  (forall props, Forall (fun kv => P (snd kv)) props -> P (JObj props)) ->
  forall v, P v.
Proof.
  intros Hnull Hbool Hnum Hstr Harr Hobj. fix IH 1. intros [| b | n | s | items | props].
  - exact Hnull.
  - apply Hbool.
  - apply Hnum.
  - apply Hstr.
  - apply Harr. induction items as [|x items IHi]; constructor; [apply IH | exact IHi].
  - apply Hobj. induction props as [|[k x] props IHp]; constructor; [apply IH | exact IHp].
Qed.

Lemma plain_not_surrogate c :
  plain c -> is_high_surrogate c = false /\ is_low_surrogate c = false.
Proof.
  unfold plain, is_high_surrogate, is_low_surrogate. intros Hc.
  rewrite !andb_false_iff, !N.leb_gt. lia.
Qed.

Lemma utf8_encode_cons lone c rest :
  utf8_encode lone (c :: rest)
  = if is_high_surrogate c then
      match rest with
      | d :: rest' =>
          if is_low_surrogate d
          then option_map (app (utf8_of_code_point (pair_code_point c d)))
                          (utf8_encode lone rest')
          else match lone with
               | Some r => option_map (app r) (utf8_encode lone rest)
               | None => None
               end
      | [] => lone
      end
    else if is_low_surrogate c then
      match lone with
      | Some r => option_map (app r) (utf8_encode lone rest)
      | None => None
      end
    else option_map (app (utf8_of_code_point c)) (utf8_encode lone rest).
Proof. reflexivity. Qed.

Lemma utf8_encode_app a :
  forall b x y,
    utf8_encode None a = Some x -> utf8_encode None b = Some y ->
    utf8_encode None (a ++ b) = Some (x ++ y).
Proof.
  induction a as [|c|c d l IHl IHd] using list_ind2; intros b x y Ha Hb.
  - simpl in Ha. injection Ha as <-. exact Hb.
  - simpl in Ha. simpl app. cbn [utf8_encode].
    destruct (is_high_surrogate c); [discriminate|].
    destruct (is_low_surrogate c); [discriminate|].
    injection Ha as <-. rewrite Hb. simpl. now rewrite List.app_nil_r.
  - change ((c :: d :: l) ++ b) with (c :: d :: (l ++ b)).
    rewrite utf8_encode_cons in Ha |- *. cbv beta iota in Ha |- *.
    destruct (is_high_surrogate c).
    + destruct (is_low_surrogate d); [|discriminate].
      destruct (utf8_encode None l) as [xl|] eqn:Hl; [|discriminate].
      injection Ha as <-. rewrite (IHl b xl y eq_refl Hb). simpl.
      now rewrite List.app_assoc.
    + destruct (is_low_surrogate c); [discriminate|].
      change (d :: l ++ b) with ((d :: l) ++ b).
      destruct (utf8_encode None (d :: l)) as [xd|] eqn:Hd; [|discriminate].
      injection Ha as <-. rewrite (IHd b xd y eq_refl Hb). simpl.
      now rewrite List.app_assoc.
Qed.

Lemma encodable_app a b : encodable a -> encodable b -> encodable (a ++ b).
Proof.
  unfold encodable. intros Ha Hb.
  destruct (utf8_encode None a) as [x|] eqn:Ex; [|contradiction].
  destruct (utf8_encode None b) as [y|] eqn:Ey; [|contradiction].
  now rewrite (utf8_encode_app a b x y Ex Ey).
Qed.

Lemma encodable_nil : encodable [].
Proof. discriminate. Qed.

Lemma encodable_one c :
  is_high_surrogate c = false -> is_low_surrogate c = false -> encodable [c].
Proof. unfold encodable. simpl. now intros -> ->. Qed.

Lemma encodable_pair c d :
  is_high_surrogate c = true -> is_low_surrogate d = true -> encodable [c; d].
Proof. unfold encodable. simpl. now intros -> ->. Qed.

Lemma encodable_plain s : Forall plain s -> encodable s.
Proof.
  induction 1 as [|c s Hc _ IH]; [apply encodable_nil|].
  destruct (plain_not_surrogate c Hc).
  apply (encodable_app [c] s); [now apply encodable_one | exact IH].
Qed.

Lemma plain_lit s : Forall plain (lit s) <-> forallb (fun c => c <? 128) (lit s) = true.
Proof.
  rewrite forallb_forall, Forall_forall. unfold plain.
  split; intros H x Hx.
  - apply N.ltb_lt, H, list_elem_of_In, Hx.
  - apply N.ltb_lt, H, list_elem_of_In, Hx.
Qed.

Lemma hex_digit_plain d : d < 16 -> plain (hex_digit d).
Proof. unfold plain, hex_digit. intros Hd. destruct (d <? 10); lia. Qed.

Lemma unicode_escape_plain c : Forall plain (unicode_escape c).
Proof.
  unfold unicode_escape, hex4.
  repeat constructor; try (unfold plain; lia);
    apply hex_digit_plain, N.mod_lt; discriminate.
Qed.

Lemma encodable_cons_plain c s : plain c -> encodable s -> encodable (c :: s).
Proof.
  intros Hc Hs. apply (encodable_app [c] s); [|exact Hs].
  apply encodable_plain. now constructor.
Qed.

Lemma quote_body_cons c rest :
  quote_body (c :: rest)
  = if c =? 34 then 92 :: 34 :: quote_body rest
    else if c =? 92 then 92 :: 92 :: quote_body rest
    else if c =? 8 then 92 :: 98 :: quote_body rest
    else if c =? 12 then 92 :: 102 :: quote_body rest
    else if c =? 10 then 92 :: 110 :: quote_body rest
    else if c =? 13 then 92 :: 114 :: quote_body rest
    else if c =? 9 then 92 :: 116 :: quote_body rest
    else if c <? 32 then unicode_escape c ++ quote_body rest
    else if is_high_surrogate c then
      match rest with
      | d :: rest' =>
          if is_low_surrogate d then c :: d :: quote_body rest'
          else unicode_escape c ++ quote_body rest
      | [] => unicode_escape c
      end
    else if is_low_surrogate c then unicode_escape c ++ quote_body rest
    else c :: quote_body rest.
Proof. reflexivity. Qed.

Lemma quote_body_encodable s : encodable (quote_body s).
Proof.
  induction s as [|c|c d l IHl IHd] using list_ind2.
  - apply encodable_nil.
  - cbn [quote_body].
    repeat match goal with
           | |- context [if ?b then _ else _] => destruct b eqn:?
           end;
      try (apply encodable_plain; repeat constructor; unfold plain; lia);
      try (rewrite ?List.app_nil_r; apply encodable_plain, unicode_escape_plain).
    now apply encodable_one.
  - rewrite quote_body_cons. cbv beta iota.
    repeat match goal with
           | |- context [if ?b then _ else _] => destruct b eqn:?
           end;
      try (repeat apply encodable_cons_plain; try (unfold plain; lia); exact IHd);
      try (apply encodable_app; [apply encodable_plain, unicode_escape_plain | exact IHd]);
      first [ apply (encodable_app [c; d]); [now apply encodable_pair | exact IHl]
            | apply (encodable_app [c]); [now apply encodable_one | exact IHd] ].
Qed.

Lemma quote_encodable s : encodable (quote s).
Proof.
  unfold quote. apply encodable_cons_plain; [unfold plain; lia|].
  apply encodable_app; [apply quote_body_encodable|].
  apply encodable_plain. repeat constructor.
Qed.

Lemma dec_digits_plain fuel :
  forall n acc, Forall plain acc -> Forall plain (dec_digits fuel n acc).
Proof.
  induction fuel as [|fuel IH]; intros n acc Hacc; simpl; [exact Hacc|].
  assert (Hd : plain (48 + n mod 10)).
  { unfold plain. pose proof (N.mod_lt n 10). lia. }
  destruct (n <? 10); [|apply IH]; now constructor.
Qed.

Lemma Z_to_string_plain z : Forall plain (Z_to_string z).
Proof.
  destruct z; simpl.
  - repeat constructor.
  - apply dec_digits_plain. constructor.
  - constructor; [unfold plain; lia|]. apply dec_digits_plain. constructor.
Qed.

Lemma join_encodable sep parts :
  encodable sep -> Forall encodable parts -> encodable (join sep parts).
Proof.
  intros Hsep. induction 1 as [|p parts Hp Hparts IH]; [apply encodable_nil|].
  destruct parts as [|q parts]; [exact Hp|].
  change (join sep (p :: q :: parts)) with (p ++ sep ++ join sep (q :: parts)).
  repeat apply encodable_app; assumption.
Qed.

Lemma comma_encodable : encodable [44].
Proof. apply encodable_plain. repeat constructor. Qed.

(** [JSON.stringify] escapes every unpaired surrogate. *)
Lemma JSON_stringify_encodable v : encodable (JSON_stringify v).
Proof.
  induction v as [| b | n | s | items IH | props IH] using json_induction.
  - apply encodable_plain, plain_lit. reflexivity.
  - destruct b; apply encodable_plain, plain_lit; reflexivity.
  - apply encodable_plain, Z_to_string_plain.
  - apply quote_encodable.
  - cbn [JSON_stringify]. apply encodable_cons_plain; [unfold plain; lia|].
    apply encodable_app.
    + apply join_encodable; [apply comma_encodable|].
      induction IH; constructor; assumption.
    + apply encodable_plain. repeat constructor.
  - cbn [JSON_stringify]. apply encodable_cons_plain; [unfold plain; lia|].
    apply encodable_app.
    + apply join_encodable; [apply comma_encodable|].
      induction IH as [|[k x] props Hx _ IHp]; constructor; [|exact IHp].
      cbn [fst snd] in *. apply (encodable_app (quote k)); [apply quote_encodable|].
      apply encodable_cons_plain; [unfold plain; lia | exact Hx].
    + apply encodable_plain. repeat constructor.
Qed.

(** *** The bytes are bytes *)

Lemma utf8_of_code_point_bytes cp : Forall (fun b => b < 256) (utf8_of_code_point cp).
Proof.
  unfold utf8_of_code_point.
  destruct (N.ltb_spec cp 128); [repeat constructor; lia|].
  destruct (N.ltb_spec cp 2048).
  { assert (cp / 64 < 32) by (apply N.Div0.div_lt_upper_bound; lia).
    pose proof (N.mod_lt cp 64). repeat constructor; lia. }
  destruct (N.ltb_spec cp 65536).
  { assert (cp / 4096 < 16) by (apply N.Div0.div_lt_upper_bound; lia).
    pose proof (N.mod_lt cp 64). pose proof (N.mod_lt (cp / 64) 64).
    repeat constructor; lia. }
  pose proof (N.mod_lt cp 64). pose proof (N.mod_lt (cp / 64) 64).
  pose proof (N.mod_lt (cp / 4096) 64). pose proof (N.mod_lt (cp / 262144) 8).
  repeat constructor; lia.
Qed.

Lemma utf8_encode_bytes s :
  forall bytes, utf8_encode None s = Some bytes -> Forall (fun b => b < 256) bytes.
Proof.
  induction s as [|c|c d l IHl IHd] using list_ind2; intros bytes Hs.
  - injection Hs as <-. constructor.
  - cbn [utf8_encode] in Hs.
    destruct (is_high_surrogate c); [discriminate|].
    destruct (is_low_surrogate c); [discriminate|].
    injection Hs as <-. rewrite List.app_nil_r. apply utf8_of_code_point_bytes.
  - rewrite utf8_encode_cons in Hs. cbv beta iota in Hs. destruct (is_high_surrogate c).
    + destruct (is_low_surrogate d); [|discriminate].
      destruct (utf8_encode None l) as [xl|]; [|discriminate].
      injection Hs as <-. apply Forall_app. split; [apply utf8_of_code_point_bytes|].
      now apply IHl.
    + destruct (is_low_surrogate c); [discriminate|].
      destruct (utf8_encode None (d :: l)) as [xd|]; [|discriminate].
      injection Hs as <-. apply Forall_app. split; [apply utf8_of_code_point_bytes|].
      now apply IHd.
Qed.

(** [encodeData] of an encodable text returns a URL-safe string. *)
Lemma encodeData_text jsonString t :
  encodable jsonString ->
  exists bytes body pad,
    utf8_encode None jsonString = Some bytes
    /\ Forall (fun b => b < 256) bytes
    /\ btoa_bytes bytes = body ++ pad
    /\ Forall (fun c => is_b64 c = true) body
    /\ (pad = [] \/ pad = [61] \/ pad = [61; 61])
    /\ (length (body ++ pad) mod 4 = 0)%nat
    /\ Forall (fun c => is_url_safe c = true) (url body)
    /\ (lift (unescape_encodeURIComponent jsonString) : JS (list Op) jsstring) t
       = (t, Ok bytes)
    /\ (lift (btoa bytes) : JS (list Op) jsstring) t = (t, Ok (btoa_bytes bytes))
    /\ strip_trailing 61 (url (btoa_bytes bytes)) = url body.
Proof.
  intros Henc. unfold encodable in Henc.
  destruct (utf8_encode None jsonString) as [bytes|] eqn:Hb; [|contradiction].
  pose proof (utf8_encode_bytes _ _ Hb) as Hbytes.
  destruct (encoded_shape bytes) as (body & pad & Heq & Hbody & Hpad & Hlen & Hstrip & Hsafe).
  exists bytes, body, pad. repeat split; auto.
  - unfold lift, unescape_encodeURIComponent. now rewrite Hb.
  - unfold lift, btoa.
    replace (forallb (fun c => c <? 256) bytes) with true; [reflexivity|].
    symmetry. apply forallb_forall. intros x Hx. apply N.ltb_lt.
    rewrite Forall_forall in Hbytes. apply Hbytes, list_elem_of_In, Hx.
Qed.

End Encodable.

(** ** The token *)

Section Token.
Import DataEncoder ENCODING_CONFIG.

Lemma compressData_run h jsonString t :
  compressData h jsonString t = (t ++ [Call_compressData], Ok (packed_of h jsonString)).
Proof.
  unfold packed_of, compressData, bind, tell, modify, ret. simpl.
  destruct (_ <? _)%nat; [reflexivity|].
  destruct (CompressionStream h); reflexivity.
Qed.

Lemma packed_text_encodable h v :
  encodable (json_text_of (packed_of h (JSON_stringify v))).
Proof.
  unfold packed_of, compressData, bind, tell, modify, ret. simpl.
  destruct (_ <? _)%nat; [apply JSON_stringify_encodable|].
  destruct (CompressionStream h); apply JSON_stringify_encodable.
Qed.

Lemma encodeData_run data t :
  encodable (json_text_of data) ->
  encodeData data t = (t ++ [Call_encodeData], Ok (encoded_text (json_text_of data)))
  /\ Forall (fun c => is_url_safe c = true) (encoded_text (json_text_of data)).
Proof.
  intros Henc.
  destruct (encodeData_text _ (t ++ [Call_encodeData]) Henc)
    as (bytes & body & pad & Hb & _ & _ & _ & _ & _ & Hsafe & Hu & Hbtoa & Hstrip).
  unfold encoded_text. rewrite Hb, Hstrip. split; [|exact Hsafe].
  unfold encodeData.
  change (match data with Text s => s | _ => JSON_stringify (packed_json data) end)
    with (json_text_of data).
  unfold bind at 1. unfold tell, modify.
  unfold bind at 1. rewrite Hu.
  unfold bind at 1. rewrite Hbtoa.
  unfold ret. fold (url (btoa_bytes bytes)). now rewrite Hstrip.
Qed.

(** [encodeFormData] always returns, and what it returns is this. *)
Lemma encodeFormData_run h formControls t :
  encodeFormData h formControls t = (t ++ encode_trace, Ok (token_of h formControls))
  /\ Forall (fun c => is_url_safe c = true) (payload_of h formControls).
Proof.
  destruct (encodeData_run
              (packed_of h (JSON_stringify (snapshot_json h formControls)))
              ((t ++ [Call_JSON_stringify]) ++ [Call_compressData])
              (packed_text_encodable h _)) as [Henc Hsafe].
  split; [|exact Hsafe].
  unfold encodeFormData, try_catch.
  unfold bind at 1. unfold tell at 1, modify.
  unfold bind at 1. rewrite compressData_run.
  unfold bind at 1. rewrite Henc.
  unfold bind at 1.
  destruct (calculateChecksum_shape h
              (encoded_text (json_text_of (packed_of h
                 (JSON_stringify (snapshot_json h formControls)))))
              (((t ++ [Call_JSON_stringify]) ++ [Call_compressData]) ++ [Call_encodeData]))
    as [-> _].
  unfold ret, token_of, payload_of, encode_trace.
  now rewrite <- !List.app_assoc.
Qed.

(** *** Splitting at the separator *)

Lemma split_without sep s : ~ In sep s -> split sep s = [s].
Proof.
  induction s as [|c s IH]; intros Hs; [reflexivity|]. simpl.
  destruct (N.eqb_spec c sep) as [->|_]; [exfalso; apply Hs; now left|].
  rewrite IH; [reflexivity|]. intros Hin. apply Hs. now right.
Qed.

Lemma split_at sep a rest :
  ~ In sep a -> split sep (a ++ sep :: rest) = a :: split sep rest.
Proof.
  induction a as [|c a IH]; intros Ha; simpl.
  - now rewrite N.eqb_refl.
  - destruct (N.eqb_spec c sep) as [->|_]; [exfalso; apply Ha; now left|].
    rewrite IH; [reflexivity|]. intros Hin. apply Ha. now right.
Qed.

Lemma length_split sep s : length (split sep s) = S (count_occ N.eq_dec s sep).
Proof.
  induction s as [|c s IH]; [reflexivity|]. simpl.
  destruct (N.eqb_spec c sep) as [->|Hne].
  - destruct (N.eq_dec sep sep); [|contradiction]. simpl. now rewrite IH.
  - destruct (N.eq_dec c sep); [contradiction|].
    destruct (split sep s) as [|p ps]; [discriminate|]. exact IH.
Qed.

Lemma no_separator_hex s : Forall (fun c => is_hex c = true) s -> ~ In SEPARATOR s.
Proof.
  intros Hs Hin. rewrite Forall_forall in Hs.
  specialize (Hs _ (proj2 (list_elem_of_In _ _) Hin)). discriminate Hs.
Qed.

Lemma no_separator_url_safe s :
  Forall (fun c => is_url_safe c = true) s -> ~ In SEPARATOR s.
Proof.
  intros Hs Hin. rewrite Forall_forall in Hs.
  specialize (Hs _ (proj2 (list_elem_of_In _ _) Hin)). discriminate Hs.
Qed.

Lemma no_separator_version : ~ In SEPARATOR VERSION.
Proof. vm_compute. intuition discriminate. Qed.

Lemma split_three checksum payload :
  ~ In SEPARATOR checksum -> ~ In SEPARATOR payload ->
  split SEPARATOR (VERSION ++ SEPARATOR :: checksum ++ SEPARATOR :: payload)
  = [VERSION; checksum; payload].
Proof.
  intros Hc Hp.
  rewrite (split_at _ VERSION) by apply no_separator_version.
  rewrite (split_at _ checksum) by exact Hc.
  now rewrite split_without.
Qed.

(** *** The three refusals of [decodeFormData] *)

Lemma decode_format h t :
  length (split SEPARATOR t) <> 3%nat ->
  decodeFormData h t [] = ([decode_failed], Throw format_error).
Proof.
  intros Hlen. unfold decodeFormData, try_catch.
  destruct (split SEPARATOR t) as [|a [|b [|c [|d l]]]]; try reflexivity.
  now contradiction Hlen.
Qed.

Lemma decode_version h t version checksum data :
  split SEPARATOR t = [version; checksum; data] ->
  version <> VERSION ->
  decodeFormData h t [] = ([decode_failed], Throw (version_error version)).
Proof.
  intros Hs Hv. unfold decodeFormData, try_catch. rewrite Hs.
  unfold jsstring_eqb. rewrite bool_decide_eq_false_2 by exact Hv. reflexivity.
Qed.

Lemma decode_integrity h t checksum data :
  split SEPARATOR t = [VERSION; checksum; data] ->
  checksum <> checksum_of h data ->
  decodeFormData h t [] = ([Call_calculateChecksum; decode_failed], Throw integrity_error).
Proof.
  intros Hs Hc. unfold decodeFormData, try_catch. rewrite Hs.
  unfold jsstring_eqb at 1. rewrite bool_decide_eq_true_2 by reflexivity.
  cbn [negb]. unfold bind at 1.
  destruct (calculateChecksum_shape h data []) as [-> _].
  unfold jsstring_eqb. rewrite bool_decide_eq_false_2 by exact Hc. reflexivity.
Qed.

End Token.

(** C7 (as amended).  For every host and every list of descriptors
    [encodeFormData] returns a token, made of the version, the separator,
    the checksum, the separator and the payload.  The checksum is computed
    from the payload text alone; it is made of sixteen hexadecimal
    characters when [crypto.subtle] is available and of eight when it is
    not.  The payload is written in the URL-safe base64 alphabet (letters,
    digits, [-] and [_], without padding). *)
Theorem encodeFormData_token_shape :
  forall (h : Host) (formControls : list FormControlData),
    let payload := payload_of h formControls in
    let checksum := checksum_of h payload in
    DataEncoder.encodeFormData h formControls []
    = (encode_trace,
       Ok (ENCODING_CONFIG.VERSION ++ [ENCODING_CONFIG.SEPARATOR] ++ checksum
             ++ [ENCODING_CONFIG.SEPARATOR] ++ payload))
    /\ length checksum = (if crypto_subtle h then 16 else 8)%nat
    /\ Forall (fun c => is_hex c = true) checksum
    /\ Forall (fun c => is_url_safe c = true) payload
    /\ split ENCODING_CONFIG.SEPARATOR
         (ENCODING_CONFIG.VERSION ++ [ENCODING_CONFIG.SEPARATOR] ++ checksum
            ++ [ENCODING_CONFIG.SEPARATOR] ++ payload)
       = [ENCODING_CONFIG.VERSION; checksum; payload].
Proof.
  intros h formControls payload checksum.
  destruct (encodeFormData_run h formControls []) as [Hrun Hsafe].
  destruct (calculateChecksum_shape h payload []) as (_ & Hlen & Hhex).
  repeat split; try assumption.
  apply split_three; [now apply no_separator_hex | now apply no_separator_url_safe].
Qed.

(** C7 (as stated) fails: on a page served over plain http there is no
    [crypto.subtle], and the checksum segment of the token has eight
    characters, not sixteen. *)
Lemma checksum_of_insecure_page_has_eight_characters :
  exists trace token version checksum payload,
    DataEncoder.encodeFormData Samples.insecure_host
      (Samples.captured Samples.small_page) [] = (trace, Ok token)
    /\ split ENCODING_CONFIG.SEPARATOR token = [version; checksum; payload]
    /\ checksum = lit "56c99f64"
    /\ length checksum <> 16%nat.
Proof.
  eexists _, _, _, _, _. split; [vm_compute; reflexivity|].
  split; [vm_compute; reflexivity|]. split; [reflexivity | discriminate].
Qed.

(** ** What the token depends on *)

Section Purity.
Import DataEncoder.

Lemma control_json_snapshot_form c :
  control_json (Capture.snapshot_form c) = control_json c.
Proof. reflexivity. Qed.

Lemma map_control_json cs1 cs2 :
  List.map Capture.snapshot_form cs1 = List.map Capture.snapshot_form cs2 ->
  List.map control_json cs1 = List.map control_json cs2.
Proof.
  intros H.
  assert (E : forall cs, List.map control_json cs
                         = List.map control_json (List.map Capture.snapshot_form cs)).
  { intros cs. rewrite List.map_map. apply List.map_ext. intros c.
    now rewrite control_json_snapshot_form. }
  now rewrite (E cs1), (E cs2), H.
Qed.

Lemma token_of_same h1 h2 cs1 cs2 :
  same_ambient h1 h2 ->
  List.map Capture.snapshot_form cs1 = List.map Capture.snapshot_form cs2 ->
  token_of h1 cs1 = token_of h2 cs2.
Proof.
  intros (Hn & Hh & Ht & Hu & Hs & Hc) Hcs.
  assert (Hj : snapshot_json h1 cs1 = snapshot_json h2 cs2).
  { unfold snapshot_json. now rewrite Hn, Hh, Ht, Hu, (map_control_json cs1 cs2 Hcs). }
  assert (Hp : forall x, packed_of h1 x = packed_of h2 x).
  { intros x. unfold packed_of, compressData, bind, tell, modify. now rewrite Hc. }
  assert (Hk : forall x, checksum_of h1 x = checksum_of h2 x).
  { intros x. unfold checksum_of, calculateChecksum, bind, tell, modify. now rewrite Hs. }
  unfold token_of, payload_of. now rewrite Hj, Hp, Hk.
Qed.

(** Two tokens whose payloads differ are different. *)
Lemma token_differs_at n h1 h2 cs1 cs2 :
  crypto_subtle h1 = crypto_subtle h2 ->
  nth n (payload_of h1 cs1) 0 <> nth n (payload_of h2 cs2) 0 ->
  token_of h1 cs1 <> token_of h2 cs2.
Proof.
  intros Hc Hn H. apply Hn. unfold token_of in H.
  apply List.app_inv_head in H. injection H as H.
  destruct (calculateChecksum_shape h1 (payload_of h1 cs1) []) as (_ & L1 & _).
  destruct (calculateChecksum_shape h2 (payload_of h2 cs2) []) as (_ & L2 & _).
  rewrite <- Hc in L2.
  apply app_inj_1 in H as [_ H]; [|congruence]. injection H as H. now rewrite H.
Qed.

End Purity.

(** C6 (as amended).  The token is a function of the descriptors (of their
    nine serialised properties) and of what [encodeFormData] reads from
    its surroundings when it is called: the clock, the page address and
    title, the user agent, and which of [crypto.subtle] and
    [CompressionStream] the browser offers.  Two calls that agree on all of
    these return the same token, and a call leaves nothing behind but the
    four steps of the codec: nothing is logged or written. *)
Theorem encodeFormData_deterministic :
  forall (h1 h2 : Host) (cs1 cs2 : list FormControlData) (t : list Op),
    same_ambient h1 h2 ->
    List.map Capture.snapshot_form cs1 = List.map Capture.snapshot_form cs2 ->
    DataEncoder.encodeFormData h1 cs1 t = DataEncoder.encodeFormData h2 cs2 t
    /\ fst (DataEncoder.encodeFormData h1 cs1 t) = t ++ encode_trace.
Proof.
  intros h1 h2 cs1 cs2 t Hh Hcs.
  destruct (encodeFormData_run h1 cs1 t) as [-> _].
  destruct (encodeFormData_run h2 cs2 t) as [-> _].
  now rewrite (token_of_same h1 h2 cs1 cs2 Hh Hcs).
Qed.

Lemma encodeFormData_deterministic_witness :
  same_ambient Samples.host Samples.host
  /\ DataEncoder.encodeFormData Samples.host
       (FormControlInspector.inspectAllFormControls (fresh_id Samples.host) Samples.small_page) []
     = DataEncoder.encodeFormData Samples.host (Samples.captured Samples.small_page) [].
Proof.
  split; [repeat split|].
  apply (encodeFormData_deterministic Samples.host Samples.host).
  - repeat split.
  - unfold Samples.captured. rewrite List.map_map. apply List.map_ext. reflexivity.
Defined.

(** C6 (as stated) fails: the token carries [Date.now()], so the same
    descriptors encoded one millisecond later give another token. *)
Lemma encodeFormData_depends_on_the_clock :
  Date_now Samples.later_host = (Date_now Samples.host + 1)%Z
  /\ snd (DataEncoder.encodeFormData Samples.host (Samples.captured Samples.small_page) [])
     <> snd (DataEncoder.encodeFormData Samples.later_host
               (Samples.captured Samples.small_page) []).
Proof.
  split; [reflexivity|].
  rewrite (proj1 (encodeFormData_run Samples.host _ [])),
    (proj1 (encodeFormData_run Samples.later_host _ [])).
  cbn [snd]. intros H.
  assert (K : token_of Samples.host (Samples.captured Samples.small_page)
              = token_of Samples.later_host (Samples.captured Samples.small_page))
    by exact (f_equal (fun r => match r with Ok s => s | Throw _ => [] end) H).
  revert K. apply (token_differs_at 55%nat); [reflexivity|].
  vm_compute. discriminate.
Qed.

(** ** The size of a snapshot *)

Section Size.
Import DataEncoder.

Lemma length_quote_body s : (length s <= length (quote_body s))%nat.
Proof.
  induction s as [|c|c d l IHl IHd] using list_ind2.
  - reflexivity.
  - rewrite quote_body_cons. cbv beta iota.
    repeat match goal with
           | |- context [if ?b then _ else _] => destruct b
           end; simpl; lia.
  - rewrite quote_body_cons. cbv beta iota.
    repeat match goal with
           | |- context [if ?b then _ else _] => destruct b
           end;
      repeat rewrite List.length_app; simpl length in *; lia.
Qed.

Lemma length_join_part sep parts p :
  In p parts -> (length p <= length (join sep parts))%nat.
Proof.
  induction parts as [|q parts IH]; intros Hin; [destruct Hin|].
  destruct parts as [|r parts].
  - destruct Hin as [->|[]]. reflexivity.
  - change (join sep (q :: r :: parts)) with (q ++ sep ++ join sep (r :: parts)).
    rewrite !List.length_app. destruct Hin as [->|Hin]; [lia|].
    specialize (IH Hin). lia.
Qed.

Lemma length_member k v props :
  In (k, v) props -> (length (JSON_stringify v) <= length (JSON_stringify (JObj props)))%nat.
Proof.
  intros Hin. cbn [JSON_stringify]. simpl length. rewrite List.length_app.
  pose proof (length_join_part [44]
                (List.map (fun kv => quote (fst kv) ++ 58 :: JSON_stringify (snd kv)) props)
                (quote k ++ 58 :: JSON_stringify v)) as Hj.
  rewrite List.length_app in Hj. simpl length in Hj.
  assert (In (quote k ++ 58 :: JSON_stringify v)
             (List.map (fun kv => quote (fst kv) ++ 58 :: JSON_stringify (snd kv)) props))
    by (apply in_map_iff; exists (k, v); auto).
  specialize (Hj H). lia.
Qed.

Lemma length_item v items :
  In v items -> (length (JSON_stringify v) <= length (JSON_stringify (JArr items)))%nat.
Proof.
  intros Hin. cbn [JSON_stringify]. simpl length. rewrite List.length_app.
  pose proof (length_join_part [44] (List.map JSON_stringify items) (JSON_stringify v)
                (in_map _ _ _ Hin)). lia.
Qed.

(** A snapshot is longer than the value of any of its controls. *)
Lemma snapshot_longer_than_value h c s rest :
  (length s < length (JSON_stringify
                        (snapshot_json h (Samples.with_value (JStr s) c :: rest))))%nat.
Proof.
  set (ctl := Samples.with_value (JStr s) c).
  assert (H1 : (length s + 2 <= length (JSON_stringify (JStr s)))%nat).
  { cbn [JSON_stringify]. unfold quote. simpl length. rewrite List.length_app.
    pose proof (length_quote_body s). simpl. lia. }
  assert (H2 : (length (JSON_stringify (JStr s))
                <= length (JSON_stringify (control_json ctl)))%nat).
  { apply (length_member (lit "value")). unfold control_json. simpl. tauto. }
  assert (H3 : (length (JSON_stringify (control_json ctl))
                <= length (JSON_stringify (JArr (List.map control_json (ctl :: rest)))))%nat).
  { apply length_item. now left. }
  assert (H4 : (length (JSON_stringify (JArr (List.map control_json (ctl :: rest))))
                <= length (JSON_stringify (snapshot_json h (ctl :: rest))))%nat).
  { apply (length_member (lit "formControls")). unfold snapshot_json. simpl. tauto. }
  lia.
Qed.

End Size.

(** C5.  [encodeFormData] has no gate on the size of what it serialises:
    [MAX_SNAPSHOT_SIZE] is declared and never read.  Whatever the length of
    the serialised snapshot (it exceeds the length of any control value,
    so it can exceed any bound), the call goes on to [compressData], then
    to the text encoding and the checksum, and returns a token. *)
Theorem encodeFormData_has_no_size_gate :
  forall (h : Host) (c : FormControlData) (s : jsstring) (rest : list FormControlData),
    let formControls := Samples.with_value (JStr s) c :: rest in
    (length s < length (JSON_stringify (DataEncoder.snapshot_json h formControls)))%nat
    /\ DataEncoder.encodeFormData h formControls []
       = ([Call_JSON_stringify; Call_compressData; Call_encodeData; Call_calculateChecksum],
          Ok (token_of h formControls)).
Proof.
  intros h c s rest formControls. split.
  - apply snapshot_longer_than_value.
  - apply (encodeFormData_run h formControls []).
Qed.

(** The ceiling on the number of controls is enforced, by [captureForms],
    before anything is encoded. *)
Lemma captureForms_rejects_too_many h document options :
  utils_available h = true ->
  (CONTENT_SCRIPT_CONFIG.MAX_FORM_CONTROLS
   < length (FormControlInspector.inspectAllFormControls (fresh_id h) document))%nat ->
  Capture.captureForms h document options []
  = ([Log_message (lit "error") (lit "Form capture failed");
      Notification (lit "Capture Failed")],
     Throw (Capture.too_many
              (length (FormControlInspector.inspectAllFormControls (fresh_id h) document)))).
Proof.
  intros Hu Hn. unfold Capture.captureForms, try_catch. rewrite Hu. cbn [negb].
  destruct (Nat.eqb_spec
              (length (FormControlInspector.inspectAllFormControls (fresh_id h) document)) 0)
    as [E|_]; [rewrite E in Hn; inversion Hn|].
  apply Nat.ltb_lt in Hn. rewrite Hn. reflexivity.
Qed.

(** ** Tampering with the payload *)

Section Tamper.
Import DataEncoder ENCODING_CONFIG.

Lemma count_occ_replace_at_separator i s :
  (1 <= count_occ N.eq_dec (replace_at i SEPARATOR s) SEPARATOR)%nat.
Proof.
  unfold replace_at. rewrite count_occ_app. simpl.
  destruct (N.eq_dec SEPARATOR SEPARATOR); [lia | contradiction].
Qed.

Lemma in_firstn {A} (x : A) n l : In x (firstn n l) -> In x l.
Proof.
  intros H. rewrite <- (List.firstn_skipn n l). apply in_or_app. now left.
Qed.

Lemma in_skipn {A} (x : A) n l : In x (skipn n l) -> In x l.
Proof.
  intros H. rewrite <- (List.firstn_skipn n l). apply in_or_app. now right.
Qed.

Lemma not_in_replace_at i c s :
  c <> SEPARATOR -> ~ In SEPARATOR s -> ~ In SEPARATOR (replace_at i c s).
Proof.
  intros Hc Hs Hin. unfold replace_at in Hin.
  apply in_app_or in Hin. destruct Hin as [Hin | [Hin | Hin]].
  - apply Hs. eapply in_firstn. exact Hin.
  - now apply Hc.
  - apply Hs. eapply in_skipn. exact Hin.
Qed.

Lemma tampered_with_separator h checksum payload i :
  decodeFormData h
    (VERSION ++ [SEPARATOR] ++ checksum ++ [SEPARATOR] ++ replace_at i SEPARATOR payload) []
  = ([decode_failed], Throw format_error).
Proof.
  apply decode_format. rewrite length_split, !count_occ_app. simpl.
  pose proof (count_occ_replace_at_separator i payload).
  destruct (N.eq_dec SEPARATOR SEPARATOR); [lia | contradiction].
Qed.

(** The token as the text it is. *)
Lemma token_text h checksum payload :
  decodeFormData h (lit "1.0|" ++ checksum ++ [124] ++ payload) []
  = decodeFormData h (VERSION ++ [SEPARATOR] ++ checksum ++ [SEPARATOR] ++ payload) [].
Proof. reflexivity. Qed.

Lemma token_of_text h formControls :
  token_of h formControls
  = lit "1.0|" ++ checksum_of h (payload_of h formControls)
      ++ [124] ++ payload_of h formControls.
Proof. reflexivity. Qed.

End Tamper.

(** The refusals of [decodeFormData].  It fails with the format error
    when the text does not split into exactly three parts at the
    separator; with the version error when the first of three parts is
    not the supported version, whatever the other two; and with the
    integrity error when the checksum recomputed from the third part
    differs from the second, in which case the only step taken is the
    checksum: the payload is not text-decoded, decompressed or parsed.
    A token in which one character of the payload is replaced by the
    separator has four parts and is refused with the format error. *)
Theorem decodeFormData_refusals :
  forall h : Host,
    (forall t,
        length (split ENCODING_CONFIG.SEPARATOR t) <> 3%nat ->
        DataEncoder.decodeFormData h t [] = ([decode_failed], Throw format_error))
    /\ (forall t version checksum data,
          split ENCODING_CONFIG.SEPARATOR t = [version; checksum; data] ->
          version <> ENCODING_CONFIG.VERSION ->
          DataEncoder.decodeFormData h t []
          = ([decode_failed], Throw (version_error version)))
    /\ (forall t checksum data,
          split ENCODING_CONFIG.SEPARATOR t = [ENCODING_CONFIG.VERSION; checksum; data] ->
          checksum <> checksum_of h data ->
          DataEncoder.decodeFormData h t []
          = ([Call_calculateChecksum; decode_failed], Throw integrity_error))
    /\ (forall formControls i,
          let payload := payload_of h formControls in
          let checksum := checksum_of h payload in
          let tampered :=
            ENCODING_CONFIG.VERSION ++ [ENCODING_CONFIG.SEPARATOR] ++ checksum
              ++ [ENCODING_CONFIG.SEPARATOR]
              ++ replace_at i ENCODING_CONFIG.SEPARATOR payload in
          (i < length payload)%nat ->
          DataEncoder.decodeFormData h tampered [] = ([decode_failed], Throw format_error)).
Proof.
  intros h. split; [intros t; apply decode_format|].
  split; [intros t version checksum data; apply decode_version|].
  split; [intros t checksum data; apply decode_integrity|].
  intros formControls i payload checksum tampered Hi.
  apply tampered_with_separator.
Qed.

Lemma decodeFormData_refusals_witness :
  let h := Samples.host in
  let formControls := Samples.captured Samples.small_page in
  let payload := payload_of h formControls in
  let checksum := checksum_of h payload in
  DataEncoder.decodeFormData h (lit "not a token") [] = ([decode_failed], Throw format_error)
  /\ DataEncoder.decodeFormData h (lit "2.0|0123456789abcdef|e30") []
     = ([decode_failed], Throw (version_error (lit "2.0")))
  /\ DataEncoder.decodeFormData h (lit "1.0|0123456789abcdef|e30") []
     = ([Call_calculateChecksum; decode_failed], Throw integrity_error)
  /\ nth 0 payload 0 = 101
  /\ DataEncoder.decodeFormData h
       (lit "1.0|" ++ checksum ++ [124] ++ replace_at 0 124 payload) []
     = ([decode_failed], Throw format_error).
Proof.
  intros h formControls payload checksum.
  destruct (decodeFormData_refusals h) as (Hformat & Hversion & Hintegrity & Hflip).
  split; [apply Hformat; vm_compute; discriminate|].
  split; [apply (Hversion _ (lit "2.0") (lit "0123456789abcdef") (lit "e30"));
          [reflexivity | discriminate]|].
  split; [apply (Hintegrity _ (lit "0123456789abcdef") (lit "e30"));
          [reflexivity | vm_compute; discriminate]|].
  split; [vm_compute; reflexivity|].
  rewrite (token_text h checksum (replace_at 0 124 payload)).
  apply (Hflip formControls 0%nat). vm_compute. lia.
Defined.

(** Replacing a character of the payload by the separator makes a
    fourth part, and decoding fails with the format error, not with the
    integrity error. *)
Lemma separator_in_payload_is_a_format_error :
  let h := Samples.host in
  let formControls := Samples.captured Samples.small_page in
  let payload := payload_of h formControls in
  exists token,
    snd (DataEncoder.encodeFormData h formControls []) = Ok token
    /\ token = lit "1.0|" ++ checksum_of h payload ++ [124] ++ payload
    /\ nth 0 payload 0 <> 124
    /\ snd (DataEncoder.decodeFormData h
              (lit "1.0|" ++ checksum_of h payload ++ [124] ++ replace_at 0 124 payload) [])
       = Throw format_error
    /\ format_error <> integrity_error.
Proof.
  intros h formControls payload. exists (token_of h formControls).
  split; [now rewrite (proj1 (encodeFormData_run h formControls []))|].
  split; [exact (token_of_text h formControls)|].
  split; [vm_compute; discriminate|].
  split; [|discriminate].
  rewrite (token_text h (checksum_of h payload) (replace_at 0 124 payload)).
  exact (f_equal snd (tampered_with_separator h (checksum_of h payload) payload 0)).
Qed.

(** C2.  The three refusals are in place ([decodeFormData_refusals]), but
    one replaced character is not always caught.  On a page without
    [crypto.subtle] the checksum is the 32-bit fallback hash, printed
    through [Math.abs]: two payloads whose hashes are opposite numbers
    have the same checksum.  In the token of the two-control snapshot
    taken at 1700000010212 on the plain-http page, replacing the [t] at
    position 467 of the payload by [l], a character of the same alphabet,
    leaves the checksum at [6a528904]; [decodeFormData] passes the three
    checks, decodes and parses the altered payload, and returns a value
    that is not the snapshot: the validator [maxLength:-1] of the first
    control has become [eaxLength:-1].  The caller gets a misread
    snapshot and no integrity error. *)
Theorem tampered_payload_passes_the_fallback_checksum :
  let h := Samples.insecure_later_host in
  let formControls := Samples.captured Samples.small_page in
  let payload := payload_of h formControls in
  let checksum := checksum_of h payload in
  let tampered := replace_at 467 108 payload in
  crypto_subtle h = false
  /\ DataEncoder.encodeFormData h formControls []
     = (encode_trace, Ok (lit "1.0|" ++ checksum ++ [124] ++ payload))
  /\ DataEncoder.decodeFormData h (lit "1.0|" ++ checksum ++ [124] ++ payload) []
     = (decode_trace, Ok (DataEncoder.snapshot_json h formControls))
  /\ (467 < length payload)%nat
  /\ nth 467 payload 0 = 116
  /\ is_url_safe 108 = true
  /\ DataEncoder.fallback_hash tampered = (- DataEncoder.fallback_hash payload)%Z
  /\ checksum = lit "6a528904"
  /\ checksum_of h tampered = checksum
  /\ exists decoded,
       DataEncoder.decodeFormData h (lit "1.0|" ++ checksum ++ [124] ++ tampered) []
       = (decode_trace, Ok decoded)
       /\ nth 350 (JSON_stringify (DataEncoder.snapshot_json h formControls)) 0 = 109
       /\ nth 350 (JSON_stringify decoded) 0 = 101
       /\ decoded <> DataEncoder.snapshot_json h formControls.
Proof.
  intros h formControls payload checksum tampered.
  split; [reflexivity|].
  split; [vm_compute; reflexivity|].
  split; [vm_compute; reflexivity|].
  split; [vm_compute; lia|].
  split; [vm_compute; reflexivity|].
  split; [reflexivity|].
  split; [vm_compute; reflexivity|].
  split; [vm_compute; reflexivity|].
  split; [vm_compute; reflexivity|].
  eexists. split; [vm_compute; reflexivity|].
  split; [vm_compute; reflexivity|].
  split; [vm_compute; reflexivity|].
  intros E. apply (f_equal (fun v => nth 350 (JSON_stringify v) 0)) in E.
  revert E. vm_compute. discriminate.
Qed.


(** ** Selects *)

Section Select.
Import AngularFormSnapshotContent.

Lemma index_of_found {A} (p : A -> bool) l :
  forall i x, List.find p l = Some x ->
    exists n, index_of p l i = (i + Z.of_nat n)%Z
              /\ nth_error l n = Some x /\ p x = true
              /\ forall m y, (m < n)%nat -> nth_error l m = Some y -> p y = false.
Proof.
  induction l as [|a l IH]; intros i x Hf; [discriminate|]. simpl in Hf |- *.
  destruct (p a) eqn:Hp.
  - injection Hf as <-. exists 0%nat. repeat split; auto; [lia|]. intros m y Hm. lia.
  - destruct (IH (i + 1)%Z x Hf) as (n & Hi & Hn & Hx & Hfirst).
    exists (S n). repeat split; auto; [lia|].
    intros [|m] y Hm Hy; simpl in Hy; [now injection Hy as <-|].
    apply (Hfirst m); [lia | exact Hy].
Qed.

(** [restoreSelectValue] on its own: it selects the first option whose
    value or text is the snapshot value, and throws when there is none. *)
Lemma restoreSelectValue_selects e s pg :
  let matches := fun o => jsstring_eqb (opt_value o) s || jsstring_eqb (opt_textContent o) s in
  match List.find matches (el_options e) with
  | Some o =>
      exists n,
        restoreSelectValue e (JStr s) pg
        = ({| page_dom := update_element (el_node e) (set_selectedIndex (Z.of_nat n))
                            (page_dom pg);
              page_events := page_events pg |}, Ok tt)
        /\ nth_error (el_options e) n = Some o
        /\ (opt_value o = s \/ opt_textContent o = s)
        /\ forall m y, (m < n)%nat -> nth_error (el_options e) m = Some y ->
                       opt_value y <> s /\ opt_textContent y <> s
  | None =>
      restoreSelectValue e (JStr s) pg = (pg, Throw (lit "Option not found: " ++ s))
  end.
Proof.
  intros matches. unfold restoreSelectValue. fold matches.
  destruct (List.find matches (el_options e)) as [o|] eqn:Hf; [|reflexivity].
  destruct (index_of_found matches (el_options e) 0%Z o Hf) as (n & Hi & Hn & Ho & Hfirst).
  exists n. rewrite Hi. simpl. repeat split; auto.
  - unfold matches, jsstring_eqb in Ho. apply orb_true_iff in Ho.
    destruct Ho as [Ho|Ho]; apply bool_decide_eq_true in Ho; auto.
  - specialize (Hfirst m y H H0). unfold matches, jsstring_eqb in Hfirst.
    apply orb_false_iff in Hfirst. destruct Hfirst as [Hv _].
    now apply bool_decide_eq_false in Hv.
  - specialize (Hfirst m y H H0). unfold matches, jsstring_eqb in Hfirst.
    apply orb_false_iff in Hfirst. destruct Hfirst as [_ Ht].
    now apply bool_decide_eq_false in Ht.
Qed.

End Select.

(** C8.  [restoreSelectValue] selects the option whose value or text is the
    snapshot value, and a select with no such option leaves one error
    entry while the run goes on.  But [restoreControlValue] then calls
    [triggerChangeEvent], which assigns the snapshot value to the [value]
    property of the select: an option that was chosen by its text, and
    whose value is different, is deselected again.  On a select whose only
    option is [<option value="1">One</option>], restoring the snapshot
    value "One" is counted as restored and leaves no option selected;
    restoring "1" leaves the option selected; restoring "Two" leaves the
    error "Option not found: Two". *)
Theorem restore_select_by_label_loses_the_selection :
  let pg := {| page_dom := Samples.select_page; page_events := [] |} in
  let restore value :=
    AngularFormSnapshotContent.restoreForms (fresh_id Samples.host)
      (Some (Samples.snapshot_of Samples.host
               (List.map (Samples.with_value value) (Samples.captured Samples.select_page))))
      pg in
  let selected (r : Page * result RestoreReport) :=
    option_map el_selectedIndex (find_element 3 (page_dom (fst r))) in
  let counts (r : Page * result RestoreReport) :=
    match snd r with
    | Ok report => Some (restoredCount report, skippedCount report, errors report)
    | Throw _ => None
    end in
  option_map el_selectedIndex
    (find_element 3
       (page_dom (fst (AngularFormSnapshotContent.restoreSelectValue Samples.one_option
                         (JStr (lit "One")) pg))))
  = Some 0%Z
  /\ selected (restore (JStr (lit "One"))) = Some (-1)%Z
  /\ counts (restore (JStr (lit "One"))) = Some (1%nat, 0%nat, [])
  /\ selected (restore (JStr (lit "1"))) = Some 0%Z
  /\ counts (restore (JStr (lit "1"))) = Some (1%nat, 0%nat, [])
  /\ counts (restore (JStr (lit "Two")))
     = Some (0%nat, 0%nat, [{| err_control := lit "size";
                              err_error := lit "Option not found: Two" |}]).
Proof.
  repeat split; vm_compute; reflexivity.
Qed.

(** ** Reading back what was written *)

Section Base64.
Import DataEncoder.

Lemma b64_value_char i : i < 64 -> b64_value (b64_char i) = Some i.
Proof.
  intros Hi. unfold b64_char, b64_value.
  destruct (N.ltb_spec i 26).
  { replace ((65 <=? 65 + i) && (65 + i <=? 90)) with true; [f_equal; lia|].
    symmetry. rewrite andb_true_iff, !N.leb_le. lia. }
  destruct (N.ltb_spec i 52).
  { replace ((65 <=? 71 + i) && (71 + i <=? 90)) with false
      by (symmetry; rewrite andb_false_iff, !N.leb_gt; lia).
    replace ((97 <=? 71 + i) && (71 + i <=? 122)) with true; [f_equal; lia|].
    symmetry. rewrite andb_true_iff, !N.leb_le. lia. }
  destruct (N.ltb_spec i 62).
  { replace ((65 <=? i - 4) && (i - 4 <=? 90)) with false
      by (symmetry; rewrite andb_false_iff, !N.leb_gt; lia).
    replace ((97 <=? i - 4) && (i - 4 <=? 122)) with false
      by (symmetry; rewrite andb_false_iff, !N.leb_gt; lia).
    replace ((48 <=? i - 4) && (i - 4 <=? 57)) with true; [f_equal; lia|].
    symmetry. rewrite andb_true_iff, !N.leb_le. lia. }
  destruct (N.eqb_spec i 62) as [->|]; [reflexivity|].
  assert (i = 63) as -> by lia. reflexivity.
Qed.

Lemma div_mod_add q r d : r < d -> (q * d + r) / d = q /\ (q * d + r) mod d = r.
Proof.
  intros Hr. split.
  - symmetry. apply (N.div_unique _ d q r); lia.
  - symmetry. apply (N.mod_unique _ d q r); lia.
Qed.

Lemma sextet_bounds a b c :
  a < 256 -> b < 256 -> c < 256 ->
  a / 4 < 64 /\ (a mod 4) * 16 + b / 16 < 64 /\ (b mod 16) * 4 + c / 64 < 64 /\ c mod 64 < 64
  /\ (a mod 4) * 16 < 64 /\ (b mod 16) * 4 < 64.
Proof.
  intros Ha Hb Hc.
  assert (a / 4 < 64) by (apply N.Div0.div_lt_upper_bound; lia).
  assert (b / 16 < 16) by (apply N.Div0.div_lt_upper_bound; lia).
  assert (c / 64 < 4) by (apply N.Div0.div_lt_upper_bound; lia).
  pose proof (N.mod_lt a 4). pose proof (N.mod_lt b 16). pose proof (N.mod_lt c 64).
  lia.
Qed.

Lemma sextets_bytes a b c :
  a < 256 -> b < 256 -> c < 256 ->
  a / 4 * 4 + ((a mod 4) * 16 + b / 16) / 16 = a
  /\ (((a mod 4) * 16 + b / 16) mod 16) * 16 + ((b mod 16) * 4 + c / 64) / 4 = b
  /\ (((b mod 16) * 4 + c / 64) mod 4) * 64 + c mod 64 = c.
Proof.
  intros Ha Hb Hc.
  assert (Hs : b / 16 < 16) by (apply N.Div0.div_lt_upper_bound; lia).
  assert (Hu : c / 64 < 4) by (apply N.Div0.div_lt_upper_bound; lia).
  destruct (div_mod_add (a mod 4) (b / 16) 16 Hs) as [-> ->].
  destruct (div_mod_add (b mod 16) (c / 64) 4 Hu) as [-> ->].
  pose proof (N.div_mod a 4). pose proof (N.div_mod b 16). pose proof (N.div_mod c 64).
  lia.
Qed.

Lemma sextets_bytes_2 a b :
  a < 256 -> b < 256 ->
  a / 4 * 4 + ((a mod 4) * 16 + b / 16) / 16 = a
  /\ (((a mod 4) * 16 + b / 16) mod 16) * 16 + ((b mod 16) * 4) / 4 = b.
Proof.
  intros Ha Hb.
  destruct (sextets_bytes a b 0 Ha Hb) as (E1 & E2 & _); [lia|].
  change (0 / 64) with 0 in E2. rewrite N.add_0_r in E2. now split.
Qed.

Lemma sextets_bytes_1 a :
  a < 256 -> a / 4 * 4 + ((a mod 4) * 16) / 16 = a.
Proof.
  intros Ha.
  destruct (sextets_bytes a 0 0 Ha) as (E1 & _); [lia..|].
  change (0 / 16) with 0 in E1. now rewrite N.add_0_r in E1.
Qed.

(** What [btoa] writes, [atob] reads back: the sextets of the body are
    those of the bytes. *)
Lemma btoa_bytes_sextets l :
  Forall (fun b => b < 256) l ->
  exists body pad vs,
    btoa_bytes l = body ++ pad
    /\ Forall (fun c => is_b64 c = true) body
    /\ (pad = [] /\ (length body mod 4 = 0)%nat
        \/ pad = [61] /\ (length body mod 4 = 3)%nat
        \/ pad = [61; 61] /\ (length body mod 4 = 2)%nat)
    /\ sextets body = Some vs
    /\ bytes_of_sextets vs = l.
Proof.
  induction l as [|a|a b|a b c l IH] using list_ind3; intros Hl.
  - exists [], [], []. repeat split; auto.
  - inversion_clear Hl as [|? ? Ha _].
    destruct (sextet_bounds a 0 0 Ha) as (H0 & _ & _ & _ & H1 & _); [lia..|].
    exists [b64_char (a / 4); b64_char ((a mod 4) * 16)], [61; 61],
      [a / 4; (a mod 4) * 16].
    split; [reflexivity|].
    split; [repeat constructor; apply b64_char_is_b64|].
    split; [right; right; split; reflexivity|]. split.
    + cbn [sextets]. now rewrite !b64_value_char.
    + cbn [bytes_of_sextets]. now rewrite sextets_bytes_1.
  - inversion_clear Hl as [|? ? Ha Hl']. inversion_clear Hl' as [|? ? Hb _].
    destruct (sextet_bounds a b 0 Ha Hb) as (H0 & H1 & _ & _ & _ & H2); [lia|].
    exists [b64_char (a / 4); b64_char ((a mod 4) * 16 + b / 16); b64_char ((b mod 16) * 4)],
      [61], [a / 4; (a mod 4) * 16 + b / 16; (b mod 16) * 4].
    split; [reflexivity|].
    split; [repeat constructor; apply b64_char_is_b64|].
    split; [right; left; split; reflexivity|]. split.
    + cbn [sextets]. now rewrite !b64_value_char.
    + cbn [bytes_of_sextets]. destruct (sextets_bytes_2 a b Ha Hb) as [-> ->]. reflexivity.
  - inversion_clear Hl as [|? ? Ha Hl']. inversion_clear Hl' as [|? ? Hb Hl''].
    inversion_clear Hl'' as [|? ? Hc Hl].
    destruct (IH Hl) as (body & pad & vs & Heq & Hb64 & Hpad & Hs & Hv).
    destruct (sextet_bounds a b c Ha Hb Hc) as (H0 & H1 & H2 & H3 & _ & _).
    exists (b64_char (a / 4) :: b64_char ((a mod 4) * 16 + b / 16)
              :: b64_char ((b mod 16) * 4 + c / 64) :: b64_char (c mod 64) :: body), pad,
      (a / 4 :: (a mod 4) * 16 + b / 16 :: (b mod 16) * 4 + c / 64 :: c mod 64 :: vs).
    split; [simpl; now rewrite Heq|].
    split; [repeat (constructor; [apply b64_char_is_b64|]); exact Hb64|].
    split.
    { simpl length.
      replace (S (S (S (S (length body))))) with (length body + 1 * 4)%nat by lia.
      now rewrite Nat.Div0.mod_add. }
    split.
    + cbn [sextets]. now rewrite !b64_value_char, Hs.
    + cbn [bytes_of_sextets]. destruct (sextets_bytes a b c Ha Hb Hc) as (-> & -> & ->).
      now rewrite Hv.
Qed.

Lemma is_b64_not c : is_b64 c = true -> c <> 61 /\ is_ascii_whitespace c = false.
Proof.
  intros Hc. destruct (is_b64_cases c Hc) as [Ha | [-> | ->]]; [|split; [lia|reflexivity]..].
  unfold is_alnum, is_digit in Ha.
  rewrite !orb_true_iff, !andb_true_iff, !N.leb_le in Ha.
  split; [lia|]. unfold is_ascii_whitespace. cbn [existsb].
  rewrite !orb_false_iff, !N.eqb_neq. lia.
Qed.

Lemma filter_b64 body pad :
  Forall (fun c => is_b64 c = true) body ->
  pad = [] \/ pad = [61] \/ pad = [61; 61] ->
  List.filter (fun c => negb (is_ascii_whitespace c)) (body ++ pad) = body ++ pad.
Proof.
  intros Hb Hp. rewrite List.filter_app. f_equal.
  - induction Hb as [|c body Hc _ IH]; [reflexivity|]. simpl.
    destruct (is_b64_not c Hc) as [_ ->]. simpl. now rewrite IH.
  - destruct Hp as [-> | [-> | ->]]; reflexivity.
Qed.

Lemma strip_padding_body body pad :
  Forall (fun c => is_b64 c = true) body ->
  pad = [] \/ pad = [61] \/ pad = [61; 61] ->
  strip_padding (body ++ pad) = body.
Proof.
  intros Hb Hp. unfold strip_padding. rewrite List.rev_app_distr.
  assert (Hrev : match rev body with x :: _ => x <> 61 | [] => True end).
  { destruct (rev body) as [|x r] eqn:Hr; [exact I|].
    assert (Hx : In x body) by (apply in_rev; rewrite Hr; now left).
    rewrite Forall_forall in Hb. apply list_elem_of_In in Hx.
    now destruct (is_b64_not x (Hb x Hx)). }
  destruct Hp as [-> | [-> | ->]]; simpl.
  - rewrite List.app_nil_r.
    destruct (rev body) as [|x r] eqn:Hr.
    + now rewrite <- (List.rev_involutive body), Hr.
    + destruct x as [|p]; [reflexivity|].
      destruct (N.eq_dec (N.pos p) 61) as [E|_]; [contradiction|].
      repeat (destruct p as [p|p|]; try reflexivity); contradiction.
  - destruct (rev body) as [|x r] eqn:Hr.
    + now rewrite <- (List.rev_involutive body), Hr.
    + rewrite <- (List.rev_involutive body), Hr.
      destruct x as [|p]; [reflexivity|].
      repeat (destruct p as [p|p|]; try reflexivity); contradiction.
  - apply List.rev_involutive.
Qed.

(** [atob] undoes [btoa]. *)
Lemma atob_btoa l :
  Forall (fun b => b < 256) l -> atob (btoa_bytes l) = Ok l.
Proof.
  intros Hl.
  destruct (btoa_bytes_sextets l Hl) as (body & pad & vs & Heq & Hb & Hp & Hs & Hv).
  assert (Hp' : pad = [] \/ pad = [61] \/ pad = [61; 61]) by tauto.
  assert (Hlen : (length (body ++ pad) mod 4 = 0)%nat).
  { rewrite List.length_app.
    destruct Hp as [[-> H] | [[-> H] | [-> H]]]; simpl length;
      rewrite Nat.Div0.add_mod, H; reflexivity. }
  assert (Hne : (length body mod 4 <> 1)%nat)
    by (destruct Hp as [[_ H] | [[_ H] | [_ H]]]; lia).
  unfold atob. rewrite Heq, (filter_b64 body pad Hb Hp'), Hlen. cbn [Nat.eqb].
  rewrite (strip_padding_body body pad Hb Hp').
  apply Nat.eqb_neq in Hne. now rewrite Hne, Hs, Hv.
Qed.

(** [decodeData] undoes the base64 step of [encodeData]: from the text
    [encodeData] wrote for the bytes, it reads the bytes. *)
Lemma decodeData_bytes l t :
  Forall (fun b => b < 256) l ->
  decodeData (strip_trailing 61 (url (btoa_bytes l))) t
  = (t ++ [Call_decodeData], decodeURIComponent_escape l).
Proof.
  intros Hl.
  destruct (btoa_bytes_sextets l Hl) as (body & pad & vs & Heq & Hb & Hp & Hs & Hv).
  assert (Hp' : pad = [] \/ pad = [61] \/ pad = [61; 61]) by tauto.
  assert (Hstrip : strip_trailing 61 (url (btoa_bytes l)) = url body).
  { rewrite Heq, url_app.
    replace (url pad) with pad by (destruct Hp' as [-> | [-> | ->]]; reflexivity).
    apply strip_trailing_body; [apply url_body, Hb | exact Hp']. }
  rewrite Hstrip. unfold decodeData, bind, tell, modify, lift. cbv beta iota.
  fold (unurl (url body)). rewrite (proj2 (url_body body Hb)).
  replace (repeat 61 ((4 - length body mod 4) mod 4)%nat) with pad.
  - rewrite <- Heq, (atob_btoa l Hl). reflexivity.
  - destruct Hp as [[-> H] | [[-> H] | [-> H]]]; rewrite H; reflexivity.
Qed.

End Base64.

Section Decoding.
Import DataEncoder ENCODING_CONFIG.

Lemma decodeData_encoded_text jsonString s t :
  decoded_text jsonString = Some s ->
  decodeData (encoded_text jsonString) t = (t ++ [Call_decodeData], Ok s).
Proof.
  unfold decoded_text, encoded_text. intros Hs.
  destruct (utf8_encode None jsonString) as [bytes|] eqn:Hb; [|discriminate].
  rewrite (decodeData_bytes bytes t (utf8_encode_bytes _ _ Hb)).
  unfold decodeURIComponent_escape. now rewrite Hs.
Qed.

Lemma split_token h formControls :
  split SEPARATOR (token_of h formControls)
  = [VERSION; checksum_of h (payload_of h formControls); payload_of h formControls].
Proof.
  destruct (encodeFormData_run h formControls []) as [_ Hsafe].
  destruct (calculateChecksum_shape h (payload_of h formControls) []) as (_ & _ & Hhex).
  apply split_three; [now apply no_separator_hex | now apply no_separator_url_safe].
Qed.

(** A token of [encodeFormData] passes the three checks of
    [decodeFormData], which then parses the text that [encodeData]
    serialised. *)
Lemma decodeFormData_token h formControls s :
  decoded_text (json_text_of (packed_of h (JSON_stringify (snapshot_json h formControls))))
  = Some s ->
  decodeFormData h (token_of h formControls) []
  = match JSONParse.parse s with
    | Ok v => (decode_trace, Ok v)
    | Throw e => (decode_trace ++ [decode_failed], Throw (lit "Data decoding failed: " ++ e))
    end.
Proof.
  intros Hs. unfold decodeFormData, try_catch. rewrite split_token.
  unfold jsstring_eqb at 1. rewrite bool_decide_eq_true_2 by reflexivity.
  cbn [negb]. unfold bind at 1.
  destruct (calculateChecksum_shape h (payload_of h formControls) []) as [-> _].
  unfold jsstring_eqb. rewrite bool_decide_eq_true_2 by reflexivity.
  cbn [negb]. unfold bind at 1. unfold payload_of at 1.
  rewrite (decodeData_encoded_text _ s _ Hs).
  unfold decompressData, bind, tell, modify, ret, lift, throw. cbv beta iota.
  destruct (JSONParse.parse s); reflexivity.
Qed.

End Decoding.

(** ** Round trip *)

(** [decodeFormData] hands [decompressData] the text that [decodeData]
    returned, and [decompressData] returns a text as it is: whether the
    browser has a [DecompressionStream], and which, makes no difference. *)
Lemma decodeFormData_never_decompresses h d t trace :
  DataEncoder.decodeFormData (with_DecompressionStream d h) t trace
  = DataEncoder.decodeFormData h t trace.
Proof. reflexivity. Qed.

(** C1.  Below the compression threshold the round trip holds on the
    scenario of the specification (a text input and a checked checkbox):
    decoding the token gives back the serialised snapshot, field for field
    and in order.  At and above the threshold it is lost.  A snapshot of
    five text inputs serialises to more than 1024 characters, so
    [compressData] packs it and [encodeData] writes the JSON text of the
    pack; [decodeFormData] decodes that text, passes it as a string
    through [decompressData], which returns strings unchanged, and parses
    it: the caller gets the pack (here the object with the properties
    [dictionary] and [data]), not the snapshot. *)
Theorem round_trip_lost_above_threshold :
  let h := Samples.host in
  let small := Samples.captured Samples.small_page in
  let large := Samples.captured (Samples.five_fields false) in
  (length (JSON_stringify (DataEncoder.snapshot_json h small))
     < ENCODING_CONFIG.COMPRESSION_THRESHOLD)%nat
  /\ DataEncoder.decodeFormData h (token_of h small) []
     = (decode_trace, Ok (DataEncoder.snapshot_json h small))
  /\ (ENCODING_CONFIG.COMPRESSION_THRESHOLD
        <= length (JSON_stringify (DataEncoder.snapshot_json h large)))%nat
  /\ DataEncoder.encodeFormData h large [] = (encode_trace, Ok (token_of h large))
  /\ exists decoded,
       DataEncoder.decodeFormData h (token_of h large) [] = (decode_trace, Ok decoded)
       /\ keys_of decoded = [lit "dictionary"; lit "data"]
       /\ keys_of (DataEncoder.snapshot_json h large)
          = [lit "version"; lit "timestamp"; lit "url"; lit "title"; lit "userAgent";
             lit "formControls"]
       /\ decoded <> DataEncoder.snapshot_json h large.
Proof.
  intros h small large.
  split; [vm_compute; lia|].
  split.
  { rewrite (decodeFormData_token h small
               (json_text_of (packed_of h (JSON_stringify (DataEncoder.snapshot_json h small)))))
      by (vm_compute; reflexivity).
    replace (JSONParse.parse _) with (Ok (DataEncoder.snapshot_json h small)) at 1;
      [reflexivity|]. vm_compute. reflexivity. }
  split; [vm_compute; lia|].
  split; [apply encodeFormData_run|].
  rewrite (decodeFormData_token h large
             (json_text_of (packed_of h (JSON_stringify (DataEncoder.snapshot_json h large)))))
    by (vm_compute; reflexivity).
  destruct (JSONParse.parse _) as [decoded|e] eqn:Hd.
  - exists decoded. split; [reflexivity|].
    assert (K : keys_of decoded = [lit "dictionary"; lit "data"]).
    { apply (f_equal (fun r => match r with Ok v => keys_of v | Throw _ => [] end)) in Hd.
      cbv beta iota in Hd. rewrite <- Hd. vm_compute. reflexivity. }
    split; [exact K|]. split; [reflexivity|].
    intros E. rewrite E in K. discriminate K.
  - exfalso. apply (f_equal (fun r => match r with Ok _ => true | Throw _ => false end)) in Hd.
    cbv beta iota in Hd. revert Hd. vm_compute. discriminate.
Qed.

(** ** Strict UTF-8 *)

Section Utf8.

Lemma utf8_decode_cons b0 rest :
  utf8_decode (b0 :: rest)
  = if b0 <? 128 then option_map (cons b0) (utf8_decode rest)
    else if b0 <? 192 then None
    else if b0 <? 224 then
      match rest with
      | b1 :: rest' =>
          let cp := (b0 - 192) * 64 + (b1 - 128) in
          if is_continuation b1 && (128 <=? cp)
          then option_map (cons cp) (utf8_decode rest')
          else None
      | _ => None
      end
    else if b0 <? 240 then
      match rest with
      | b1 :: b2 :: rest' =>
          let cp := (b0 - 224) * 4096 + (b1 - 128) * 64 + (b2 - 128) in
          if is_continuation b1 && is_continuation b2 && (2048 <=? cp)
             && negb ((55296 <=? cp) && (cp <=? 57343))
          then option_map (cons cp) (utf8_decode rest')
          else None
      | _ => None
      end
    else if b0 <? 248 then
      match rest with
      | b1 :: b2 :: b3 :: rest' =>
          let cp := (b0 - 240) * 262144 + (b1 - 128) * 4096
                    + (b2 - 128) * 64 + (b3 - 128) in
          if is_continuation b1 && is_continuation b2 && is_continuation b3
             && (65536 <=? cp) && (cp <=? 1114111)
          then option_map (app (utf16_of_code_point cp)) (utf8_decode rest')
          else None
      | _ => None
      end
    else None.
Proof. reflexivity. Qed.

Lemma is_continuation_tail x : x < 64 -> is_continuation (128 + x) = true.
Proof.
  intros Hx. unfold is_continuation. rewrite andb_true_iff, N.leb_le, N.ltb_lt. lia.
Qed.

Ltac decide_ltb :=
  repeat match goal with
         | |- context [?a <? ?b] =>
             first [ replace (a <? b) with true by (symmetry; apply N.ltb_lt; lia)
                   | replace (a <? b) with false by (symmetry; apply N.ltb_ge; lia) ]
         | |- context [?a <=? ?b] =>
             first [ replace (a <=? b) with true by (symmetry; apply N.leb_le; lia)
                   | replace (a <=? b) with false by (symmetry; apply N.leb_gt; lia) ]
         end.

(** The bytes of a code point decode to the code point. *)
Lemma utf8_decode_code_point cp rest :
  cp <= 1114111 -> is_high_surrogate cp = false -> is_low_surrogate cp = false ->
  utf8_decode (utf8_of_code_point cp ++ rest)
  = option_map (app (utf16_of_code_point cp)) (utf8_decode rest).
Proof.
  intros Hmax Hhi Hlo. unfold utf8_of_code_point, utf16_of_code_point.
  unfold is_high_surrogate in Hhi. unfold is_low_surrogate in Hlo.
  rewrite andb_false_iff, !N.leb_gt in Hhi, Hlo.
  pose proof (N.div_mod cp 64 ltac:(lia)) as E1.
  pose proof (N.mod_lt cp 64 ltac:(lia)) as L1.
  pose proof (N.div_mod (cp / 64) 64 ltac:(lia)) as E2.
  pose proof (N.mod_lt (cp / 64) 64 ltac:(lia)) as L2.
  rewrite N.Div0.div_div in E2. change (64 * 64) with 4096 in E2.
  pose proof (N.div_mod (cp / 4096) 64 ltac:(lia)) as E3.
  pose proof (N.mod_lt (cp / 4096) 64 ltac:(lia)) as L3.
  rewrite N.Div0.div_div in E3. change (4096 * 64) with 262144 in E3.
  set (r1 := cp mod 64) in *. set (r2 := (cp / 64) mod 64) in *.
  set (r3 := (cp / 4096) mod 64) in *.
  set (q1 := cp / 64) in *. set (q2 := cp / 4096) in *. set (q3 := cp / 262144) in *.
  clearbody r1 r2 r3 q1 q2 q3.
  destruct (N.ltb_spec cp 128) as [H1|H1].
  { cbn [app]. rewrite utf8_decode_cons. decide_ltb.
    now destruct (utf8_decode rest). }
  destruct (N.ltb_spec cp 2048) as [H2|H2].
  { cbn [app]. rewrite utf8_decode_cons. cbv zeta.
    rewrite (is_continuation_tail _ L1).
    replace ((192 + q1 - 192) * 64 + (128 + r1 - 128)) with cp by lia.
    decide_ltb. cbn [andb]. now destruct (utf8_decode rest). }
  destruct (N.ltb_spec cp 65536) as [H3|H3].
  { cbn [app]. rewrite utf8_decode_cons. cbv zeta.
    rewrite (is_continuation_tail _ L1), (is_continuation_tail _ L2).
    replace ((224 + q2 - 224) * 4096 + (128 + r2 - 128) * 64 + (128 + r1 - 128))
      with cp by lia.
    decide_ltb. cbn [andb negb].
    destruct Hhi, Hlo; try lia; decide_ltb; cbn [andb negb];
      now destruct (utf8_decode rest). }
  rewrite (N.mod_small q3 8) by lia.
  cbn [app]. rewrite utf8_decode_cons. cbv zeta.
  rewrite (is_continuation_tail _ L1), (is_continuation_tail _ L2),
    (is_continuation_tail _ L3).
  replace ((240 + q3 - 240) * 262144 + (128 + r3 - 128) * 4096
           + (128 + r2 - 128) * 64 + (128 + r1 - 128)) with cp by lia.
  decide_ltb. cbn [andb]. unfold utf16_of_code_point. decide_ltb. reflexivity.
Qed.

Lemma pair_code_point_units hi lo :
  is_high_surrogate hi = true -> is_low_surrogate lo = true ->
  let cp := pair_code_point hi lo in
  cp <= 1114111 /\ is_high_surrogate cp = false /\ is_low_surrogate cp = false
  /\ utf16_of_code_point cp = [hi; lo].
Proof.
  unfold is_high_surrogate, is_low_surrogate, pair_code_point, utf16_of_code_point.
  rewrite !andb_true_iff, !N.leb_le. intros [H1 H2] [H3 H4]. cbv zeta.
  split; [lia|]. split; [rewrite andb_false_iff, !N.leb_gt; lia|].
  split; [rewrite andb_false_iff, !N.leb_gt; lia|].
  decide_ltb.
  replace (65536 + (hi - 55296) * 1024 + (lo - 56320) - 65536)
    with ((hi - 55296) * 1024 + (lo - 56320)) by lia.
  destruct (div_mod_add (hi - 55296) (lo - 56320) 1024) as [-> ->]; [lia|].
  f_equal; [lia|]. f_equal. lia.
Qed.

(** Strict UTF-8 decoding undoes the encoding of a string of 16-bit code
    units in which every surrogate has its partner. *)
Lemma utf8_decode_encode s :
  Forall (fun c => c < 65536) s ->
  forall bytes, utf8_encode None s = Some bytes -> utf8_decode bytes = Some s.
Proof.
  induction s as [|c|c d l IHl IHd] using list_ind2; intros Hs bytes Hb.
  - injection Hb as <-. reflexivity.
  - inversion_clear Hs as [|? ? Hc _]. cbn [utf8_encode] in Hb.
    destruct (is_high_surrogate c) eqn:Hhi; [discriminate|].
    destruct (is_low_surrogate c) eqn:Hlo; [discriminate|].
    injection Hb as <-.
    rewrite utf8_decode_code_point by (auto; lia).
    unfold utf16_of_code_point. apply N.ltb_lt in Hc. now rewrite Hc.
  - inversion Hs as [|? ? Hc Hdl]; subst. inversion Hdl as [|? ? Hd Hl]; subst.
    rewrite utf8_encode_cons in Hb. cbv beta iota in Hb.
    destruct (is_high_surrogate c) eqn:Hhi.
    + destruct (is_low_surrogate d) eqn:Hlo; [|discriminate].
      destruct (utf8_encode None l) as [xl|] eqn:El; [|discriminate].
      injection Hb as <-.
      destruct (pair_code_point_units c d Hhi Hlo) as (Hmax & Hh & Hw & Hu).
      rewrite utf8_decode_code_point by assumption.
      rewrite Hu, (IHl Hl xl eq_refl). reflexivity.
    + destruct (is_low_surrogate c) eqn:Hlo; [discriminate|].
      destruct (utf8_encode None (d :: l)) as [xd|] eqn:Ed; [|discriminate].
      injection Hb as <-.
      rewrite utf8_decode_code_point by (auto; lia).
      rewrite (IHd Hdl xd eq_refl).
      unfold utf16_of_code_point. apply N.ltb_lt in Hc. now rewrite Hc.
Qed.

End Utf8.

(** ** Reading strings back *)

Section ParseStrings.
Import JSONParse.

Lemma string_body_cons c rest :
  c <> 34 -> c <> 92 -> 32 <= c ->
  string_body (c :: rest) = option_map (fun p => (c :: fst p, snd p)) (string_body rest).
Proof.
  intros H34 H92 H32.
  assert (E : string_body (c :: rest)
              = if c <? 32 then None
                else option_map (fun p => (c :: fst p, snd p)) (string_body rest)).
  { destruct c as [|p]; [reflexivity|].
    do 7 (try (destruct p as [p|p|]; try reflexivity)); contradiction. }
  rewrite E. apply N.ltb_ge in H32. now rewrite H32.
Qed.

Lemma hex_value_digit d : d < 16 -> hex_value (hex_digit d) = Some d.
Proof.
  intros Hd. unfold hex_value, hex_digit, is_digit.
  destruct (N.ltb_spec d 10).
  - replace ((48 <=? 48 + d) && (48 + d <=? 57)) with true
      by (symmetry; rewrite andb_true_iff, !N.leb_le; lia).
    f_equal. lia.
  - replace ((48 <=? 87 + d) && (87 + d <=? 57)) with false
      by (symmetry; rewrite andb_false_iff, !N.leb_gt; lia).
    replace ((97 <=? 87 + d) && (87 + d <=? 102)) with true
      by (symmetry; rewrite andb_true_iff, !N.leb_le; lia).
    f_equal. lia.
Qed.

Lemma hex4_value_hex4 c :
  c < 65536 ->
  hex4_value (hex_digit (c / 4096 mod 16)) (hex_digit (c / 256 mod 16))
             (hex_digit (c / 16 mod 16)) (hex_digit (c mod 16)) = Some c.
Proof.
  intros Hc. unfold hex4_value.
  rewrite !hex_value_digit by (apply N.mod_lt; discriminate).
  f_equal.
  pose proof (N.div_mod c 16 ltac:(lia)) as E1.
  pose proof (N.mod_lt c 16 ltac:(lia)) as L1.
  pose proof (N.div_mod (c / 16) 16 ltac:(lia)) as E2.
  pose proof (N.mod_lt (c / 16) 16 ltac:(lia)) as L2.
  rewrite N.Div0.div_div in E2. change (16 * 16) with 256 in E2.
  pose proof (N.div_mod (c / 256) 16 ltac:(lia)) as E3.
  pose proof (N.mod_lt (c / 256) 16 ltac:(lia)) as L3.
  rewrite N.Div0.div_div in E3. change (256 * 16) with 4096 in E3.
  assert (H4 : c / 4096 < 16) by (apply N.Div0.div_lt_upper_bound; lia).
  rewrite (N.mod_small _ _ H4).
  set (r1 := c mod 16) in *. set (r2 := (c / 16) mod 16) in *.
  set (r3 := (c / 256) mod 16) in *.
  set (q1 := c / 16) in *. set (q2 := c / 256) in *. set (q3 := c / 4096) in *.
  clearbody r1 r2 r3 q1 q2 q3. lia.
Qed.

Lemma string_body_escape c rest :
  c < 65536 ->
  string_body (unicode_escape c ++ rest)
  = option_map (fun p => (c :: fst p, snd p)) (string_body rest).
Proof.
  intros Hc. unfold unicode_escape, hex4.
  change (string_body ((92 :: 117 :: [hex_digit (c / 4096 mod 16); hex_digit (c / 256 mod 16);
                                       hex_digit (c / 16 mod 16); hex_digit (c mod 16)])
                        ++ rest))
    with (match hex4_value (hex_digit (c / 4096 mod 16)) (hex_digit (c / 256 mod 16))
                           (hex_digit (c / 16 mod 16)) (hex_digit (c mod 16)) with
          | Some u => option_map (fun p => (u :: fst p, snd p)) (string_body rest)
          | None => None
          end).
  now rewrite hex4_value_hex4.
Qed.

Lemma surrogate_raw c :
  is_high_surrogate c = true \/ is_low_surrogate c = true ->
  c <> 34 /\ c <> 92 /\ 32 <= c.
Proof.
  unfold is_high_surrogate, is_low_surrogate.
  rewrite !andb_true_iff, !N.leb_le. lia.
Qed.

(** Reading a quoted string back gives the string. *)
Lemma string_body_quote_body s :
  forall rest,
    Forall (fun c => c < 65536) s ->
    string_body (quote_body s ++ 34 :: rest) = Some (s, rest).
Proof.
  assert (Hstep : forall c tl rest,
             c < 65536 ->
             string_body (quote_body tl ++ 34 :: rest) = Some (tl, rest) ->
             (is_high_surrogate c = true ->
              match tl with d :: _ => is_low_surrogate d = false | [] => True end) ->
             string_body (quote_body (c :: tl) ++ 34 :: rest) = Some (c :: tl, rest)).
  { intros c tl rest Hc IH Hlone.
    destruct (N.eqb_spec c 34) as [->|H34].
    { change (string_body (quote_body (34 :: tl) ++ 34 :: rest))
        with (option_map (fun p => (34 :: fst p, snd p))
                (string_body (quote_body tl ++ 34 :: rest))).
      now rewrite IH. }
    destruct (N.eqb_spec c 92) as [->|H92].
    { change (string_body (quote_body (92 :: tl) ++ 34 :: rest))
        with (option_map (fun p => (92 :: fst p, snd p))
                (string_body (quote_body tl ++ 34 :: rest))).
      now rewrite IH. }
    destruct (N.eqb_spec c 8) as [->|H8].
    { change (string_body (quote_body (8 :: tl) ++ 34 :: rest))
        with (option_map (fun p => (8 :: fst p, snd p))
                (string_body (quote_body tl ++ 34 :: rest))).
      now rewrite IH. }
    destruct (N.eqb_spec c 12) as [->|H12].
    { change (string_body (quote_body (12 :: tl) ++ 34 :: rest))
        with (option_map (fun p => (12 :: fst p, snd p))
                (string_body (quote_body tl ++ 34 :: rest))).
      now rewrite IH. }
    destruct (N.eqb_spec c 10) as [->|H10].
    { change (string_body (quote_body (10 :: tl) ++ 34 :: rest))
        with (option_map (fun p => (10 :: fst p, snd p))
                (string_body (quote_body tl ++ 34 :: rest))).
      now rewrite IH. }
    destruct (N.eqb_spec c 13) as [->|H13].
    { change (string_body (quote_body (13 :: tl) ++ 34 :: rest))
        with (option_map (fun p => (13 :: fst p, snd p))
                (string_body (quote_body tl ++ 34 :: rest))).
      now rewrite IH. }
    destruct (N.eqb_spec c 9) as [->|H9].
    { change (string_body (quote_body (9 :: tl) ++ 34 :: rest))
        with (option_map (fun p => (9 :: fst p, snd p))
                (string_body (quote_body tl ++ 34 :: rest))).
      now rewrite IH. }
    rewrite quote_body_cons.
    apply N.eqb_neq in H34 as E34. apply N.eqb_neq in H92 as E92.
    apply N.eqb_neq in H8 as E8. apply N.eqb_neq in H12 as E12.
    apply N.eqb_neq in H10 as E10. apply N.eqb_neq in H13 as E13.
    apply N.eqb_neq in H9 as E9.
    rewrite E34, E92, E8, E12, E10, E13, E9.
    destruct (N.ltb_spec c 32) as [H32|H32].
    { rewrite <- List.app_assoc, (string_body_escape c _ Hc), IH. reflexivity. }
    destruct (is_high_surrogate c) eqn:Hhi.
    { specialize (Hlone eq_refl). destruct tl as [|d tl'].
      - rewrite (string_body_escape c _ Hc).
        cbn [quote_body app] in IH. now rewrite IH.
      - rewrite Hlone, <- List.app_assoc, (string_body_escape c _ Hc), IH. reflexivity. }
    destruct (is_low_surrogate c) eqn:Hlo.
    { rewrite <- List.app_assoc, (string_body_escape c _ Hc), IH. reflexivity. }
    cbn [app]. rewrite string_body_cons by assumption. now rewrite IH. }
  induction s as [|c|c d l IHl IHd] using list_ind2; intros rest Hs.
  - reflexivity.
  - inversion_clear Hs as [|? ? Hc _]. apply Hstep; [exact Hc | reflexivity | auto].
  - inversion Hs as [|? ? Hc Hdl]; subst. inversion Hdl as [|? ? Hd Hl]; subst.
    destruct (is_high_surrogate c && is_low_surrogate d) eqn:Hpair.
    + apply andb_true_iff in Hpair as [Hhi Hlo].
      destruct (surrogate_raw c (or_introl Hhi)) as (C1 & C2 & C3).
      destruct (surrogate_raw d (or_intror Hlo)) as (D1 & D2 & D3).
      rewrite quote_body_cons.
      apply N.eqb_neq in C1 as C1'. apply N.eqb_neq in C2 as C2'.
      rewrite C1', C2'.
      replace (c =? 8) with false by (symmetry; apply N.eqb_neq; lia).
      replace (c =? 12) with false by (symmetry; apply N.eqb_neq; lia).
      replace (c =? 10) with false by (symmetry; apply N.eqb_neq; lia).
      replace (c =? 13) with false by (symmetry; apply N.eqb_neq; lia).
      replace (c =? 9) with false by (symmetry; apply N.eqb_neq; lia).
      replace (c <? 32) with false by (symmetry; apply N.ltb_ge; lia).
      rewrite Hhi, Hlo. cbn [app].
      rewrite (string_body_cons c) by assumption.
      rewrite (string_body_cons d) by assumption.
      now rewrite (IHl rest Hl).
    + apply Hstep; [exact Hc | now apply IHd|].
      intros Hhi. rewrite Hhi in Hpair. exact Hpair.
Qed.

End ParseStrings.

(** ** Reading numbers back *)

Section ParseNumbers.
Import JSONParse.

Lemma digits_value_app a b acc :
  digits_value (a ++ b) acc = digits_value b (digits_value a acc).
Proof.
  revert acc. induction a as [|c a IH]; intros acc; [reflexivity|]. simpl. apply IH.
Qed.

Lemma is_digit_char r : r < 10 -> is_digit (48 + r) = true.
Proof. intros Hr. unfold is_digit. rewrite andb_true_iff, !N.leb_le. lia. Qed.

(** The decimal digits of a number: no leading zero, and their value is the
    number. *)
Lemma dec_digits_spec fuel :
  forall n acc,
    n < 2 ^ N.of_nat (S fuel) ->
    exists d ds,
      dec_digits (S fuel) n acc = (d :: ds) ++ acc
      /\ Forall (fun c => is_digit c = true) (d :: ds)
      /\ (d = 48 -> n = 0 /\ ds = [])
      /\ forall a, digits_value (d :: ds) a = a * 10 ^ N.of_nat (length (d :: ds)) + n.
Proof.
  induction fuel as [|fuel IH]; intros n acc Hn.
  - assert (Hlt : (n <? 10) = true) by (apply N.ltb_lt; change (2 ^ N.of_nat 1) with 2 in Hn; lia).
    exists (48 + n mod 10), []. cbn [dec_digits]. rewrite Hlt.
    apply N.ltb_lt in Hlt. rewrite (N.mod_small n 10 Hlt).
    split; [reflexivity|]. split.
    { constructor; [|constructor]. now apply is_digit_char. }
    split; [intros E; split; [lia | reflexivity]|].
    intros a. cbn [digits_value length]. change (10 ^ N.of_nat 1) with 10. lia.
  - change (dec_digits (S (S fuel)) n acc)
      with (if n <? 10 then (48 + n mod 10) :: acc
            else dec_digits (S fuel) (n / 10) ((48 + n mod 10) :: acc)).
    destruct (N.ltb_spec n 10) as [Hlt|Hge].
    + exists (48 + n mod 10), []. rewrite (N.mod_small n 10 Hlt).
      split; [reflexivity|]. split.
      { constructor; [|constructor]. now apply is_digit_char. }
      split; [intros E; split; [lia | reflexivity]|].
      intros a. cbn [digits_value length]. change (10 ^ N.of_nat 1) with 10. lia.
    + pose proof (N.div_mod n 10 ltac:(lia)) as E.
      pose proof (N.mod_lt n 10 ltac:(lia)) as L.
      assert (Hq : n / 10 < 2 ^ N.of_nat (S fuel)).
      { apply N.Div0.div_lt_upper_bound.
        replace (N.of_nat (S (S fuel))) with (N.succ (N.of_nat (S fuel))) in Hn by lia.
        rewrite N.pow_succ_r' in Hn. lia. }
      destruct (IH (n / 10) ((48 + n mod 10) :: acc) Hq) as (d & ds & Heq & Hdig & Hzero & Hval).
      exists d, (ds ++ [48 + n mod 10]). rewrite Heq.
      split.
      { change (d :: ds ++ [48 + n mod 10]) with ((d :: ds) ++ [48 + n mod 10]).
        now rewrite <- List.app_assoc. }
      split.
      { change (d :: ds ++ [48 + n mod 10]) with ((d :: ds) ++ [48 + n mod 10]).
        apply Forall_app. split; [exact Hdig|]. constructor; [|constructor].
        now apply is_digit_char. }
      split.
      { intros E0. destruct (Hzero E0) as [Hz _].
        assert (n / 10 <> 0); [|contradiction].
        intros Hz'. rewrite Hz' in E. lia. }
      intros a. change (d :: ds ++ [48 + n mod 10]) with ((d :: ds) ++ [48 + n mod 10]).
      rewrite digits_value_app, Hval. cbn [digits_value].
      rewrite List.length_app. change (length [48 + n mod 10]) with 1%nat.
      rewrite Nat2N.inj_add, N.pow_add_r. change (10 ^ N.of_nat 1) with 10.
      set (q := n / 10) in *. set (r := n mod 10) in *.
      set (p := 10 ^ N.of_nat (length (d :: ds))) in *. clearbody q r p. lia.
Qed.

Lemma N_to_string_spec n :
  exists d ds,
    N_to_string n = d :: ds
    /\ Forall (fun c => is_digit c = true) (d :: ds)
    /\ (d = 48 -> n = 0 /\ ds = [])
    /\ digits_value (d :: ds) 0 = n.
Proof.
  unfold N_to_string.
  assert (Hn : n < 2 ^ N.of_nat (S (N.to_nat (N.log2 n)))).
  { replace (N.of_nat (S (N.to_nat (N.log2 n)))) with (N.succ (N.log2 n)) by lia.
    destruct n as [|p]; [reflexivity|]. apply N.log2_spec. reflexivity. }
  destruct (dec_digits_spec _ n [] Hn) as (d & ds & Heq & Hdig & Hzero & Hval).
  exists d, ds. rewrite Heq, List.app_nil_r.
  split; [reflexivity|]. split; [exact Hdig|]. split; [exact Hzero|].
  rewrite Hval. lia.
Qed.

Lemma is_digit_cases c :
  is_digit c = true ->
  c = 48 \/ c = 49 \/ c = 50 \/ c = 51 \/ c = 52 \/ c = 53 \/ c = 54 \/ c = 55 \/ c = 56 \/ c = 57.
Proof. unfold is_digit. rewrite andb_true_iff, !N.leb_le. lia. Qed.

Lemma take_digits_app ds rest :
  Forall (fun c => is_digit c = true) ds -> stop rest ->
  take_digits (ds ++ rest) = (ds, rest).
Proof.
  intros Hds Hrest. induction Hds as [|c ds Hc _ IH].
  - destruct rest as [|c rest]; [reflexivity|]. cbn [app take_digits].
    destruct Hrest as [-> | [-> | ->]]; reflexivity.
  - cbn [app take_digits]. now rewrite Hc, IH.
Qed.

Lemma number_digits d ds rest :
  Forall (fun c => is_digit c = true) (d :: ds) -> (d = 48 -> ds = []) -> stop rest ->
  number ((d :: ds) ++ rest) = Some (Z.of_N (digits_value (d :: ds) 0), rest).
Proof.
  intros Hds Hzero Hrest. unfold number.
  assert (Hd : is_digit d = true) by now inversion Hds.
  replace (match (d :: ds) ++ rest with 45 :: r => (true, r) | _ => (false, (d :: ds) ++ rest) end)
    with (false, (d :: ds) ++ rest)
    by (destruct (is_digit_cases d Hd) as [->|[->|[->|[->|[->|[->|[->|[->|[->| ->]]]]]]]]];
        reflexivity).
  rewrite (take_digits_app _ _ Hds Hrest).
  replace ((d =? 48) && negb match ds with [] => true | _ => false end) with false.
  - destruct rest as [|c rest]; [reflexivity|].
    destruct Hrest as [-> | [-> | ->]]; reflexivity.
  - symmetry. destruct (N.eqb_spec d 48) as [E|_]; [|reflexivity].
    now rewrite (Hzero E).
Qed.

Lemma number_Z_to_string z rest :
  stop rest -> number (Z_to_string z ++ rest) = Some (z, rest).
Proof.
  intros Hrest. destruct z as [|p|p].
  - destruct rest as [|c rest]; [reflexivity|].
    destruct Hrest as [-> | [-> | ->]]; reflexivity.
  - cbn [Z_to_string].
    destruct (N_to_string_spec (Npos p)) as (d & ds & -> & Hdig & Hzero & Hval).
    rewrite number_digits; auto; [|intros E; now apply Hzero].
    now rewrite Hval.
  - cbn [Z_to_string].
    destruct (N_to_string_spec (Npos p)) as (d & ds & -> & Hdig & Hzero & Hval).
    assert (Hd : is_digit d = true) by now inversion Hdig.
    unfold number. cbn [app].
    change ((d :: ds) ++ rest) with (d :: ds ++ rest).
    change (d :: ds ++ rest) with ((d :: ds) ++ rest).
    rewrite (take_digits_app _ _ Hdig Hrest).
    replace ((d =? 48) && negb match ds with [] => true | _ => false end) with false.
    + rewrite Hval. destruct rest as [|c rest]; [reflexivity|].
      destruct Hrest as [-> | [-> | ->]]; reflexivity.
    + symmetry. destruct (N.eqb_spec d 48) as [E|_]; [|reflexivity].
      destruct (Hzero E) as [_ ->]. reflexivity.
Qed.

End ParseNumbers.

(** ** Reading values back *)

Section ParseValues.
Import JSONParse.

Lemma wf_string_Forall s : wf_string s = true -> Forall (fun c => c < 65536) s.
Proof.
  unfold wf_string. rewrite forallb_forall, Forall_forall.
  intros H x Hx. apply N.ltb_lt, H, list_elem_of_In, Hx.
Qed.

Lemma stringify_head v : exists c r, JSON_stringify v = c :: r /\ token_start c.
Proof.
  unfold token_start. destruct v as [| [|] | [|p|p] | s | items | props];
    try (eexists _, _; split; [reflexivity|]; cbn [In]; tauto).
  cbn [JSON_stringify Z_to_string].
  destruct (N_to_string_spec (Npos p)) as (d & ds & -> & Hdig & _).
  exists d, ds. split; [reflexivity|].
  assert (Hd : is_digit d = true) by now inversion Hdig.
  cbn [In]. pose proof (is_digit_cases d Hd). intuition auto.
Qed.

Lemma value_array fuel c r :
  token_start c ->
  value (S fuel) (91 :: c :: r)
  = option_map (fun p => (JArr (fst p), snd p)) (elements fuel (c :: r)).
Proof.
  unfold token_start. cbn [In].
  intros [<-|[<-|[<-|[<-|[<-|[<-|[<-|[<-|[<-|[<-|[<-|[<-|[<-|[<-|[<-|[<-|[<-|[]]]]]]]]]]]]]]]]]];
    reflexivity.
Qed.

Lemma value_number fuel c r :
  is_digit c = true \/ c = 45 ->
  value (S fuel) (c :: r) = option_map (fun p => (JNum (fst p), snd p)) (number (c :: r)).
Proof.
  intros [Hc | ->]; [|reflexivity].
  destruct (is_digit_cases c Hc) as [->|[->|[->|[->|[->|[->|[->|[->|[->| ->]]]]]]]]];
    reflexivity.
Qed.

Lemma elements_cons fuel s :
  elements (S fuel) s
  = match value fuel s with
    | Some (v, r) =>
        match skip_ws r with
        | 44 :: r' => option_map (fun p => (v :: fst p, snd p)) (elements fuel r')
        | 93 :: r' => Some ([v], r')
        | _ => None
        end
    | None => None
    end.
Proof. reflexivity. Qed.

Lemma members_cons fuel acc r :
  members (S fuel) acc (34 :: r)
  = match string_body r with
    | Some (k, r1) =>
        match skip_ws r1 with
        | 58 :: r2 =>
            match value fuel r2 with
            | Some (v, r3) =>
                match skip_ws r3 with
                | 44 :: r4 => members fuel (obj_set acc k v) r4
                | 125 :: r4 => Some (obj_set acc k v, r4)
                | _ => None
                end
            | None => None
            end
        | _ => None
        end
    | None => None
    end.
Proof. reflexivity. Qed.

Lemma length_stringify v : (1 <= length (JSON_stringify v))%nat.
Proof. destruct (stringify_head v) as (c & r & -> & _). simpl. lia. Qed.

Lemma reads_elements items :
  Forall reads items -> items <> [] ->
  forall fuel rest,
    (length (join [44%N] (List.map JSON_stringify items)) + 1 <= fuel)%nat ->
    elements fuel (join [44] (List.map JSON_stringify items) ++ 93 :: rest)
    = Some (List.map parsed items, rest).
Proof.
  induction 1 as [|v items Hv Hitems IH]; intros Hne fuel rest Hfuel; [contradiction|].
  destruct fuel as [|fuel]; [lia|]. rewrite elements_cons.
  destruct items as [|w items].
  - cbn [List.map join] in *.
    rewrite (Hv fuel (93 :: rest)) by (simpl; auto; lia). reflexivity.
  - change (join [44] (List.map JSON_stringify (v :: w :: items)))
      with (JSON_stringify v ++ [44] ++ join [44] (List.map JSON_stringify (w :: items))) in *.
    rewrite !List.length_app in Hfuel. cbn [length] in Hfuel.
    rewrite <- ?List.app_assoc. cbn [app].
    rewrite (Hv fuel (44 :: _)) by (simpl; auto; lia).
    cbn [skip_ws is_ws existsb N.eqb Pos.eqb orb].
    rewrite IH by (try discriminate; lia). reflexivity.
Qed.

Lemma reads_members props :
  Forall (fun kv => wf_string (fst kv) = true /\ reads (snd kv)) props -> props <> [] ->
  forall fuel acc rest,
    (length (join [44%N]
               (List.map (fun kv => quote (fst kv) ++ 58%N :: JSON_stringify (snd kv)) props))
     + 1 <= fuel)%nat ->
    members fuel acc
      (join [44] (List.map (fun kv => quote (fst kv) ++ 58 :: JSON_stringify (snd kv)) props)
         ++ 125 :: rest)
    = Some (fold_left (fun acc kv => obj_set acc (fst kv) (parsed (snd kv))) props acc, rest).
Proof.
  induction 1 as [|[k v] props [Hk Hv] Hprops IH]; intros Hne fuel acc rest Hfuel;
    [contradiction|].
  cbn [fst snd] in Hk, Hv.
  destruct fuel as [|fuel]; [lia|].
  destruct props as [|kv props].
  - cbn [List.map join fst snd fold_left] in *.
    unfold quote in *. rewrite !List.length_app in Hfuel. cbn [length] in Hfuel.
    rewrite List.length_app in Hfuel. cbn [length] in Hfuel.
    cbn [app]. rewrite <- ?List.app_assoc. cbn [app]. rewrite members_cons.
    rewrite (string_body_quote_body k _ (wf_string_Forall k Hk)).
    cbn [skip_ws is_ws existsb N.eqb Pos.eqb orb].
    rewrite (Hv fuel (125 :: rest)) by (simpl; auto; lia). reflexivity.
  - change (join [44] (List.map (fun kv => quote (fst kv) ++ 58 :: JSON_stringify (snd kv))
                                ((k, v) :: kv :: props)))
      with ((quote k ++ 58 :: JSON_stringify v) ++ [44]
            ++ join [44] (List.map (fun kv => quote (fst kv) ++ 58 :: JSON_stringify (snd kv))
                                   (kv :: props))) in *.
    rewrite !List.length_app in Hfuel. cbn [length] in Hfuel.
    unfold quote at 1.
    cbn [app]. rewrite <- ?List.app_assoc. cbn [app]. rewrite members_cons.
    rewrite <- ?List.app_assoc. cbn [app].
    rewrite (string_body_quote_body k _ (wf_string_Forall k Hk)).
    cbn [skip_ws is_ws existsb N.eqb Pos.eqb orb].
    rewrite (Hv fuel (44 :: _)) by (simpl; auto; lia).
    cbn [skip_ws is_ws existsb N.eqb Pos.eqb orb fold_left fst snd].
    rewrite IH by (try discriminate; lia). reflexivity.
Qed.

(** Every value made of 16-bit strings is read back from its text. *)
Lemma reads_json v : json_wf v = true -> reads v.
Proof.
  induction v as [| b | n | s | items IH | props IH] using json_induction;
    intros Hwf fuel rest Hfuel Hrest.
  - destruct fuel as [|fuel]; [simpl in Hfuel; lia|]. reflexivity.
  - destruct fuel as [|fuel]; [destruct b; simpl in Hfuel; lia|]. destruct b; reflexivity.
  - destruct fuel as [|fuel]; [pose proof (length_stringify (JNum n)); lia|].
    destruct (stringify_head (JNum n)) as (c & r & E & Hc).
    rewrite E. cbn [app]. rewrite value_number.
    + change (c :: r ++ rest) with ((c :: r) ++ rest). rewrite <- E.
      cbn [JSON_stringify]. now rewrite number_Z_to_string.
    + destruct n as [|p|p]; cbn [JSON_stringify Z_to_string] in E.
      * injection E as <- _. now left.
      * destruct (N_to_string_spec (Npos p)) as (d & ds & E' & Hdig & _).
        rewrite E' in E. injection E as <- _. left. now inversion Hdig.
      * injection E as <- _. now right.
  - destruct fuel as [|fuel]; [simpl in Hfuel; lia|].
    cbn [JSON_stringify parsed]. unfold quote. cbn [app]. rewrite <- List.app_assoc.
    change (value (S fuel) (34 :: quote_body s ++ [34] ++ rest))
      with (option_map (fun p => (JStr (fst p), snd p))
              (string_body (quote_body s ++ 34 :: rest))).
    now rewrite (string_body_quote_body s rest (wf_string_Forall s Hwf)).
  - destruct fuel as [|fuel]; [simpl in Hfuel; lia|].
    cbn [JSON_stringify parsed] in *. destruct items as [|v items]; [reflexivity|].
    assert (Hreads : Forall reads (v :: items)).
    { cbn [json_wf] in Hwf. rewrite forallb_forall in Hwf.
      rewrite Forall_forall in IH |- *. intros x Hx. apply IH; [exact Hx|].
      apply Hwf, list_elem_of_In, Hx. }
    pose proof (reads_elements (v :: items) Hreads ltac:(discriminate) fuel rest) as He.
    cbn [length] in Hfuel. rewrite List.length_app in Hfuel. cbn [length] in Hfuel.
    specialize (He ltac:(lia)).
    cbn [app]. rewrite <- ?List.app_assoc. cbn [app].
    destruct (stringify_head v) as (c & r & E & Hc).
    assert (Ej : exists r', join [44] (List.map JSON_stringify (v :: items)) = c :: r').
    { destruct items as [|w items]; cbn [List.map join]; rewrite E; eexists; reflexivity. }
    destruct Ej as [r' Ej]. rewrite Ej in He |- *. cbn [app] in He |- *.
    rewrite (value_array fuel c _ Hc), He. reflexivity.
  - destruct fuel as [|fuel]; [simpl in Hfuel; lia|].
    cbn [JSON_stringify parsed] in *. destruct props as [|[k v] props]; [reflexivity|].
    assert (Hreads : Forall (fun kv => wf_string (fst kv) = true /\ reads (snd kv))
                            ((k, v) :: props)).
    { cbn [json_wf] in Hwf. rewrite forallb_forall in Hwf.
      rewrite Forall_forall in IH |- *. intros x Hx.
      specialize (Hwf x (proj1 (list_elem_of_In _ _) Hx)).
      apply andb_true_iff in Hwf as [Hk Hx']. split; [exact Hk|]. now apply IH. }
    pose proof (reads_members ((k, v) :: props) Hreads ltac:(discriminate) fuel [] rest)
      as Hm.
    cbn [length] in Hfuel. rewrite List.length_app in Hfuel. cbn [length] in Hfuel.
    specialize (Hm ltac:(lia)).
    cbn [app]. rewrite <- ?List.app_assoc. cbn [app].
    assert (Ej : exists r',
               join [44] (List.map (fun kv => quote (fst kv) ++ 58 :: JSON_stringify (snd kv))
                                   ((k, v) :: props)) = 34 :: r').
    { destruct props as [|w props]; cbn [List.map join fst snd]; unfold quote;
        eexists; reflexivity. }
    destruct Ej as [r' Ej]. rewrite Ej in Hm |- *. cbn [app] in Hm |- *.
    change (value (S fuel) (123 :: 34 :: r' ++ 125 :: rest))
      with (option_map (fun p => (JObj (fst p), snd p))
              (members fuel [] (34 :: r' ++ 125 :: rest))).
    now rewrite Hm.
Qed.

(** [JSON.parse(JSON.stringify(v))]. *)
Lemma parse_stringify v :
  json_wf v = true -> parse (JSON_stringify v) = Ok (parsed v).
Proof.
  intros Hwf. unfold parse.
  pose proof (reads_json v Hwf (S (length (JSON_stringify v))) [] ltac:(lia) I) as H.
  rewrite List.app_nil_r in H. now rewrite H.
Qed.

End ParseValues.

(** ** Code units *)

Section Units.
Import DataEncoder.

Lemma units_plain s : Forall plain s -> Forall (fun c => c < 65536) s.
Proof. apply List.Forall_impl. unfold plain. intros c Hc. lia. Qed.

Lemma quote_body_units s :
  Forall (fun c => c < 65536) s -> Forall (fun c => c < 65536) (quote_body s).
Proof.
  induction s as [|c|c d l IHl IHd] using list_ind2; intros Hs.
  - constructor.
  - inversion_clear Hs as [|? ? Hc _]. rewrite quote_body_cons.
    repeat match goal with
           | |- context [if ?b then _ else _] => destruct b
           end;
      rewrite ?List.app_nil_r;
      repeat first [ apply units_plain, unicode_escape_plain
                   | constructor; [lia|]
                   | constructor; [exact Hc|]
                   | constructor ].
  - inversion Hs as [|? ? Hc Hdl]; subst. inversion Hdl as [|? ? Hd Hl]; subst.
    rewrite quote_body_cons.
    repeat match goal with
           | |- context [if ?b then _ else _] => destruct b
           end;
      repeat first [ apply Forall_app; split; [apply units_plain, unicode_escape_plain|]
                   | exact (IHd Hdl)
                   | exact (IHl Hl)
                   | constructor; [lia|]
                   | constructor; [assumption|] ].
Qed.

Lemma join_units sep parts :
  Forall (fun c => c < 65536) sep ->
  Forall (fun p => Forall (fun c => c < 65536) p) parts ->
  Forall (fun c => c < 65536) (join sep parts).
Proof.
  intros Hsep. induction 1 as [|p parts Hp Hparts IH]; [constructor|].
  destruct parts as [|q parts]; [exact Hp|].
  change (join sep (p :: q :: parts)) with (p ++ sep ++ join sep (q :: parts)).
  repeat (apply Forall_app; split); assumption.
Qed.

Lemma quote_units s :
  wf_string s = true -> Forall (fun c => c < 65536) (quote s).
Proof.
  intros Hs. unfold quote. constructor; [lia|].
  apply Forall_app. split; [apply quote_body_units, wf_string_Forall, Hs|].
  constructor; [lia | constructor].
Qed.

(** The text of a value made of 16-bit strings is a 16-bit string. *)
Lemma JSON_stringify_units v :
  json_wf v = true -> Forall (fun c => c < 65536) (JSON_stringify v).
Proof.
  induction v as [| b | n | s | items IH | props IH] using json_induction; intros Hwf.
  - apply units_plain, plain_lit. reflexivity.
  - destruct b; apply units_plain, plain_lit; reflexivity.
  - apply units_plain, Z_to_string_plain.
  - now apply quote_units.
  - cbn [JSON_stringify json_wf] in *. constructor; [lia|].
    apply Forall_app. split; [|constructor; [lia | constructor]].
    apply join_units; [constructor; [lia | constructor]|].
    rewrite forallb_forall in Hwf. rewrite Forall_forall in IH.
    apply Forall_forall. intros p Hp. apply list_elem_of_In, in_map_iff in Hp.
    destruct Hp as (x & <- & Hx).
    apply IH; [apply list_elem_of_In; exact Hx | apply Hwf; exact Hx].
  - cbn [JSON_stringify json_wf] in *. constructor; [lia|].
    apply Forall_app. split; [|constructor; [lia | constructor]].
    apply join_units; [constructor; [lia | constructor]|].
    rewrite forallb_forall in Hwf. rewrite Forall_forall in IH.
    apply Forall_forall. intros p Hp. apply list_elem_of_In, in_map_iff in Hp.
    destruct Hp as ([k x] & <- & Hx). cbn [fst snd].
    specialize (Hwf (k, x) Hx).
    apply andb_true_iff in Hwf as [Hk Hx']. cbn [fst snd] in Hk, Hx'.
    apply Forall_app. split; [now apply quote_units|].
    constructor; [lia|].
    apply (IH (k, x)); [apply list_elem_of_In, Hx | exact Hx'].
Qed.

(** [decodeData] gives back the text of a value that [encodeData] wrote. *)
Lemma decoded_text_stringify v :
  json_wf v = true -> decoded_text (JSON_stringify v) = Some (JSON_stringify v).
Proof.
  intros Hwf. unfold decoded_text.
  pose proof (JSON_stringify_encodable v) as Henc. unfold encodable in Henc.
  destruct (utf8_encode None (JSON_stringify v)) as [bytes|] eqn:Hb; [|contradiction].
  exact (utf8_decode_encode _ (JSON_stringify_units v Hwf) bytes Hb).
Qed.

End Units.

(** ** What JSON.parse rebuilds *)

Section Rebuild.
Import DataEncoder.

Lemma set_named_fresh {V} k (v : V) o :
  ~ In k (List.map fst o) -> set_named k v o = o ++ [(k, v)].
Proof.
  induction o as [|[k' v'] o IH]; intros Hk; [reflexivity|]. cbn [set_named].
  unfold jsstring_eqb. rewrite bool_decide_eq_false_2.
  - rewrite IH; [reflexivity|]. intros Hin. apply Hk. now right.
  - intros ->. apply Hk. now left.
Qed.

Lemma fold_obj_set_named {V W} (g : V -> W) props :
  forall acc,
    NoDup (List.map fst acc ++ List.map fst props) ->
    Forall (fun kv => array_index (fst kv) = None) props ->
    fold_left (fun acc kv => obj_set acc (fst kv) (g (snd kv))) props acc
    = acc ++ List.map (fun kv => (fst kv, g (snd kv))) props.
Proof.
  induction props as [|[k v] props IH]; intros acc Hnd Hnamed.
  - now rewrite List.app_nil_r.
  - inversion_clear Hnamed as [|? ? Hk Hrest]. cbn [fst snd] in Hk.
    cbn [fold_left List.map fst snd]. unfold obj_set at 2. rewrite Hk.
    cbn [List.map fst] in Hnd.
    rewrite set_named_fresh.
    + rewrite IH; [now rewrite <- List.app_assoc | | exact Hrest].
      rewrite List.map_app. cbn [List.map fst]. now rewrite <- List.app_assoc.
    + apply NoDup_app in Hnd as (_ & Hdisj & _). intros Hin.
      apply (Hdisj k); [apply list_elem_of_In, Hin | left].
Qed.

(** An object with distinct, named keys is rebuilt as it is. *)
Lemma parsed_named props :
  named_keys props ->
  parsed (JObj props) = JObj (List.map (fun kv => (fst kv, parsed (snd kv))) props).
Proof.
  intros [Hnd Hnamed]. cbn [parsed]. f_equal.
  now rewrite (fold_obj_set_named parsed props []).
Qed.

Lemma NoDup_keys (keys : list jsstring) :
  bool_decide (NoDup keys) = true -> NoDup keys.
Proof. apply bool_decide_eq_true_1. Qed.

Lemma parsed_attributes_object attrs :
  named_keys attrs ->
  parsed (AngularFormSnapshotContent.attributes_object attrs)
  = AngularFormSnapshotContent.attributes_object attrs.
Proof.
  intros [Hnd Hnamed]. unfold AngularFormSnapshotContent.attributes_object.
  rewrite parsed_named.
  - f_equal. rewrite List.map_map. apply List.map_ext. now intros [k v].
  - split.
    + now rewrite List.map_map.
    + apply Forall_forall. intros kv Hkv.
      apply list_elem_of_In, in_map_iff in Hkv. destruct Hkv as ([k v] & <- & Hin).
      rewrite Forall_forall in Hnamed. apply (Hnamed (k, v)), list_elem_of_In, Hin.
Qed.

Lemma parsed_metadata_json m : parsed (metadata_json m) = metadata_json m.
Proof.
  unfold metadata_json. destruct (material m) as [mm|];
    (rewrite parsed_named; [reflexivity|]);
    (split; [apply NoDup_keys; vm_compute; reflexivity | repeat constructor]).
Qed.

Lemma parsed_control_json c :
  plain_control c -> parsed (control_json c) = control_json c.
Proof.
  intros [Hvalue Hattrs]. unfold control_json. rewrite parsed_named.
  - cbn [List.map fst snd]. rewrite Hvalue, (parsed_attributes_object _ Hattrs),
      parsed_metadata_json.
    repeat f_equal.
    + now destruct (name c).
    + cbn [parsed]. f_equal. rewrite List.map_map. now apply List.map_ext.
  - split; [apply NoDup_keys; vm_compute; reflexivity | repeat constructor].
Qed.

(** A snapshot of such descriptors is rebuilt as it is. *)
Lemma parsed_snapshot_json h formControls :
  Forall plain_control formControls ->
  parsed (snapshot_json h formControls) = snapshot_json h formControls.
Proof.
  intros Hall. unfold snapshot_json. rewrite parsed_named.
  - cbn [List.map fst snd parsed]. repeat f_equal.
    rewrite List.map_map.
    induction Hall as [|c cs Hc _ IH]; [reflexivity|].
    cbn [List.map]. now rewrite (parsed_control_json c Hc), IH.
  - split; [apply NoDup_keys; vm_compute; reflexivity | repeat constructor].
Qed.

End Rebuild.

Section Keys.

(** Assigning a property adds at most its name, and removes none. *)
Lemma obj_set_keys {V} (o : list (jsstring * V)) k v k0 :
  (In k0 (List.map fst (obj_set o k v)) -> k0 = k \/ In k0 (List.map fst o))
  /\ (In k0 (List.map fst o) -> In k0 (List.map fst (obj_set o k v))).
Proof.
  unfold obj_set. destruct (array_index k) as [i|].
  - induction o as [|[k' v'] o [IH1 IH2]]; cbn [set_index List.map fst In].
    + intuition (subst; auto).
    + destruct (array_index k') as [j|].
      * destruct (i =? j); [cbn [List.map fst In]; intuition (subst; auto)|].
        destruct (i <? j); cbn [List.map fst In]; intuition (subst; auto).
      * cbn [List.map fst In]. intuition (subst; auto).
  - induction o as [|[k' v'] o [IH1 IH2]]; cbn [set_named List.map fst In].
    + intuition (subst; auto).
    + destruct (jsstring_eqb k k'); cbn [List.map fst In]; intuition (subst; auto).
Qed.

Lemma fold_obj_set_keys {V W} (g : V -> W) props :
  forall acc k0,
    (In k0 (List.map fst (fold_left (fun acc kv => obj_set acc (fst kv) (g (snd kv))) props acc))
     -> In k0 (List.map fst acc) \/ In k0 (List.map fst props)).
Proof.
  induction props as [|[k v] props IH]; intros acc k0 Hin; cbn [fold_left] in Hin.
  - now left.
  - apply IH in Hin. cbn [List.map fst snd In] in *.
    destruct Hin as [Hin | Hin]; [|tauto].
    apply obj_set_keys in Hin. intuition auto.
Qed.

(** The names of a rebuilt object are names of the object. *)
Lemma parsed_keys props k :
  In k (keys_of (parsed (JObj props))) -> In k (List.map fst props).
Proof.
  cbn [parsed keys_of]. intros Hin.
  apply fold_obj_set_keys in Hin. cbn [List.map In] in Hin. tauto.
Qed.

Lemma wf_string_digits s :
  Forall (fun c => is_digit c = true) s -> wf_string s = true.
Proof.
  intros Hs. unfold wf_string. apply forallb_forall. intros c Hc.
  rewrite Forall_forall in Hs. specialize (Hs c (proj2 (list_elem_of_In _ _) Hc)).
  unfold is_digit in Hs. apply andb_true_iff in Hs as [_ Hs].
  apply N.leb_le in Hs. apply N.ltb_lt. lia.
Qed.

Lemma N_to_string_digits n : Forall (fun c => is_digit c = true) (N_to_string n).
Proof. destruct (N_to_string_spec n) as (d & ds & -> & Hdig & _). exact Hdig. Qed.

(** The object a [Uint8Array] serialises to: its names are decimal
    numerals and its values numbers. *)
Lemma packed_bytes_keys b k :
  In k (List.map fst (List.map (fun ib => (N_to_string (N.of_nat (fst ib)), JNum (Z.of_N (snd ib))))
                               (combine (seq 0 (length b)) b))) ->
  Forall (fun c => is_digit c = true) k.
Proof.
  rewrite List.map_map. intros Hin. apply in_map_iff in Hin.
  destruct Hin as ([i x] & <- & _). apply N_to_string_digits.
Qed.

Lemma packed_bytes_wf b : json_wf (DataEncoder.packed_json (Bytes b)) = true.
Proof.
  cbn [DataEncoder.packed_json json_wf]. apply forallb_forall.
  intros kv Hin. apply in_map_iff in Hin. destruct Hin as ([i x] & <- & _).
  cbn [fst snd json_wf]. rewrite andb_true_r. apply wf_string_digits, N_to_string_digits.
Qed.

End Keys.

(** ** The round trip of the token *)

Section RoundTrip.
Import DataEncoder ENCODING_CONFIG.

Lemma packed_of_small h jsonString :
  (length jsonString < COMPRESSION_THRESHOLD)%nat -> packed_of h jsonString = Text jsonString.
Proof.
  intros Hlen. unfold packed_of, compressData, bind, tell, modify, ret. cbv beta iota.
  apply Nat.ltb_lt in Hlen. now rewrite Hlen.
Qed.

Lemma packed_of_gzip h gzip jsonString :
  CompressionStream h = Some gzip ->
  (COMPRESSION_THRESHOLD <= length jsonString)%nat ->
  packed_of h jsonString = Bytes (gzip (TextEncoder_encode jsonString)).
Proof.
  intros Hg Hlen. unfold packed_of, compressData, bind, tell, modify, ret. cbv beta iota.
  apply Nat.ltb_ge in Hlen. now rewrite Hlen, Hg.
Qed.

Lemma fold_obj_set_keeps {V W} (g : V -> W) props :
  forall acc k0,
    In k0 (List.map fst acc) ->
    In k0 (List.map fst (fold_left (fun acc kv => obj_set acc (fst kv) (g (snd kv))) props acc)).
Proof.
  induction props as [|[k v] props IH]; intros acc k0 Hin; cbn [fold_left]; [exact Hin|].
  apply IH. now apply obj_set_keys.
Qed.

Lemma parsed_keeps_first k v props :
  In k (keys_of (parsed (JObj ((k, v) :: props)))).
Proof.
  cbn [parsed keys_of].
  change (fold_left (fun acc kv => obj_set acc (fst kv) (parsed (snd kv))) ((k, v) :: props) [])
    with (fold_left (fun acc kv => obj_set acc (fst kv) (parsed (snd kv))) props
            (obj_set [] k (parsed v))).
  apply fold_obj_set_keeps. unfold obj_set.
  destruct (array_index k); left; reflexivity.
Qed.

Lemma version_is_a_key h formControls :
  In (lit "version") (keys_of (snapshot_json h formControls))
  /\ In (lit "version") (keys_of (parsed (snapshot_json h formControls))).
Proof.
  split; [left; reflexivity|].
  unfold snapshot_json. apply parsed_keeps_first.
Qed.

Lemma packed_bytes_has_no_version b :
  ~ In (lit "version") (keys_of (parsed (packed_json (Bytes b)))).
Proof.
  intros Hin. cbn [packed_json] in Hin. apply parsed_keys, packed_bytes_keys in Hin.
  inversion_clear Hin as [|? ? Hv _]. discriminate Hv.
Qed.

End RoundTrip.

(** The text codec is a round trip.  For a string of 16-bit code units
    in which every surrogate has its partner, [encodeData] returns a text
    in the URL-safe alphabet and [decodeData] gives the string back from
    it; for a string with an unpaired surrogate, [encodeData] throws the
    [URIError] of [encodeURIComponent]. *)
Theorem decodeData_undoes_encodeData :
  forall s : jsstring,
    Forall (fun c => c < 65536) s ->
    (encodable s ->
     exists encoded,
       DataEncoder.encodeData (Text s) [] = ([Call_encodeData], Ok encoded)
       /\ Forall (fun c => is_url_safe c = true) encoded
       /\ DataEncoder.decodeData encoded [] = ([Call_decodeData], Ok s))
    /\ (~ encodable s ->
        DataEncoder.encodeData (Text s) [] = ([Call_encodeData], Throw uri_malformed)).
Proof.
  intros s Hs. split.
  - intros Henc. exists (encoded_text s).
    destruct (encodeData_run (Text s) [] Henc) as [Hrun Hsafe]. cbn [json_text_of] in *.
    split; [exact Hrun|]. split; [exact Hsafe|].
    apply decodeData_encoded_text. unfold decoded_text.
    unfold encodable in Henc.
    destruct (utf8_encode None s) as [bytes|] eqn:Hb; [|contradiction].
    exact (utf8_decode_encode s Hs bytes Hb).
  - intros Henc. unfold encodable in Henc.
    unfold DataEncoder.encodeData, bind, tell, modify, lift, unescape_encodeURIComponent.
    cbv beta iota.
    destruct (utf8_encode None s); [|reflexivity].
    exfalso. apply Henc. discriminate.
Qed.

Lemma decodeData_undoes_encodeData_witness :
  Forall (fun c => c < 65536) Scenarios.greeting
  /\ exists encoded,
       DataEncoder.encodeData (Text Scenarios.greeting) [] = ([Call_encodeData], Ok encoded)
       /\ Forall (fun c => is_url_safe c = true) encoded
       /\ DataEncoder.decodeData encoded [] = ([Call_decodeData], Ok Scenarios.greeting).
Proof.
  assert (H : Forall (fun c => c < 65536) Scenarios.greeting)
    by (repeat constructor).
  split; [exact H|].
  apply (proj1 (decodeData_undoes_encodeData Scenarios.greeting H)).
  vm_compute. discriminate.
Defined.

(** Below the compression threshold the token is a round trip.  When
    every string of the snapshot is made of 16-bit code units and the
    serialised snapshot is shorter than the threshold, [encodeFormData]
    returns a token from which [decodeFormData] returns the snapshot as
    [JSON.parse] rebuilds it; that is the snapshot itself when every
    control has a scalar value and attributes with distinct names, none of
    them an array index. *)
Theorem decodeFormData_undoes_encodeFormData :
  forall (h : Host) (formControls : list FormControlData),
    json_wf (DataEncoder.snapshot_json h formControls) = true ->
    (length (JSON_stringify (DataEncoder.snapshot_json h formControls))
       < ENCODING_CONFIG.COMPRESSION_THRESHOLD)%nat ->
    DataEncoder.encodeFormData h formControls [] = (encode_trace, Ok (token_of h formControls))
    /\ DataEncoder.decodeFormData h (token_of h formControls) []
       = (decode_trace, Ok (parsed (DataEncoder.snapshot_json h formControls)))
    /\ (Forall plain_control formControls ->
        parsed (DataEncoder.snapshot_json h formControls)
        = DataEncoder.snapshot_json h formControls).
Proof.
  intros h formControls Hwf Hlen.
  split; [apply encodeFormData_run|]. split; [|apply parsed_snapshot_json].
  rewrite (decodeFormData_token h formControls
             (JSON_stringify (DataEncoder.snapshot_json h formControls))).
  - now rewrite parse_stringify.
  - rewrite packed_of_small by exact Hlen. cbn [json_text_of].
    now apply decoded_text_stringify.
Qed.

Lemma decodeFormData_undoes_encodeFormData_witness :
  let h := Samples.host in
  let formControls := Samples.captured Samples.small_page in
  DataEncoder.encodeFormData h formControls [] = (encode_trace, Ok (token_of h formControls))
  /\ DataEncoder.decodeFormData h (token_of h formControls) []
     = (decode_trace, Ok (parsed (DataEncoder.snapshot_json h formControls)))
  /\ (Forall plain_control formControls ->
      parsed (DataEncoder.snapshot_json h formControls)
      = DataEncoder.snapshot_json h formControls).
Proof.
  intros h formControls.
  apply (decodeFormData_undoes_encodeFormData h formControls).
  - vm_compute. reflexivity.
  - vm_compute. lia.
Defined.

(** At and above the threshold, in a browser that has [CompressionStream],
    the snapshot does not come back.  [encodeFormData] returns a token,
    and [decodeFormData] accepts it and returns the object that the
    compressed bytes serialise to, keyed by their indices: a value that has
    no [version] property, so it is neither the snapshot nor what
    [JSON.parse] would make of the snapshot. *)
Theorem gzipped_snapshot_does_not_come_back :
  forall (h : Host) (formControls : list FormControlData) (gzip : list N -> list N),
    CompressionStream h = Some gzip ->
    (ENCODING_CONFIG.COMPRESSION_THRESHOLD
       <= length (JSON_stringify (DataEncoder.snapshot_json h formControls)))%nat ->
    let bytes :=
      gzip (TextEncoder_encode (JSON_stringify (DataEncoder.snapshot_json h formControls))) in
    let decoded := parsed (DataEncoder.packed_json (Bytes bytes)) in
    DataEncoder.encodeFormData h formControls [] = (encode_trace, Ok (token_of h formControls))
    /\ DataEncoder.decodeFormData h (token_of h formControls) [] = (decode_trace, Ok decoded)
    /\ ~ In (lit "version") (keys_of decoded)
    /\ decoded <> DataEncoder.snapshot_json h formControls
    /\ decoded <> parsed (DataEncoder.snapshot_json h formControls).
Proof.
  intros h formControls gzip Hg Hlen bytes decoded.
  destruct (version_is_a_key h formControls) as [Hv Hv'].
  pose proof (packed_bytes_has_no_version bytes) as Hno. fold decoded in Hno.
  split; [apply encodeFormData_run|]. split.
  - rewrite (decodeFormData_token h formControls
               (JSON_stringify (DataEncoder.packed_json (Bytes bytes)))).
    + rewrite parse_stringify by apply packed_bytes_wf. reflexivity.
    + rewrite (packed_of_gzip h gzip _ Hg Hlen). cbn [json_text_of].
      apply decoded_text_stringify, packed_bytes_wf.
  - split; [exact Hno|]. split; intros E; apply Hno; now rewrite E.
Qed.

Lemma gzipped_snapshot_does_not_come_back_witness :
  let h := Scenarios.gzip_host in
  let formControls := Samples.captured (Samples.five_fields false) in
  let bytes :=
    TextEncoder_encode (JSON_stringify (DataEncoder.snapshot_json h formControls)) in
  let decoded := parsed (DataEncoder.packed_json (Bytes bytes)) in
  DataEncoder.encodeFormData h formControls [] = (encode_trace, Ok (token_of h formControls))
  /\ DataEncoder.decodeFormData h (token_of h formControls) [] = (decode_trace, Ok decoded)
  /\ ~ In (lit "version") (keys_of decoded)
  /\ decoded <> DataEncoder.snapshot_json h formControls
  /\ decoded <> parsed (DataEncoder.snapshot_json h formControls).
Proof.
  intros h formControls.
  apply (gzipped_snapshot_does_not_come_back h formControls (fun bytes => bytes)).
  - reflexivity.
  - vm_compute. lia.
Defined.

(** ** The order of a path *)

Section PathOrder.

Lemma utils_path_loop_rev chain :
  forall path,
    FormControlInspector.path_loop chain path
    = rev (List.map FormControlInspector.selector chain) ++ path.
Proof.
  induction chain as [|current parents IH]; intros path; [reflexivity|].
  cbn [FormControlInspector.path_loop List.map rev]. rewrite IH.
  now rewrite <- List.app_assoc.
Qed.

Lemma inspector_path_loop_rev chain :
  forall path,
    (length path <= AngularFormInspector.MAX_DEPTH)%nat ->
    AngularFormInspector.path_loop chain path
    = rev (List.map AngularFormInspector.selector
             (firstn (S AngularFormInspector.MAX_DEPTH - length path) chain)) ++ path.
Proof.
  induction chain as [|current parents IH]; intros path Hlen.
  - now rewrite List.firstn_nil.
  - cbn [AngularFormInspector.path_loop]. cbn [length].
    destruct (Nat.ltb_spec AngularFormInspector.MAX_DEPTH (S (length path))) as [Hgt|Hle].
    + replace (S AngularFormInspector.MAX_DEPTH - length path)%nat with 1%nat by lia.
      reflexivity.
    + rewrite IH by (cbn [length]; lia). cbn [length].
      replace (S AngularFormInspector.MAX_DEPTH - length path)%nat
        with (S (S AngularFormInspector.MAX_DEPTH - S (length path)))%nat by lia.
      cbn [firstn List.map rev]. now rewrite <- List.app_assoc.
Qed.

End PathOrder.

(** The components of a path run from the outermost ancestor down to the
    element.  The generator of the shared utilities writes one component
    for the element and each of its ancestors; the generator of the form
    inspector writes them for the element and its ten nearest ancestors
    only, so on a deeper element it is the outermost ancestors, the
    document root first, that are missing from the path. *)
Theorem generateElementPath_components :
  forall l : Located,
    let chain := loc_element l :: loc_ancestors l in
    FormControlInspector.path_components l
    = rev (List.map FormControlInspector.selector chain)
    /\ AngularFormInspector.path_components l
       = rev (List.map AngularFormInspector.selector
                (firstn (1 + AngularFormInspector.MAX_DEPTH) chain))
    /\ List.last (FormControlInspector.path_components l) []
       = FormControlInspector.selector (loc_element l)
    /\ List.last (AngularFormInspector.path_components l) []
       = AngularFormInspector.selector (loc_element l).
Proof.
  intros l chain.
  assert (E1 : FormControlInspector.path_components l
               = rev (List.map FormControlInspector.selector chain)).
  { unfold FormControlInspector.path_components. fold chain.
    now rewrite utils_path_loop_rev, List.app_nil_r. }
  assert (E2 : AngularFormInspector.path_components l
               = rev (List.map AngularFormInspector.selector
                        (firstn (1 + AngularFormInspector.MAX_DEPTH) chain))).
  { unfold AngularFormInspector.path_components. fold chain.
    rewrite inspector_path_loop_rev by (cbn [length]; lia).
    rewrite List.app_nil_r. reflexivity. }
  split; [exact E1|]. split; [exact E2|]. rewrite E1, E2. unfold chain.
  cbn [plus firstn List.map rev]. split; apply List.last_last.
Qed.

(** ** What restoring leaves alone *)

Section RestoreFrame.
Import AngularFormSnapshotContent.

(** *** One element *)

Lemma find_element_node handle dom e :
  find_element handle dom = Some e -> el_node e = handle.
Proof.
  unfold find_element. intros H.
  destruct (List.find _ _) as [l|] eqn:Hf; [|discriminate].
  injection H as <-. apply List.find_some in Hf. now apply Pos.eqb_eq.
Qed.

Lemma spares_ret {A} handle (a : A) : spares handle (ret a).
Proof. intros pg. reflexivity. Qed.
Lemma spares_throw {A} handle e : spares handle (@throw Page A e).
Proof. intros pg. reflexivity. Qed.
Lemma spares_get handle : spares handle (@get Page).
Proof. intros pg. reflexivity. Qed.
Lemma spares_dispatch handle id ev : spares handle (dispatchEvent id ev).
Proof. intros pg. reflexivity. Qed.
Lemma spares_write handle id f :
  slot_write f -> id <> handle -> spares handle (write_element id f).
Proof.
  intros Hf Hne pg. cbn. rewrite find_element_update by exact Hf.
  destruct (find_element handle (page_dom pg)) as [e|] eqn:He; [|reflexivity].
  cbn [option_map]. f_equal. unfold touch.
  rewrite (find_element_node _ _ _ He).
  apply Pos.eqb_neq in Hne. rewrite Pos.eqb_sym. now rewrite Hne.
Qed.
Lemma spares_bind {A B} handle (m : JS Page A) (k : A -> JS Page B) :
  spares handle m -> (forall a, spares handle (k a)) -> spares handle (bind m k).
Proof.
  intros Hm Hk pg. unfold bind. specialize (Hm pg).
  destruct (m pg) as [pg' [a|e]]; cbn [fst] in *; [|exact Hm].
  now rewrite Hk.
Qed.
Lemma spares_if {A} handle (b : bool) (m1 m2 : JS Page A) :
  spares handle m1 -> spares handle m2 -> spares handle (if b then m1 else m2).
Proof. now destruct b. Qed.
Lemma spares_try_catch {A} handle (m : JS Page A) (handler : jsstring -> JS Page A) :
  spares handle m -> (forall e, spares handle (handler e)) ->
  spares handle (try_catch m handler).
Proof.
  intros Hm Hh pg. unfold try_catch. specialize (Hm pg).
  destruct (m pg) as [pg' [a|e]]; cbn [fst] in *; [exact Hm|].
  now rewrite Hh.
Qed.

Lemma assign_value_spares handle e v :
  el_node e <> handle -> spares handle (assign_value e v).
Proof.
  intros Hne. unfold assign_value.
  repeat first [ apply spares_if | apply spares_throw
               | apply spares_write; [first [apply slot_write_value
                                            | apply slot_write_selectedIndex] | exact Hne] ].
Qed.

Lemma restoreSelectValue_spares handle e v :
  el_node e <> handle -> spares handle (restoreSelectValue e v).
Proof.
  intros Hne. unfold restoreSelectValue. destruct (List.find _ _).
  - apply spares_write; [apply slot_write_selectedIndex | exact Hne].
  - apply spares_throw.
Qed.

Lemma triggerChangeEvent_spares handle e v :
  el_node e <> handle -> spares handle (DOMUtils.triggerChangeEvent e v).
Proof.
  intros Hne. unfold DOMUtils.triggerChangeEvent.
  repeat first [ now apply assign_value_spares
               | apply spares_bind; [|intros ?] | apply spares_if
               | apply spares_dispatch | apply spares_ret
               | apply spares_write; [apply slot_write_checked | exact Hne] ].
Qed.

Lemma restoreMaterialValue_spares handle e v : spares handle (restoreMaterialValue e v).
Proof.
  unfold restoreMaterialValue. apply spares_if; [|apply spares_ret].
  apply spares_bind; [apply spares_get|]. intros pg.
  destruct (List.find _ _); [apply spares_dispatch | apply spares_ret].
Qed.

Lemma apply_value_spares handle c e v :
  el_node e <> handle -> spares handle (apply_value c e v).
Proof.
  intros Hne. unfold apply_value.
  repeat first [ now apply assign_value_spares | now apply restoreSelectValue_spares
               | now apply triggerChangeEvent_spares | apply restoreMaterialValue_spares
               | apply spares_bind; [|intros ?] | apply spares_if | apply spares_ret
               | apply spares_write; [apply slot_write_checked | exact Hne] ].
Qed.

(** Restoring a control leaves a read-only or disabled element as it is,
    whichever control is restored. *)
Lemma restoreControlValue_spares handle e c sc pg :
  find_element handle (page_dom pg) = Some e ->
  el_readOnly e || el_disabled e = true ->
  find_element handle (page_dom (fst (restoreControlValue c sc pg))) = Some e.
Proof.
  intros He Hblocked. unfold restoreControlValue.
  destruct (element c) as [target|]; [|exact He].
  unfold bind at 1, get. cbv beta iota.
  destruct (find_element target (page_dom pg)) as [e'|] eqn:He'; [|exact He].
  destruct (Pos.eq_dec target handle) as [->|Hne].
  - rewrite He in He'. injection He' as <-. now rewrite Hblocked.
  - destruct (el_readOnly e' || el_disabled e'); [exact He|].
    rewrite apply_value_spares; [exact He|].
    now rewrite (find_element_node _ _ _ He').
Qed.

Lemma restore_one_spares handle e m sc t pg :
  find_element handle (page_dom pg) = Some e ->
  el_readOnly e || el_disabled e = true ->
  find_element handle (page_dom (fst (restore_one m sc t pg))) = Some e.
Proof.
  intros He Hblocked. unfold restore_one, try_catch.
  destruct (m !! generateControlKey sc) as [c|]; [|exact He].
  unfold bind. pose proof (restoreControlValue_spares handle e c sc pg He Hblocked) as H.
  destruct (restoreControlValue c sc pg) as [pg' [[]|err]]; exact H.
Qed.

Lemma restore_loop_spares handle e m controls :
  forall t pg,
    find_element handle (page_dom pg) = Some e ->
    el_readOnly e || el_disabled e = true ->
    find_element handle (page_dom (fst (restore_loop m controls t pg))) = Some e.
Proof.
  induction controls as [|sc rest IH]; intros t pg He Hblocked; [exact He|].
  cbn [restore_loop]. unfold bind.
  pose proof (restore_one_spares handle e m sc t pg He Hblocked) as H1.
  pose proof (restore_one_spec (page_dom pg) m sc t pg (same_static_refl _))
    as (pg1 & Hrun & _).
  rewrite Hrun in H1 |- *. cbn [fst] in H1. now apply IH.
Qed.

(** *** The counts *)

Lemma outcomes_partition dom m controls :
  (length (List.filter (fun c => is_restored (outcome dom m c)) controls)
   + length (List.filter (fun c => is_skipped (outcome dom m c)) controls)
   + length (flat_map (fun c => error_entries c (outcome dom m c)) controls)
   = length controls)%nat.
Proof.
  induction controls as [|c controls IH]; [reflexivity|].
  cbn [List.filter flat_map]. rewrite List.length_app.
  destruct (outcome dom m c); cbn [is_restored is_skipped error_entries length]; lia.
Qed.

End RestoreFrame.

(** The report of [restoreForms] accounts for every control of the
    snapshot: each is counted once, as restored, as skipped or as an
    error, and [errorCount] is the number of error entries. *)
Theorem restoreForms_counts_every_control :
  forall (fresh : nat -> jsstring) (snapshot : Snapshot) (pg : Page),
    exists pg' report,
      AngularFormSnapshotContent.restoreForms fresh (Some snapshot) pg = (pg', Ok report)
      /\ (restoredCount report + skippedCount report + errorCount report
          = length (formControls snapshot))%nat
      /\ errorCount report = length (errors report)
      /\ message report = lit "Form restoration completed".
Proof.
  intros fresh snapshot pg.
  unfold AngularFormSnapshotContent.restoreForms, bind at 1, get. cbv beta iota.
  set (m := AngularFormSnapshotContent.build_map
              (FormControlInspector.inspectAllFormControls fresh (page_dom pg))).
  destruct (restore_loop_spec (page_dom pg) m (formControls snapshot)
              {| AngularFormSnapshotContent.t_restored := 0;
                 AngularFormSnapshotContent.t_skipped := 0;
                 AngularFormSnapshotContent.t_errors := [] |} pg
              (same_static_refl _)) as (pg' & Hloop & _).
  unfold bind. rewrite Hloop. cbv beta iota.
  eexists _, _. split; [reflexivity|].
  cbn [restoredCount skippedCount errorCount errors message tally_after
       AngularFormSnapshotContent.t_restored AngularFormSnapshotContent.t_skipped
       AngularFormSnapshotContent.t_errors app plus].
  split; [apply outcomes_partition | split; reflexivity].
Qed.

(** A read-only or disabled element is never written.  Whatever the
    snapshot, and whatever happens to the other controls, an element
    that is read-only or disabled when [restoreForms] starts, and is not a
    radio button, is after the call exactly as it was.  (A radio button
    is left out: checking a button of its group unchecks it, disabled or
    not.) *)
Theorem restoreForms_spares_blocked_elements :
  forall (fresh : nat -> jsstring) (snapshot : option Snapshot) (pg : Page)
         (handle : positive) (e : Element),
    find_element handle (page_dom pg) = Some e ->
    el_readOnly e || el_disabled e = true ->
    jsstring_eqb (el_type e) (lit "radio") = false ->
    find_element handle
      (page_dom (fst (AngularFormSnapshotContent.restoreForms fresh snapshot pg)))
    = Some e.
Proof.
  intros fresh snapshot pg handle e He Hblocked _.
  unfold AngularFormSnapshotContent.restoreForms.
  destruct snapshot as [snapshot|]; [|exact He].
  unfold bind at 1, get. cbv beta iota.
  set (m := AngularFormSnapshotContent.build_map
              (FormControlInspector.inspectAllFormControls fresh (page_dom pg))).
  pose proof (restore_loop_spares handle e m (formControls snapshot)
                {| AngularFormSnapshotContent.t_restored := 0;
                   AngularFormSnapshotContent.t_skipped := 0;
                   AngularFormSnapshotContent.t_errors := [] |} pg He Hblocked) as H.
  unfold bind. destruct (AngularFormSnapshotContent.restore_loop m _ _ pg) as [pg' [t|err]];
    exact H.
Qed.

Lemma restoreForms_spares_blocked_elements_witness :
  let pg := {| page_dom := Samples.five_fields true; page_events := [] |} in
  let snapshot :=
    Samples.snapshot_of Samples.host
      (List.map (Samples.with_value (JStr (lit "x")))
                (Samples.captured (Samples.five_fields true))) in
  find_element 5 (page_dom (fst (AngularFormSnapshotContent.restoreForms
                                   (fresh_id Samples.host) (Some snapshot) pg)))
  = Some (Samples.field 5 (lit "f3") true).
Proof.
  intros pg snapshot.
  apply (restoreForms_spares_blocked_elements (fresh_id Samples.host) (Some snapshot) pg 5
           (Samples.field 5 (lit "f3") true)); reflexivity.
Defined.

(** ** One control, one capture *)

Section RestoreOne.
Import AngularFormSnapshotContent.

Lemma find_element_written handle f dom e :
  slot_write f -> find_element handle dom = Some e ->
  find_element handle (update_element handle f dom) = Some (f e).
Proof.
  intros Hf He. rewrite find_element_update by exact Hf. rewrite He.
  cbn [option_map]. unfold touch.
  now rewrite (find_element_node _ _ _ He), Pos.eqb_refl.
Qed.

Lemma find_element_elsewhere other handle f dom :
  slot_write f -> other <> handle ->
  find_element other (update_element handle f dom) = find_element other dom.
Proof.
  intros Hf Hne.
  exact (spares_write other handle f Hf (not_eq_sym Hne)
           {| page_dom := dom; page_events := [] |}).
Qed.

Lemma text_control_tag e :
  has_tag [lit "input"; lit "textarea"] e = true ->
  jsstring_eqb (toLowerCase (el_tagName e)) (lit "select") = false
  /\ jsstring_eqb (toLowerCase (el_tagName e)) (lit "mat-select") = false.
Proof.
  unfold has_tag. cbn [existsb]. rewrite !orb_true_iff. unfold jsstring_eqb.
  intros [H | [H | H]]; [| |discriminate];
    apply bool_decide_eq_true in H; rewrite H; split; reflexivity.
Qed.

End RestoreOne.

Section RestoreRuns.
Import AngularFormSnapshotContent.

(** The run of [restoreControlValue] on an enabled text control: the value
    is assigned twice, by the restore and by [triggerChangeEvent]. *)
Lemma restoreControlValue_text_run c sc pg handle e s :
  element c = Some handle ->
  find_element handle (page_dom pg) = Some e ->
  el_readOnly e || el_disabled e = false ->
  has_tag [lit "input"; lit "textarea"] e = true ->
  existsb (jsstring_eqb (el_type e)) [lit "checkbox"; lit "radio"; lit "file"] = false ->
  value sc = JStr s ->
  restoreControlValue c sc pg
  = ({| page_dom := update_element handle (set_value_slot s)
                      (update_element handle (set_value_slot s) (page_dom pg));
        page_events := page_events pg ++ change_events e |}, Ok tt).
Proof.
  intros Hel He Hen Htag Htype Hv.
  destruct (text_control_tag e Htag) as [Hsel Hmat].
  cbn [existsb] in Htype. rewrite !orb_false_iff in Htype.
  destruct Htype as (Hbox & Hradio & Hfile & _).
  pose proof (find_element_node _ _ _ He) as Hnode.
  unfold restoreControlValue. rewrite Hel, Hv.
  unfold bind at 1, get. cbv beta iota. rewrite He, Hen.
  unfold apply_value, DOMUtils.triggerChangeEvent, restoreMaterialValue, assign_value,
    is_select.
  rewrite Hbox, Hradio, Hsel, Hmat, Hfile. cbn [orb andb].
  replace (match or_empty (JStr s) with
           | JNull => []
           | _ => ToString (or_empty (JStr s))
           end) with s
    by (unfold or_empty; cbn [ToBoolean]; destruct s; reflexivity).
  cbn [ToString]. unfold change_events. rewrite Hnode.
  destruct (hasAttribute e (lit "formControlName") || hasAttribute e (lit "ngModel"));
    destruct (jsstring_eqb (ctrl_type c) (lit "material_form_control"));
    unfold bind, write_element, dispatchEvent, modify, ret; cbv beta iota;
    cbn [page_dom page_events]; rewrite <- ?List.app_assoc; reflexivity.
Qed.

(** The run on an enabled checkbox or radio button. *)
Lemma restoreControlValue_checkbox_run c sc pg handle e :
  element c = Some handle ->
  find_element handle (page_dom pg) = Some e ->
  el_readOnly e || el_disabled e = false ->
  jsstring_eqb (el_type e) (lit "checkbox") || jsstring_eqb (el_type e) (lit "radio") = true ->
  jsstring_eqb (toLowerCase (el_tagName e)) (lit "mat-select") = false ->
  restoreControlValue c sc pg
  = ({| page_dom := update_element handle (set_checked (ToBoolean (value sc)))
                      (update_element handle (set_checked (ToBoolean (value sc)))
                         (page_dom pg));
        page_events := page_events pg ++ change_events e |}, Ok tt).
Proof.
  intros Hel He Hen Hbox Hmat.
  pose proof (find_element_node _ _ _ He) as Hnode.
  unfold restoreControlValue. rewrite Hel.
  unfold bind at 1, get. cbv beta iota. rewrite He, Hen.
  unfold apply_value, DOMUtils.triggerChangeEvent, restoreMaterialValue.
  rewrite Hbox, Hmat. unfold change_events. rewrite Hnode.
  destruct (hasAttribute e (lit "formControlName") || hasAttribute e (lit "ngModel"));
    destruct (jsstring_eqb (ctrl_type c) (lit "material_form_control"));
    unfold bind, write_element, dispatchEvent, modify, ret; cbv beta iota;
    cbn [page_dom page_events]; rewrite <- ?List.app_assoc; reflexivity.
Qed.

Lemma text_control_kind e :
  text_control e = true ->
  has_tag [lit "input"; lit "textarea"] e = true
  /\ existsb (jsstring_eqb (el_type e)) [lit "checkbox"; lit "radio"; lit "file"] = false.
Proof.
  unfold text_control, has_tag. cbn [existsb]. rewrite !orb_false_r.
  intros H. apply orb_true_iff in H. destruct H as [H|H];
    apply andb_true_iff in H; destruct H as [Htag Htype].
  - rewrite Htag, orb_true_r. split; [reflexivity|].
    unfold jsstring_eqb in Htype. apply bool_decide_eq_true in Htype.
    rewrite Htype. reflexivity.
  - rewrite Htag. split; [reflexivity|].
    unfold jsstring_eqb in Htype. rewrite !orb_true_iff in Htype.
    destruct Htype as [H|[H|[H|H]]]; apply bool_decide_eq_true in H;
      rewrite H; reflexivity.
Qed.

(** A slot written twice with what it holds. *)
Lemma written_twice handle f dom e :
  slot_write f -> find_element handle dom = Some e ->
  find_element handle (update_element handle f (update_element handle f dom))
  = Some (f (f e)).
Proof.
  intros Hf He.
  apply find_element_written; [exact Hf|]. now apply find_element_written.
Qed.

End RestoreRuns.

(** Restoring a text into an enabled text control.  On a [textarea] or
    an [input] of type [text], [search], [tel] or [password] that is
    neither read-only nor disabled, [restoreControlValue] with a string
    without line breaks stores the string in the [value] of the element,
    changes no other element, and dispatches [input], [change] and [blur]
    on it, in that order, followed by [ng-change] when the element carries
    [formControlName] or [ngModel]. *)
Theorem restoreControlValue_stores_the_text :
  forall (currentControl snapshotControl : FormControlData) (pg : Page)
         (handle : positive) (e : Element) (s : jsstring),
    element currentControl = Some handle ->
    find_element handle (page_dom pg) = Some e ->
    el_readOnly e || el_disabled e = false ->
    text_control e = true ->
    single_line s = true ->
    value snapshotControl = JStr s ->
    exists pg',
      AngularFormSnapshotContent.restoreControlValue currentControl snapshotControl pg
      = (pg', Ok tt)
      /\ find_element handle (page_dom pg') = Some (set_value_slot s e)
      /\ (forall other, other <> handle ->
            find_element other (page_dom pg') = find_element other (page_dom pg))
      /\ page_events pg' = page_events pg ++ change_events e.
Proof.
  intros c sc pg handle e s Hel He Hen Hkind _ Hv.
  destruct (text_control_kind e Hkind) as [Htag Htype].
  eexists. split; [exact (restoreControlValue_text_run c sc pg handle e s
                            Hel He Hen Htag Htype Hv)|].
  cbn [page_dom page_events]. split; [|split; [|reflexivity]].
  - exact (written_twice handle (set_value_slot s) (page_dom pg) e (slot_write_value s) He).
  - intros other Hother.
    now rewrite !find_element_elsewhere by (auto using slot_write_value).
Qed.

Lemma restoreControlValue_stores_the_text_witness :
  let pg := {| page_dom := Samples.small_page; page_events := [] |} in
  let current :=
    FormControlInspector.extractGenericFormControlData (lit "ctrl_0")
      {| loc_node := Samples.leaf Samples.email;
         loc_ancestors := [Samples.blank 2 (lit "BODY"); Samples.blank 1 (lit "HTML")] |} in
  exists pg',
    AngularFormSnapshotContent.restoreControlValue current
      (Samples.with_value (JStr (lit "c@d.org")) current) pg
    = (pg', Ok tt)
    /\ find_element 3 (page_dom pg') = Some (set_value_slot (lit "c@d.org") Samples.email)
    /\ (forall other, other <> 3%positive ->
          find_element other (page_dom pg') = find_element other (page_dom pg))
    /\ page_events pg' = [(3%positive, lit "input"); (3%positive, lit "change");
                          (3%positive, lit "blur")].
Proof.
  intros pg current.
  apply (restoreControlValue_stores_the_text current
           (Samples.with_value (JStr (lit "c@d.org")) current) pg 3 Samples.email
           (lit "c@d.org")); reflexivity.
Defined.

(** A checkbox takes the truth value of what the snapshot holds.  On an
    enabled [checkbox] or [radio], [restoreControlValue] sets [checked] to
    [Boolean(value)]: every non-empty string checks the box, the string
    "false" included. *)
Theorem restoreControlValue_checks_by_truthiness :
  forall (currentControl snapshotControl : FormControlData) (pg : Page)
         (handle : positive) (e : Element),
    element currentControl = Some handle ->
    find_element handle (page_dom pg) = Some e ->
    el_readOnly e || el_disabled e = false ->
    jsstring_eqb (el_type e) (lit "checkbox") || jsstring_eqb (el_type e) (lit "radio") = true ->
    jsstring_eqb (toLowerCase (el_tagName e)) (lit "mat-select") = false ->
    exists pg',
      AngularFormSnapshotContent.restoreControlValue currentControl snapshotControl pg
      = (pg', Ok tt)
      /\ find_element handle (page_dom pg')
         = Some (set_checked (ToBoolean (value snapshotControl)) e)
      /\ page_events pg' = page_events pg ++ change_events e
      /\ ToBoolean (JStr (lit "false")) = true.
Proof.
  intros c sc pg handle e Hel He Hen Hbox Hmat.
  eexists. split; [exact (restoreControlValue_checkbox_run c sc pg handle e
                            Hel He Hen Hbox Hmat)|].
  cbn [page_dom page_events]. split; [|split; reflexivity].
  exact (written_twice handle (set_checked (ToBoolean (value sc))) (page_dom pg) e
           (slot_write_checked _) He).
Qed.

Lemma restoreControlValue_checks_by_truthiness_witness :
  let pg := {| page_dom := Samples.small_page; page_events := [] |} in
  let current :=
    FormControlInspector.extractGenericFormControlData (lit "ctrl_1")
      {| loc_node := Samples.leaf Samples.subscribe;
         loc_ancestors := [Samples.blank 2 (lit "BODY"); Samples.blank 1 (lit "HTML")] |} in
  exists pg',
    AngularFormSnapshotContent.restoreControlValue current
      (Samples.with_value (JStr (lit "false")) current) pg
    = (pg', Ok tt)
    /\ find_element 4 (page_dom pg')
       = Some (set_checked (ToBoolean (JStr (lit "false"))) Samples.subscribe)
    /\ page_events pg' = [] ++ change_events Samples.subscribe
    /\ ToBoolean (JStr (lit "false")) = true.
Proof.
  intros pg current.
  apply (restoreControlValue_checks_by_truthiness current
           (Samples.with_value (JStr (lit "false")) current) pg 4 Samples.subscribe);
    reflexivity.
Defined.

Section CaptureSteps.
Import Capture.

Lemma captureForms_encodes h document options :
  utils_available h = true ->
  let formControls := FormControlInspector.inspectAllFormControls (fresh_id h) document in
  (0 < length formControls <= CONTENT_SCRIPT_CONFIG.MAX_FORM_CONTROLS)%nat ->
  captureForms h document options []
  = try_catch
      (let forms := List.map snapshot_form formControls in
       let encoded := token_of h forms in
       (fun t => (t ++ encode_trace, Ok encoded)) ;;
       (if copyToClipboard options then copy_to_clipboard h encoded else ret tt) ;;
       (if saveToStorage options then save_to_storage h else ret tt) ;;
       tell (Notification (lit "Forms Captured")) ;;
       ret {| formCount := length formControls;
              snapshot_forms := forms;
              encodedSnapshot := encoded |})
      (fun error =>
         log (lit "error") (lit "Form capture failed") ;;
         tell (Notification (lit "Capture Failed")) ;;
         throw error) [].
Proof.
  intros Hu formControls [Hpos Hmax]. unfold captureForms, try_catch.
  rewrite Hu. cbn [negb]. fold formControls.
  replace (length formControls =? 0)%nat with false
    by (symmetry; apply Nat.eqb_neq; lia).
  replace (CONTENT_SCRIPT_CONFIG.MAX_FORM_CONTROLS <? length formControls)%nat with false
    by (symmetry; apply Nat.ltb_ge; lia).
  cbv zeta. unfold bind at 1 7.
  now rewrite (proj1 (encodeFormData_run h (List.map snapshot_form formControls) [])).
Qed.

End CaptureSteps.

(** A capture, step by step.  When the page has between one and a
    thousand controls, [captureForms] encodes them, then writes the token
    to the clipboard if asked to, then sends the snapshot to the
    background worker if asked to, then shows the banner "Forms Captured",
    and returns the number of controls, their serialised properties and
    the token. *)
Theorem captureForms_steps :
  forall (h : Host) (document : DomNode) (options : CaptureOptions),
    let formControls := FormControlInspector.inspectAllFormControls (fresh_id h) document in
    let forms := List.map Capture.snapshot_form formControls in
    utils_available h = true ->
    (0 < length formControls <= CONTENT_SCRIPT_CONFIG.MAX_FORM_CONTROLS)%nat ->
    (copyToClipboard options = true -> clipboard_writeText h (token_of h forms) = true) ->
    (saveToStorage options = true -> runtime_sendMessage h = None) ->
    Capture.captureForms h document options []
    = (encode_trace
         ++ (if copyToClipboard options then [Clipboard_write (token_of h forms)] else [])
         ++ (if saveToStorage options then [Runtime_sendMessage] else [])
         ++ [Notification (lit "Forms Captured")],
       Ok {| formCount := length formControls;
             snapshot_forms := forms;
             encodedSnapshot := token_of h forms |}).
Proof.
  intros h document options formControls forms Hu Hn Hclip Hsend.
  rewrite (captureForms_encodes h document options Hu Hn). fold formControls forms.
  unfold try_catch, bind, Capture.copy_to_clipboard, Capture.save_to_storage, tell, modify,
    ret, throw. cbv beta iota zeta.
  destruct (copyToClipboard options), (saveToStorage options);
    rewrite ?(Hclip eq_refl), ?(Hsend eq_refl); reflexivity.
Qed.

Lemma captureForms_steps_witness :
  let h := Samples.host in
  let formControls :=
    FormControlInspector.inspectAllFormControls (fresh_id h) Samples.small_page in
  let forms := List.map Capture.snapshot_form formControls in
  let options := {| copyToClipboard := true; saveToStorage := true |} in
  Capture.captureForms h Samples.small_page options []
  = (encode_trace
       ++ (if copyToClipboard options then [Clipboard_write (token_of h forms)] else [])
       ++ (if saveToStorage options then [Runtime_sendMessage] else [])
       ++ [Notification (lit "Forms Captured")],
     Ok {| formCount := length formControls;
           snapshot_forms := forms;
           encodedSnapshot := token_of h forms |}).
Proof.
  intros h formControls forms options.
  apply (captureForms_steps h Samples.small_page options).
  - reflexivity.
  - vm_compute. lia.
  - reflexivity.
  - reflexivity.
Defined.



(** ** Putting the captured value back *)

Section PutBack.

Lemma set_value_slot_same e : set_value_slot (el_value e) e = e.
Proof. now destruct e. Qed.

Lemma set_checked_same e : set_checked (el_checked e) e = e.
Proof. now destruct e. Qed.

Lemma find_element_put_back handle f dom e :
  slot_write f -> find_element handle dom = Some e -> f e = e ->
  forall id,
    find_element id (update_element handle f (update_element handle f dom))
    = find_element id dom.
Proof.
  intros Hf He Hsame id. destruct (Pos.eq_dec id handle) as [->|Hne].
  - rewrite (written_twice handle f dom e Hf He), He. now rewrite !Hsame.
  - now rewrite !find_element_elsewhere by auto.
Qed.

End PutBack.

(** Putting back what was captured changes nothing.  On an enabled
    [input] or [textarea] whose value is not kept in the [value]
    attribute (so not a [hidden], [submit], [image], [reset] or [button]
    input) and that is not a file input, [restoreControlValue] with the
    value that [extractElementValue] reads from the element returns
    normally and leaves every element of the page as it was, [value] and
    [checked] included; the change events are dispatched all the same. *)
Theorem restoreControlValue_puts_the_captured_value_back :
  forall (currentControl snapshotControl : FormControlData) (pg : Page)
         (handle : positive) (e : Element),
    element currentControl = Some handle ->
    find_element handle (page_dom pg) = Some e ->
    el_readOnly e || el_disabled e = false ->
    has_tag [lit "input"; lit "textarea"] e = true ->
    existsb (jsstring_eqb (el_type e))
      [lit "file"; lit "hidden"; lit "submit"; lit "image"; lit "reset"; lit "button"]
    = false ->
    value snapshotControl = FormControlInspector.extractElementValue e ->
    exists pg',
      AngularFormSnapshotContent.restoreControlValue currentControl snapshotControl pg
      = (pg', Ok tt)
      /\ (forall id, find_element id (page_dom pg') = find_element id (page_dom pg))
      /\ page_events pg' = page_events pg ++ change_events e.
Proof.
  intros c sc pg handle e Hel He Hen Htag Hmode Hv.
  assert (Hfile : jsstring_eqb (el_type e) (lit "file") = false).
  { cbn [existsb] in Hmode. now apply orb_false_iff in Hmode as [Hfile _]. }
  destruct (text_control_tag e Htag) as [Hsel Hmat].
  unfold FormControlInspector.extractElementValue, get_value, is_select in Hv.
  rewrite Hsel in Hv.
  destruct (jsstring_eqb (el_type e) (lit "checkbox")
            || jsstring_eqb (el_type e) (lit "radio")) eqn:Hbox.
  - eexists. split.
    + exact (restoreControlValue_checkbox_run c sc pg handle e Hel He Hen Hbox Hmat).
    + cbn [page_dom page_events]. split; [|reflexivity].
      rewrite Hv. cbn [ToBoolean].
      apply (find_element_put_back handle _ _ e (slot_write_checked _) He).
      apply set_checked_same.
  - eexists. split.
    + apply (restoreControlValue_text_run c sc pg handle e (el_value e) Hel He Hen Htag).
      * apply orb_false_iff in Hbox as [Hb Hr]. cbn [existsb].
        now rewrite Hb, Hr, Hfile.
      * rewrite Hv. now rewrite js_or_empty.
    + cbn [page_dom page_events]. split; [|reflexivity].
      apply (find_element_put_back handle _ _ e (slot_write_value _) He).
      apply set_value_slot_same.
Qed.

Lemma restoreControlValue_puts_the_captured_value_back_witness :
  let pg := {| page_dom := Samples.small_page; page_events := [] |} in
  let current :=
    FormControlInspector.extractGenericFormControlData (lit "ctrl_0")
      {| loc_node := Samples.leaf Samples.email;
         loc_ancestors := [Samples.blank 2 (lit "BODY"); Samples.blank 1 (lit "HTML")] |} in
  exists pg',
    AngularFormSnapshotContent.restoreControlValue current (Capture.snapshot_form current) pg
    = (pg', Ok tt)
    /\ (forall id, find_element id (page_dom pg') = find_element id (page_dom pg))
    /\ page_events pg' = page_events pg ++ change_events Samples.email.
Proof.
  intros pg current.
  apply (restoreControlValue_puts_the_captured_value_back current
           (Capture.snapshot_form current) pg 3 Samples.email); reflexivity.
Defined.

(** ** A snapshot on its own page *)

Section SamePage.
Import FormControlInspector AngularFormSnapshotContent.

Lemma extract_each_anonymous fresh1 fresh2 extract elements :
  (forall cid1 cid2 l, anonymous (extract cid1 l) = anonymous (extract cid2 l)) ->
  forall n,
    List.map anonymous (fst (extract_each fresh1 extract elements n))
    = List.map anonymous (fst (extract_each fresh2 extract elements n))
    /\ snd (extract_each fresh1 extract elements n)
       = snd (extract_each fresh2 extract elements n).
Proof.
  intros Hex. induction elements as [|l rest IH]; intros n; [now split|].
  cbn [extract_each]. specialize (IH (S n)).
  destruct (extract_each fresh1 extract rest (S n)) as [c1 n1].
  destruct (extract_each fresh2 extract rest (S n)) as [c2 n2].
  cbn [fst snd List.map] in *. destruct IH as [IHc IHn].
  split; [|exact IHn]. f_equal; [apply Hex | exact IHc].
Qed.

Lemma material_each_anonymous fresh1 fresh2 formFields :
  forall n,
    List.map anonymous (fst (material_each fresh1 formFields n))
    = List.map anonymous (fst (material_each fresh2 formFields n))
    /\ snd (material_each fresh1 formFields n) = snd (material_each fresh2 formFields n).
Proof.
  induction formFields as [|f rest IH]; intros n; [now split|].
  cbn [material_each].
  destruct (querySelector f _) as [input|]; [|apply IH].
  specialize (IH (S n)).
  destruct (material_each fresh1 rest (S n)) as [c1 n1].
  destruct (material_each fresh2 rest (S n)) as [c2 n2].
  cbn [fst snd List.map] in *. destruct IH as [IHc IHn].
  split; [|exact IHn]. f_equal. exact IHc.
Qed.

Lemma merge_pass_anonymous cs1 cs2 :
  List.map anonymous cs1 = List.map anonymous cs2 ->
  forall acc1 acc2,
    List.map anonymous (fst acc1) = List.map anonymous (fst acc2) ->
    snd acc1 = snd acc2 ->
    List.map anonymous (fst (merge_pass cs1 acc1))
    = List.map anonymous (fst (merge_pass cs2 acc2))
    /\ snd (merge_pass cs1 acc1) = snd (merge_pass cs2 acc2).
Proof.
  revert cs2. induction cs1 as [|c1 cs1 IH]; intros [|c2 cs2] Hcs; try discriminate.
  - intros acc1 acc2 Ha Hs. now split.
  - cbn [List.map] in Hcs.
    pose proof (f_equal (fun l => List.hd (anonymous c1) l) Hcs) as Hc.
    pose proof (f_equal (@List.tl _) Hcs) as Ht. cbn [List.hd List.tl] in Hc, Ht.
    clear Hcs. rename Ht into Hcs.
    intros [f1 p1] [f2 p2] Ha Hs. cbn [fst snd] in Ha, Hs. subst p2.
    assert (He : element c1 = element c2)
      by exact (f_equal element Hc).
    cbn [merge_pass]. rewrite <- He.
    destruct (bool_decide (element c1 ∈ p1)).
    + apply IH; [exact Hcs | exact Ha | reflexivity].
    + apply IH; [exact Hcs | | reflexivity]. cbn [fst].
      rewrite !List.map_app. cbn [List.map]. now rewrite Ha, Hc.
Qed.

(** The identifiers apart, the inspection does not depend on the source
    of identifiers. *)
Lemma inspectAllFormControls_anonymous fresh1 fresh2 document :
  List.map anonymous (inspectAllFormControls fresh1 document)
  = List.map anonymous (inspectAllFormControls fresh2 document).
Proof.
  unfold inspectAllFormControls, findAngularFormControls, findGenericFormControls,
    findMaterialFormControls.
  destruct (extract_each_anonymous fresh1 fresh2 extractAngularFormControlData
              (querySelectorAll document (fun e => hasAttribute e (lit "formControl")))
              ltac:(reflexivity) 0%nat) as [E1 N1].
  destruct (extract_each fresh1 extractAngularFormControlData _ 0%nat) as [a1 n1].
  destruct (extract_each fresh2 extractAngularFormControlData _ 0%nat) as [a1' n1'].
  cbn [fst snd] in E1, N1. subst n1'.
  destruct (extract_each_anonymous fresh1 fresh2 extractAngularFormControlNameData
              (querySelectorAll document (fun e => hasAttribute e (lit "formControlName")))
              ltac:(reflexivity) n1) as [E2 N2].
  destruct (extract_each fresh1 extractAngularFormControlNameData _ n1) as [a2 n2].
  destruct (extract_each fresh2 extractAngularFormControlNameData _ n1) as [a2' n2'].
  cbn [fst snd] in E2, N2. subst n2'.
  destruct (extract_each_anonymous fresh1 fresh2 extractNgModelData
              (querySelectorAll document (fun e => hasAttribute e (lit "ngModel")))
              ltac:(reflexivity) n2) as [E3 N3].
  destruct (extract_each fresh1 extractNgModelData _ n2) as [a3 n3].
  destruct (extract_each fresh2 extractNgModelData _ n2) as [a3' n3'].
  cbn [fst snd] in E3, N3. subst n3'.
  match goal with
  | |- context [extract_each fresh1 extractGenericFormControlData ?els n3] =>
      destruct (extract_each_anonymous fresh1 fresh2 extractGenericFormControlData els
                  ltac:(reflexivity) n3) as [E4 N4];
      destruct (extract_each fresh1 extractGenericFormControlData els n3) as [g g1];
      destruct (extract_each fresh2 extractGenericFormControlData els n3) as [g' g1']
  end.
  cbn [fst snd] in E4, N4. subst g1'.
  destruct (material_each_anonymous fresh1 fresh2
              (querySelectorAll document (has_tag [lit "mat-form-field"])) g1) as [E5 N5].
  destruct (material_each fresh1 _ g1) as [m m1].
  destruct (material_each fresh2 _ g1) as [m' m1'].
  cbn [fst snd] in E5, N5.
  assert (Ea : List.map anonymous (a1 ++ a2 ++ a3) = List.map anonymous (a1' ++ a2' ++ a3'))
    by (rewrite !List.map_app; now rewrite E1, E2, E3).
  destruct (merge_pass_anonymous _ _ Ea ([], ∅) ([], ∅) eq_refl eq_refl) as [M1 S1].
  destruct (merge_pass_anonymous _ _ E4 _ _ M1 S1) as [M2 S2].
  destruct (merge_pass_anonymous _ _ E5 _ _ M2 S2) as [M3 _].
  exact M3.
Qed.

Lemma generateControlKey_anonymous c :
  generateControlKey (anonymous c) = generateControlKey c.
Proof. reflexivity. Qed.

Lemma generateControlKey_snapshot_form c :
  generateControlKey (Capture.snapshot_form c) = generateControlKey c.
Proof. reflexivity. Qed.

Lemma build_map_from controls :
  forall (m : gmap jsstring FormControlData) k,
    is_Some (m !! k) \/ In k (List.map generateControlKey controls) ->
    is_Some (fold_left (fun m control => <[ generateControlKey control := control ]> m)
               controls m !! k).
Proof.
  induction controls as [|c controls IH]; intros m k H; cbn [fold_left].
  - destruct H as [H|[]]. exact H.
  - apply IH. cbn [List.map In] in H.
    destruct (decide (generateControlKey c = k)) as [<-|Hne].
    + left. rewrite lookup_insert_eq. eauto.
    + destruct H as [H|[H|H]]; [| contradiction | now right].
      left. now rewrite lookup_insert_ne.
Qed.

(** Every control of the page is in the map, under its key. *)
Lemma build_map_has_keys fresh1 fresh2 document c :
  In c (inspectAllFormControls fresh1 document) ->
  is_Some (build_map (inspectAllFormControls fresh2 document)
             !! generateControlKey (Capture.snapshot_form c)).
Proof.
  intros Hin. unfold build_map. apply build_map_from. right.
  rewrite generateControlKey_snapshot_form, <- generateControlKey_anonymous.
  assert (E : List.map generateControlKey (inspectAllFormControls fresh2 document)
              = List.map generateControlKey
                  (List.map anonymous (inspectAllFormControls fresh1 document))).
  { rewrite (inspectAllFormControls_anonymous fresh1 fresh2), List.map_map.
    apply List.map_ext. intros x. now rewrite generateControlKey_anonymous. }
  rewrite E. apply in_map, in_map. exact Hin.
Qed.

End SamePage.

(** A snapshot fits the page it was taken from.  When the controls of the
    snapshot are those captured from the page as it is now (whatever the
    identifiers the two inspections hand out), [restoreForms] finds a
    live control for each of them: nothing is skipped, and every control
    is either restored or reported as an error. *)
Theorem restoreForms_skips_nothing_on_the_same_page :
  forall (fresh1 fresh2 : nat -> jsstring) (snapshot : Snapshot) (pg : Page),
    formControls snapshot
    = List.map Capture.snapshot_form
        (FormControlInspector.inspectAllFormControls fresh1 (page_dom pg)) ->
    exists pg' report,
      AngularFormSnapshotContent.restoreForms fresh2 (Some snapshot) pg = (pg', Ok report)
      /\ skippedCount report = 0%nat
      /\ (restoredCount report + errorCount report = length (formControls snapshot))%nat.
Proof.
  intros fresh1 fresh2 snapshot pg Hsnap.
  unfold AngularFormSnapshotContent.restoreForms, bind at 1, get. cbv beta iota.
  set (m := AngularFormSnapshotContent.build_map
              (FormControlInspector.inspectAllFormControls fresh2 (page_dom pg))).
  destruct (restore_loop_spec (page_dom pg) m (formControls snapshot)
              {| AngularFormSnapshotContent.t_restored := 0;
                 AngularFormSnapshotContent.t_skipped := 0;
                 AngularFormSnapshotContent.t_errors := [] |} pg
              (same_static_refl _)) as (pg' & Hloop & _).
  unfold bind. rewrite Hloop. cbv beta iota.
  eexists _, _. split; [reflexivity|].
  cbn [restoredCount skippedCount errorCount errors message tally_after
       AngularFormSnapshotContent.t_restored AngularFormSnapshotContent.t_skipped
       AngularFormSnapshotContent.t_errors app plus].
  assert (Hnone : List.filter (fun c => is_skipped (outcome (page_dom pg) m c))
                    (formControls snapshot) = []).
  { apply filter_none. apply Forall_forall. intros sc Hsc.
    apply list_elem_of_In in Hsc. rewrite Hsnap in Hsc.
    apply in_map_iff in Hsc. destruct Hsc as (c & <- & Hc).
    destruct (build_map_has_keys fresh1 fresh2 (page_dom pg) c Hc) as [live Hlive].
    unfold outcome. fold m in Hlive. rewrite Hlive. now destruct (snd _). }
  pose proof (outcomes_partition (page_dom pg) m (formControls snapshot)) as Hpart.
  rewrite Hnone in *. cbn [length] in *. split; [reflexivity | lia].
Qed.

Lemma restoreForms_skips_nothing_on_the_same_page_witness :
  let snapshot := Samples.snapshot_of Samples.host (Samples.captured Samples.small_page) in
  let pg := {| page_dom := Samples.small_page; page_events := [] |} in
  exists pg' report,
    AngularFormSnapshotContent.restoreForms (fresh_id Samples.later_host) (Some snapshot) pg
    = (pg', Ok report)
    /\ skippedCount report = 0%nat
    /\ (restoredCount report + errorCount report = length (formControls snapshot))%nat.
Proof.
  intros snapshot pg.
  apply (restoreForms_skips_nothing_on_the_same_page
           (fresh_id Samples.host) (fresh_id Samples.later_host) snapshot pg).
  reflexivity.
Defined.

(** ** Two generators of paths *)

Section Selectors.

Lemma split_not_nil sep s : split sep s <> [].
Proof.
  destruct s as [|c rest]; cbn [split]; [discriminate|].
  destruct (c =? sep); [discriminate|]. now destruct (split sep rest).
Qed.

Lemma join_length c l :
  l <> [] ->
  S (length (join [c] l)) = list_sum (List.map (fun p => S (length p)) l).
Proof.
  induction l as [|p [|q rest] IH]; intros Hne; [contradiction| |].
  - unfold list_sum. cbn [join List.map fold_right]. lia.
  - change (join [c] (p :: q :: rest)) with (p ++ [c] ++ join [c] (q :: rest)).
    rewrite !List.length_app. specialize (IH ltac:(discriminate)).
    unfold list_sum in *. cbn [length List.map fold_right] in *. lia.
Qed.

Lemma filter_sum_lt {A} (p : A -> bool) (f : A -> nat) l :
  (forall x, 1 <= f x)%nat -> forallb p l = false ->
  (list_sum (List.map f (List.filter p l)) < list_sum (List.map f l))%nat.
Proof.
  intros Hf. induction l as [|a l IH]; intros Hl; [discriminate|].
  cbn [forallb] in Hl. cbn [List.filter].
  assert (Hle : (list_sum (List.map f (List.filter p l)) <= list_sum (List.map f l))%nat).
  { clear. induction l as [|b l IH]; [apply Nat.le_refl|]. cbn [List.filter].
    unfold list_sum in *. destruct (p b); cbn [List.map fold_right]; lia. }
  unfold list_sum in *. destruct (p a) eqn:Ha; cbn [List.map fold_right].
  - cbn [andb] in Hl. specialize (IH Hl). lia.
  - specialize (Hf a). lia.
Qed.

Lemma filter_forallb {A} (p : A -> bool) l : forallb p l = true -> List.filter p l = l.
Proof.
  induction l as [|a l IH]; [reflexivity|]. cbn [forallb List.filter].
  intros H. apply andb_true_iff in H as [Ha Hl]. now rewrite Ha, IH.
Qed.

Lemma selector_tidy e :
  AngularFormInspector.selector e = FormControlInspector.selector e <-> tidy e = true.
Proof.
  unfold AngularFormInspector.selector, FormControlInspector.selector, tidy.
  destruct (truthy (el_id e)); [tauto|].
  destruct (truthy (el_className e)); [|tauto]. cbn [orb negb].
  set (parts := split 32 (el_className e)).
  assert (Hparts : parts <> []) by apply split_not_nil.
  destruct (forallb (fun cls => truthy (trim cls)) parts) eqn:Hall.
  - rewrite (filter_forallb _ _ Hall).
    destruct parts; [contradiction|]. cbn [length Nat.ltb Nat.leb]. tauto.
  - split; [|discriminate]. intros Heq. exfalso.
    pose proof (filter_sum_lt (fun cls => truthy (trim cls))
                  (fun p => S (length p)) parts ltac:(intros; cbn beta; lia) Hall) as Hlt.
    rewrite <- (join_length 46 parts Hparts) in Hlt.
    destruct (List.filter (fun cls => truthy (trim cls)) parts) as [|q kept] eqn:Hk.
    + cbn [length Nat.ltb Nat.leb] in Heq.
      apply (f_equal (@length N)) in Heq. rewrite List.length_app in Heq.
      cbn [length] in Heq. lia.
    + cbn [length Nat.ltb Nat.leb] in Heq.
      apply List.app_inv_head in Heq. apply (f_equal (@length N)) in Heq.
      pose proof (join_length 46 (q :: kept) ltac:(discriminate)) as Hj.
      change (length (46 :: join [46] (q :: kept)))
        with (S (length (join [46] (q :: kept)))) in Heq.
      change (length (46 :: join [46] parts)) with (S (length (join [46] parts))) in Heq.
      lia.
Qed.

End Selectors.

(** The two path generators agree exactly on tidy elements.  The selector
    that [AngularFormInspector.generateElementPath] writes for an element
    is the one [FormControlInspector.generateElementPath] writes if and
    only if the element has an [id], or no class, or a class attribute in
    which no class is blank (no doubled, leading or trailing space): the
    utilities write an empty class for each blank one, the inspector
    drops it.  So the two paths of an element are the same when it has at
    most ten ancestors and every element of the chain is tidy. *)
Theorem generateElementPath_agree_on_tidy_elements :
  (forall e : Element,
      AngularFormInspector.selector e = FormControlInspector.selector e <-> tidy e = true)
  /\ forall l : Located,
       (length (loc_ancestors l) <= AngularFormInspector.MAX_DEPTH)%nat ->
       Forall (fun e => tidy e = true) (loc_element l :: loc_ancestors l) ->
       AngularFormInspector.generateElementPath l = FormControlInspector.generateElementPath l.
Proof.
  split; [exact selector_tidy|].
  intros l Hdepth Htidy.
  unfold AngularFormInspector.generateElementPath, FormControlInspector.generateElementPath,
    AngularFormInspector.path_components, FormControlInspector.path_components.
  rewrite utils_path_loop_rev, inspector_path_loop_rev by (cbn [length]; lia).
  cbn [length]. rewrite Nat.sub_0_r.
  rewrite List.firstn_all2 by (cbn [length]; lia).
  do 3 f_equal. apply List.map_ext_in. intros e He.
  apply selector_tidy. rewrite Forall_forall in Htidy.
  apply Htidy. now apply list_elem_of_In.
Qed.

Lemma generateElementPath_agree_on_tidy_elements_witness :
  AngularFormInspector.generateElementPath Layouts.styled_input
  = FormControlInspector.generateElementPath Layouts.styled_input.
Proof.
  apply (proj2 generateElementPath_agree_on_tidy_elements Layouts.styled_input).
  - unfold AngularFormInspector.MAX_DEPTH. cbn. lia.
  - repeat constructor.
Defined.

(** ** Large snapshots *)

Section Request.

Lemma obj_get_in {V} (o : list (jsstring * V)) k v :
  obj_get o k = Some v -> In k (List.map fst o).
Proof.
  induction o as [|[k' v'] o IH]; [discriminate|]. cbn [obj_get List.map fst In].
  unfold jsstring_eqb. destruct (bool_decide_reflect (k = k')) as [->|_]; [now left|].
  intros H. right. now apply IH.
Qed.

(** The object a [Uint8Array] is read back as has no [formControls]. *)
Lemma packed_bytes_has_no_formControls b :
  property (parsed (DataEncoder.packed_json (Bytes b))) (lit "formControls") = None.
Proof.
  destruct (property _ _) as [v|] eqn:E; [|reflexivity]. exfalso.
  cbn [DataEncoder.packed_json parsed property] in E. apply obj_get_in in E.
  assert (Hin : In (lit "formControls")
                  (keys_of (parsed (DataEncoder.packed_json (Bytes b))))) by exact E.
  cbn [DataEncoder.packed_json] in Hin. apply parsed_keys, packed_bytes_keys in Hin.
  inversion_clear Hin as [|? ? Hc _]. discriminate Hc.
Qed.

(** The snapshot that is read back has its [formControls]. *)
Lemma parsed_snapshot_has_formControls h formControls :
  property (parsed (DataEncoder.snapshot_json h formControls)) (lit "formControls")
  = Some (JArr (List.map parsed (List.map DataEncoder.control_json formControls))).
Proof.
  unfold DataEncoder.snapshot_json. rewrite parsed_named.
  - reflexivity.
  - split; [apply NoDup_keys; vm_compute; reflexivity | repeat constructor].
Qed.

Lemma token_is_truthy h formControls : truthy (token_of h formControls) = true.
Proof. rewrite token_of_text. reflexivity. Qed.

End Request.

Section Dictionary.
Import DataEncoder ENCODING_CONFIG.

Lemma wf_string_app a b : wf_string (a ++ b) = wf_string a && wf_string b.
Proof. unfold wf_string. apply forallb_app. Qed.

Lemma Forall_wf_string s : Forall (fun c => c < 65536) s -> wf_string s = true.
Proof.
  unfold wf_string. intros H. apply forallb_forall. intros c Hc.
  rewrite Forall_forall in H. apply N.ltb_lt, H. now apply list_elem_of_In.
Qed.

(** The runs of a text are made of its characters. *)
Lemma runs_wf s :
  wf_string s = true -> Forall (fun run => wf_string (snd run) = true) (runs s).
Proof.
  induction s as [|c rest IH]; intros Hs; [constructor|].
  change (wf_string (c :: rest)) with ((c <? 65536) && wf_string rest) in Hs.
  apply andb_true_iff in Hs as [Hc Hrest]. specialize (IH Hrest).
  cbn [runs]. destruct (runs rest) as [|[w r] more].
  - constructor; [|constructor]. cbn [snd]. unfold wf_string. cbn [forallb]. now rewrite Hc.
  - inversion_clear IH as [|? ? Hr Hmore]. cbn [snd] in Hr.
    destruct (Bool.eqb w (is_word_char c)).
    + constructor; [|exact Hmore]. cbn [snd].
      change (wf_string (c :: r)) with ((c <? 65536) && wf_string r). now rewrite Hc, Hr.
    + constructor; [|constructor; [exact Hr | exact Hmore]].
      cbn [snd]. unfold wf_string. cbn [forallb]. now rewrite Hc.
Qed.

Lemma words_wf s :
  wf_string s = true -> Forall (fun word => wf_string word = true) (words s).
Proof.
  intros Hs. unfold words. pose proof (runs_wf s Hs) as Hruns.
  induction Hruns as [|[w r] more Hr _ IH]; [constructor|].
  cbn [List.filter fst]. destruct w; [|exact IH].
  cbn [List.map snd]. constructor; [exact Hr | exact IH].
Qed.

Lemma wf_string_concat l :
  Forall (fun s => wf_string s = true) l -> wf_string (concat l) = true.
Proof.
  induction 1 as [|s l Hs _ IH]; [reflexivity|].
  cbn [concat]. now rewrite wf_string_app, Hs, IH.
Qed.

Lemma replace_word_wf word token result :
  wf_string token = true -> wf_string result = true ->
  wf_string (replace_word word token result) = true.
Proof.
  intros Ht Hr. unfold replace_word. apply wf_string_concat.
  pose proof (runs_wf result Hr) as Hruns.
  induction Hruns as [|run more Hrun _ IH]; [constructor|].
  cbn [List.map]. constructor; [|exact IH].
  now destruct (fst run && jsstring_eqb (snd run) word).
Qed.

Lemma dictionary_token_wf n : wf_string (dictionary_token n) = true.
Proof.
  unfold dictionary_token.
  change (167 :: N_to_string (N.of_nat n) ++ [167])
    with ([167] ++ N_to_string (N.of_nat n) ++ [167]).
  rewrite !wf_string_app, (wf_string_digits _ (N_to_string_digits _)). reflexivity.
Qed.

(** Assigning a property keeps what holds of the names and of the values. *)
Lemma obj_set_Forall {V} (Pk : jsstring -> Prop) (Pv : V -> Prop) o k v :
  Forall (fun kv => Pk (fst kv) /\ Pv (snd kv)) o -> Pk k -> Pv v ->
  Forall (fun kv => Pk (fst kv) /\ Pv (snd kv)) (obj_set o k v).
Proof.
  intros Ho Hk Hv. unfold obj_set. destruct (array_index k) as [i|].
  - induction Ho as [|[k' v'] o [Hk' Hv'] Ho IH]; cbn [set_index].
    + constructor; [now split | constructor].
    + cbn [fst snd] in *. destruct (array_index k') as [j|].
      * destruct (i =? j); [constructor; [now split | exact Ho]|].
        destruct (i <? j).
        -- constructor; [now split|]. constructor; [now split | exact Ho].
        -- constructor; [now split | exact IH].
      * constructor; [now split|]. constructor; [now split | exact Ho].
  - induction Ho as [|[k' v'] o [Hk' Hv'] Ho IH]; cbn [set_named].
    + constructor; [now split | constructor].
    + cbn [fst snd] in *. destruct (jsstring_eqb k k').
      * constructor; [now split | exact Ho].
      * constructor; [now split | exact IH].
Qed.

Lemma fold_counts_wf ws :
  Forall (fun word => wf_string word = true) ws ->
  forall acc : list (jsstring * nat),
    Forall (fun wc => wf_string (fst wc) = true /\ True) acc ->
    Forall (fun wc => wf_string (fst wc) = true /\ True)
      (fold_left (fun counts word =>
                    obj_set counts word
                      (S (match obj_get counts word with Some n => n | None => O end)))
                 ws acc).
Proof.
  induction 1 as [|word rest Hword _ IH]; intros acc Hacc; [exact Hacc|].
  cbn [fold_left]. apply IH.
  now apply (obj_set_Forall (fun k => wf_string k = true) (fun _ : nat => True)).
Qed.

Lemma fold_dictionary_wf (frequent : list (jsstring * nat)) :
  Forall (fun wc => wf_string (fst wc) = true) frequent ->
  forall (acc : list (jsstring * jsstring)) (n : nat),
    Forall (fun entry => wf_string (fst entry) = true /\ wf_string (snd entry) = true) acc ->
    Forall (fun entry => wf_string (fst entry) = true /\ wf_string (snd entry) = true)
      (fst (fold_left (fun acc wc =>
                         (obj_set (fst acc) (fst wc) (dictionary_token (snd acc)),
                          S (snd acc)))
                      frequent (acc, n))).
Proof.
  induction 1 as [|wc rest Hwc _ IH]; intros acc n Hacc; [exact Hacc|].
  cbn [fold_left fst snd]. apply IH.
  apply (obj_set_Forall (fun k => wf_string k = true) (fun v => wf_string v = true));
    [exact Hacc | exact Hwc | apply dictionary_token_wf].
Qed.

Lemma fold_replace_wf (dictionary : list (jsstring * jsstring)) :
  Forall (fun entry => wf_string (fst entry) = true /\ wf_string (snd entry) = true)
    dictionary ->
  forall data,
    wf_string data = true ->
    wf_string (fold_left (fun result entry => replace_word (fst entry) (snd entry) result)
                 dictionary data) = true.
Proof.
  induction 1 as [|entry rest [_ Hv] _ IH]; intros data Hdata; [exact Hdata|].
  cbn [fold_left]. apply IH. now apply replace_word_wf.
Qed.

(** What the dictionary fallback returns is made of 16-bit strings. *)
Lemma dictionaryCompress_wf data :
  wf_string data = true -> json_wf (packed_json (dictionaryCompress data)) = true.
Proof.
  intros Hdata. unfold dictionaryCompress.
  pose proof (fold_counts_wf (words data) (words_wf data Hdata) [] ltac:(constructor))
    as Hcounts.
  set (wordCounts := fold_left _ (words data) []) in *.
  set (frequent := List.filter _ wordCounts).
  assert (Hfrequent : Forall (fun wc : jsstring * nat => wf_string (fst wc) = true) frequent).
  { unfold frequent. apply Forall_forall. intros wc Hwc.
    apply list_elem_of_In, filter_In in Hwc. destruct Hwc as [Hwc _].
    rewrite Forall_forall in Hcounts.
    exact (proj1 (Hcounts wc (proj2 (list_elem_of_In _ _) Hwc))). }
  pose proof (fold_dictionary_wf frequent Hfrequent [] O ltac:(constructor)) as Hdict.
  set (dictionary := fst (fold_left _ frequent ([], O))) in *.
  cbn [packed_json json_wf forallb fst snd]. rewrite !andb_true_r.
  apply andb_true_iff. split.
  - unfold AngularFormSnapshotContent.attributes_object. cbn [json_wf].
    apply andb_true_iff. split; [reflexivity|].
    apply forallb_forall. intros kv Hkv. apply in_map_iff in Hkv.
    destruct Hkv as (entry & <- & Hentry). cbn [fst snd json_wf].
    rewrite Forall_forall in Hdict.
    destruct (Hdict entry (proj2 (list_elem_of_In _ _) Hentry)) as [Hk Hv].
    now rewrite Hk, Hv.
  - apply andb_true_iff. split; [reflexivity|].
    now apply fold_replace_wf.
Qed.

(** What [compressData] returns at and above the threshold. *)
Lemma packed_of_large h jsonString :
  (COMPRESSION_THRESHOLD <= length jsonString)%nat ->
  packed_of h jsonString
  = match CompressionStream h with
    | Some gzip => Bytes (gzip (TextEncoder_encode jsonString))
    | None => dictionaryCompress jsonString
    end.
Proof.
  intros Hlen. unfold packed_of, compressData, bind, tell, modify, ret. cbv beta iota.
  apply Nat.ltb_ge in Hlen. rewrite Hlen. now destruct (CompressionStream h).
Qed.

(** In both cases it is an object, and not one with [formControls]. *)
Lemma packed_large_is_no_snapshot h jsonString :
  wf_string jsonString = true ->
  (COMPRESSION_THRESHOLD <= length jsonString)%nat ->
  let container := packed_json (packed_of h jsonString) in
  json_text_of (packed_of h jsonString) = JSON_stringify container
  /\ json_wf container = true
  /\ ToBoolean (parsed container) = true
  /\ property (parsed container) (lit "formControls") = None
  /\ ~ In (lit "version") (keys_of (parsed container)).
Proof.
  intros Hwf Hlen container. unfold container. rewrite (packed_of_large h _ Hlen).
  destruct (CompressionStream h) as [gzip|].
  - split; [reflexivity|]. split; [apply packed_bytes_wf|]. split; [reflexivity|].
    split; [apply packed_bytes_has_no_formControls | apply packed_bytes_has_no_version].
  - unfold dictionaryCompress at 1. cbn [json_text_of].
    split; [reflexivity|]. split; [now apply dictionaryCompress_wf|].
    unfold dictionaryCompress. split; [reflexivity|].
    assert (Hkeys : forall k,
               In k (keys_of (parsed (packed_json (dictionaryCompress jsonString)))) ->
               k = lit "dictionary" \/ k = lit "data").
    { intros k Hin. unfold dictionaryCompress in Hin. cbn [packed_json] in Hin.
      apply parsed_keys in Hin. cbn [List.map fst In] in Hin.
      destruct Hin as [<-|[<-|[]]]; [now left | now right]. }
    split.
    + destruct (property _ _) as [v|] eqn:E; [|reflexivity]. exfalso.
      cbn [packed_json parsed property] in E. apply obj_get_in in E.
      destruct (Hkeys (lit "formControls") E) as [H|H]; discriminate H.
    + intros Hin. destruct (Hkeys (lit "version") Hin) as [H|H]; discriminate H.
Qed.

End Dictionary.

(** No large snapshot comes back, in any browser.  At and above the
    threshold [encodeFormData] returns a token and [decodeFormData]
    accepts it, and what it returns is the container that [compressData]
    produced, as [JSON.parse] rebuilds it: the index-keyed bytes with
    [CompressionStream], the dictionary and the replaced text without.
    It has no [version] and no [formControls], so it is neither the
    snapshot nor what [JSON.parse] would make of the snapshot. *)
Theorem large_snapshot_does_not_come_back :
  forall (h : Host) (formControls : list FormControlData),
    json_wf (DataEncoder.snapshot_json h formControls) = true ->
    (ENCODING_CONFIG.COMPRESSION_THRESHOLD
       <= length (JSON_stringify (DataEncoder.snapshot_json h formControls)))%nat ->
    let container :=
      DataEncoder.packed_json
        (packed_of h (JSON_stringify (DataEncoder.snapshot_json h formControls))) in
    DataEncoder.encodeFormData h formControls [] = (encode_trace, Ok (token_of h formControls))
    /\ DataEncoder.decodeFormData h (token_of h formControls) []
       = (decode_trace, Ok (parsed container))
    /\ property (parsed container) (lit "formControls") = None
    /\ ~ In (lit "version") (keys_of (parsed container))
    /\ parsed container <> DataEncoder.snapshot_json h formControls
    /\ parsed container <> parsed (DataEncoder.snapshot_json h formControls).
Proof.
  intros h formControls Hwf Hlen container.
  assert (Htext : wf_string (JSON_stringify (DataEncoder.snapshot_json h formControls)) = true)
    by (apply Forall_wf_string, JSON_stringify_units, Hwf).
  destruct (packed_large_is_no_snapshot h _ Htext Hlen) as (Hjson & Hcwf & _ & Hnone & Hno).
  fold container in Hjson, Hcwf, Hnone, Hno.
  destruct (version_is_a_key h formControls) as [Hv Hv'].
  split; [apply encodeFormData_run|]. split.
  - rewrite (decodeFormData_token h formControls (JSON_stringify container)).
    + now rewrite parse_stringify.
    + rewrite Hjson. now apply decoded_text_stringify.
  - split; [exact Hnone|]. split; [exact Hno|].
    split; intros E; apply Hno; now rewrite E.
Qed.

Lemma large_snapshot_does_not_come_back_witness :
  let h := Samples.host in
  let formControls := Samples.captured (Samples.five_fields false) in
  let container :=
    DataEncoder.packed_json
      (packed_of h (JSON_stringify (DataEncoder.snapshot_json h formControls))) in
  DataEncoder.encodeFormData h formControls [] = (encode_trace, Ok (token_of h formControls))
  /\ DataEncoder.decodeFormData h (token_of h formControls) []
     = (decode_trace, Ok (parsed container))
  /\ property (parsed container) (lit "formControls") = None
  /\ ~ In (lit "version") (keys_of (parsed container))
  /\ parsed container <> DataEncoder.snapshot_json h formControls
  /\ parsed container <> parsed (DataEncoder.snapshot_json h formControls).
Proof.
  intros h formControls.
  apply (large_snapshot_does_not_come_back h formControls).
  - vm_compute. reflexivity.
  - vm_compute. lia.
Defined.

(** ** The background worker *)

Section KeepLast.
Import ServiceWorker.

Lemma keep_last_skipn {A} limit (l : list A) :
  keep_last limit l = skipn (length l - limit) l.
Proof.
  unfold keep_last. destruct (Nat.ltb_spec limit (length l)) as [H|H]; [reflexivity|].
  replace (length l - limit)%nat with 0%nat by lia. reflexivity.
Qed.

Lemma keep_last_length {A} limit (l : list A) :
  length (keep_last limit l) = Nat.min (length l) limit.
Proof. rewrite keep_last_skipn, List.length_skipn. lia. Qed.

Lemma keep_last_suffix {A} limit (l : list A) :
  exists dropped, l = dropped ++ keep_last limit l.
Proof.
  exists (firstn (length l - limit) l). rewrite keep_last_skipn.
  symmetry. apply List.firstn_skipn.
Qed.

Lemma keep_last_app {A} limit (l : list A) x :
  (1 <= limit)%nat -> keep_last limit (l ++ [x]) = keep_last (limit - 1) l ++ [x].
Proof.
  intros Hl. rewrite !keep_last_skipn, List.length_app. cbn [length].
  replace (length l + 1 - limit)%nat with (length l - (limit - 1))%nat by lia.
  rewrite List.skipn_app.
  replace (length l - (limit - 1) - length l)%nat with 0%nat by lia. reflexivity.
Qed.

Lemma keep_last_zero {A} (l : list A) : keep_last 0 l = [].
Proof.
  rewrite keep_last_skipn, Nat.sub_0_r. apply List.skipn_all.
Qed.

End KeepLast.

Section Store.
Import ServiceWorker ServiceWorker.SnapshotManager.

Lemma compressSnapshot_reads snapshot w :
  compressSnapshot snapshot w = (w, snd (compressSnapshot snapshot w)).
Proof.
  unfold compressSnapshot, bind, get, lift.
  destruct (jsstring_eqb _ (lit "high")); [reflexivity|].
  destruct (jsstring_eqb _ (lit "medium")); [reflexivity|].
  destruct (jsstring_eqb _ (lit "low")); reflexivity.
Qed.

Lemma compressSnapshot_level snapshot w :
  snd (compressSnapshot snapshot w)
  = if through_utf8 (compressionLevel (settings w))
    then match unescape_encodeURIComponent (forms_text snapshot) with
         | Ok bin =>
             match btoa bin with
             | Ok compressed =>
                 Ok {| comp_type := if jsstring_eqb (compressionLevel (settings w)) (lit "high")
                                    then lit "base64_gzip" else lit "base64_simple";
                       comp_data := compressed |}
             | Throw e => Throw e
             end
         | Throw e => Throw e
         end
    else compressMedium (forms_text snapshot).
Proof.
  unfold compressSnapshot, bind, get, lift, through_utf8, forms_text, compressHigh, compressLow.
  destruct (jsstring_eqb _ (lit "high")); cbn [orb snd].
  - destruct (unescape_encodeURIComponent _); [|reflexivity]. now destruct (btoa _).
  - destruct (jsstring_eqb _ (lit "medium")); cbn [negb andb snd]; [reflexivity|].
    destruct (jsstring_eqb _ (lit "low")); cbn [snd]; [|reflexivity].
    destruct (unescape_encodeURIComponent _); [|reflexivity]. now destruct (btoa _).
Qed.

(** What [saveSnapshot] does, by the outcome of the compression. *)
Lemma saveSnapshot_run tabId snapshot w :
  saveSnapshot tabId snapshot w
  = match snd (compressSnapshot snapshot w) with
    | Ok compressed =>
        (with_snapshots
           (keep_last (maxSnapshots (settings w))
              (angular_form_snapshots w ++ [entry_of tabId snapshot compressed])) w,
         Ok (snapshot_id tabId (cap_timestamp snapshot)))
    | Throw e => (logged (lit "error") (lit "Failed to save snapshot") w, Throw e)
    end.
Proof.
  unfold saveSnapshot, try_catch, bind. rewrite compressSnapshot_reads.
  destruct (snd (compressSnapshot snapshot w)) as [compressed|e]; reflexivity.
Qed.

Lemma find_last_only {A} (p : A -> bool) l x :
  Forall (fun y => p y = false) l -> p x = true -> List.find p (l ++ [x]) = Some x.
Proof.
  induction 1 as [|y l Hy _ IH]; intros Hx; cbn [List.find app]; [now rewrite Hx|].
  rewrite Hy. now apply IH.
Qed.

Lemma latin1_Forall s : latin1 s = true -> Forall (fun b => b < 256) s.
Proof.
  unfold latin1. rewrite forallb_forall. intros H. apply Forall_forall.
  intros b Hb. apply list_elem_of_In in Hb. apply N.ltb_lt. now apply H.
Qed.

Lemma Forall_latin1 s : Forall (fun b => b < 256) s -> latin1 s = true.
Proof.
  unfold latin1. intros H. apply forallb_forall. intros b Hb.
  rewrite Forall_forall in H. apply N.ltb_lt, H. now apply list_elem_of_In.
Qed.

(** The two encodings through UTF-8 are undone by their decoding. *)
Lemma decompress_utf8 v kind :
  json_wf v = true ->
  exists compressed,
    match unescape_encodeURIComponent (JSON_stringify v) with
    | Ok bin =>
        match btoa bin with
        | Ok compressed => Ok {| comp_type := kind; comp_data := compressed |}
        | Throw e => Throw e
        end
    | Throw e => Throw e
    end = Ok {| comp_type := kind; comp_data := compressed |}
    /\ decompressHigh compressed = Ok (parsed v).
Proof.
  intros Hwf. unfold unescape_encodeURIComponent.
  pose proof (JSON_stringify_encodable v) as Henc. unfold encodable in Henc.
  destruct (utf8_encode None (JSON_stringify v)) as [bytes|] eqn:Hb; [|contradiction].
  pose proof (utf8_encode_bytes _ _ Hb) as Hbytes.
  exists (btoa_bytes bytes). unfold btoa.
  pose proof (Forall_latin1 _ Hbytes) as Hl. unfold latin1 in Hl. rewrite Hl.
  split; [reflexivity|].
  unfold decompressHigh. rewrite (atob_btoa _ Hbytes).
  unfold decodeURIComponent_escape.
  rewrite (utf8_decode_encode _ (JSON_stringify_units v Hwf) bytes Hb).
  now apply parse_stringify.
Qed.

Lemma decompress_medium v :
  json_wf v = true -> latin1 (JSON_stringify v) = true ->
  compressMedium (JSON_stringify v)
  = Ok {| comp_type := lit "base64_deflate"; comp_data := btoa_bytes (JSON_stringify v) |}
  /\ decompressMedium (btoa_bytes (JSON_stringify v)) = Ok (parsed v).
Proof.
  intros Hwf Hl. unfold compressMedium, btoa. pose proof Hl as Hl'. unfold latin1 in Hl'.
  rewrite Hl'. split; [reflexivity|].
  unfold decompressMedium. rewrite (atob_btoa _ (latin1_Forall _ Hl)).
  now apply parse_stringify.
Qed.

(** Whatever the level, a snapshot that is stored decompresses to what
    [JSON.parse] makes of its forms. *)
Lemma compressSnapshot_round_trip snapshot w :
  json_wf (JArr (cap_forms snapshot)) = true ->
  through_utf8 (compressionLevel (settings w)) = true
  \/ latin1 (forms_text snapshot) = true ->
  exists compressed,
    snd (compressSnapshot snapshot w) = Ok compressed
    /\ decompressSnapshot compressed = Ok (parsed (JArr (cap_forms snapshot))).
Proof.
  intros Hwf Hcase. rewrite compressSnapshot_level. unfold forms_text in *.
  destruct (through_utf8 (compressionLevel (settings w))) eqn:Hu.
  - destruct (decompress_utf8 (JArr (cap_forms snapshot))
                (if jsstring_eqb (compressionLevel (settings w)) (lit "high")
                 then lit "base64_gzip" else lit "base64_simple") Hwf)
      as (compressed & Hc & Hd).
    eexists. split; [exact Hc|]. unfold decompressSnapshot. cbn [comp_type comp_data].
    destruct (jsstring_eqb (compressionLevel (settings w)) (lit "high"));
      [exact Hd|]. exact Hd.
  - destruct Hcase as [Hc|Hl]; [discriminate|].
    destruct (decompress_medium _ Hwf Hl) as [Hc Hd].
    eexists. split; [exact Hc|]. exact Hd.
Qed.

End Store.
(** The store of snapshots is a bounded history.  When the compression
    succeeds, [saveSnapshot] returns the identifier
    [snapshot_<tab>_<timestamp>] and appends the entry, then drops entries
    from the front until [maxSnapshots] are left: the store ends up with
    [min (n + 1) maxSnapshots] entries, which are the most recent ones in
    their order, the new entry last.  Nothing is logged. *)
Theorem saveSnapshot_keeps_the_newest :
  forall (tabId : option Z) (snapshot : ServiceWorker.CapturedSnapshot)
         (w : ServiceWorker.Worker) (compressed : ServiceWorker.Compressed),
    snd (ServiceWorker.SnapshotManager.compressSnapshot snapshot w) = Ok compressed ->
    let entry := entry_of tabId snapshot compressed in
    let limit := ServiceWorker.maxSnapshots (ServiceWorker.settings w) in
    let before := ServiceWorker.angular_form_snapshots w in
    exists w',
      ServiceWorker.SnapshotManager.saveSnapshot tabId snapshot w
      = (w', Ok (ServiceWorker.SnapshotManager.snapshot_id tabId
                   (ServiceWorker.cap_timestamp snapshot)))
      /\ ServiceWorker.angular_form_snapshots w'
         = skipn (length before + 1 - limit) (before ++ [entry])
      /\ length (ServiceWorker.angular_form_snapshots w') = Nat.min (length before + 1) limit
      /\ ((1 <= limit)%nat ->
          exists dropped kept,
            before = dropped ++ kept
            /\ ServiceWorker.angular_form_snapshots w' = kept ++ [entry])
      /\ ServiceWorker.debug_logs w' = ServiceWorker.debug_logs w
      /\ ServiceWorker.settings w' = ServiceWorker.settings w.
Proof.
  intros tabId snapshot w compressed Hc entry limit before.
  eexists. split; [rewrite saveSnapshot_run, Hc; reflexivity|].
  cbn [ServiceWorker.angular_form_snapshots ServiceWorker.with_snapshots
       ServiceWorker.debug_logs ServiceWorker.settings].
  fold entry limit before. split.
  - rewrite keep_last_skipn, List.length_app. reflexivity.
  - split.
    + rewrite keep_last_length, List.length_app. reflexivity.
    + split; [|split; reflexivity].
      intros Hl. rewrite (keep_last_app limit before entry Hl).
      destruct (keep_last_suffix (limit - 1) before) as [dropped Hd].
      exists dropped, (ServiceWorker.keep_last (limit - 1) before).
      split; [exact Hd | reflexivity].
Qed.

Lemma saveSnapshot_keeps_the_newest_witness :
  let w := Workers.fresh (lit "medium") in
  let snapshot := Workers.captured_page in
  let compressed :=
    {| ServiceWorker.comp_type := lit "base64_deflate";
       ServiceWorker.comp_data := btoa_bytes (forms_text snapshot) |} in
  let entry := entry_of (Some 7%Z) snapshot compressed in
  exists w',
    ServiceWorker.SnapshotManager.saveSnapshot (Some 7%Z) snapshot w
    = (w', Ok (ServiceWorker.SnapshotManager.snapshot_id (Some 7%Z)
                 (ServiceWorker.cap_timestamp snapshot)))
    /\ ServiceWorker.angular_form_snapshots w' = skipn (0 + 1 - 50) ([] ++ [entry])
    /\ length (ServiceWorker.angular_form_snapshots w') = Nat.min (0 + 1) 50
    /\ ((1 <= 50)%nat ->
        exists dropped kept,
          [] = dropped ++ kept
          /\ ServiceWorker.angular_form_snapshots w' = kept ++ [entry])
    /\ ServiceWorker.debug_logs w' = ServiceWorker.debug_logs w
    /\ ServiceWorker.settings w' = ServiceWorker.settings w.
Proof.
  intros w snapshot compressed entry.
  apply (saveSnapshot_keeps_the_newest (Some 7%Z) snapshot w compressed).
  vm_compute. reflexivity.
Defined.

(** The default compression level hands the text to [btoa] as it is, and
    [btoa] takes bytes only.  At the level [medium], and at any level that
    is neither [high] nor [low], a snapshot whose serialised forms hold a
    character above U+00FF is not saved: [saveSnapshot] throws the error of
    [btoa], the store is as it was, and the failure is logged.  At the
    levels [high] and [low] every snapshot made of 16-bit strings is
    saved. *)
Theorem saveSnapshot_medium_takes_bytes_only :
  forall (tabId : option Z) (snapshot : ServiceWorker.CapturedSnapshot)
         (w : ServiceWorker.Worker),
    (through_utf8 (ServiceWorker.compressionLevel (ServiceWorker.settings w)) = false ->
     latin1 (forms_text snapshot) = false ->
     ServiceWorker.SnapshotManager.saveSnapshot tabId snapshot w
     = (logged (lit "error") (lit "Failed to save snapshot") w, Throw invalid_character))
    /\ (through_utf8 (ServiceWorker.compressionLevel (ServiceWorker.settings w)) = true ->
        json_wf (JArr (ServiceWorker.cap_forms snapshot)) = true ->
        exists w',
          ServiceWorker.SnapshotManager.saveSnapshot tabId snapshot w
          = (w', Ok (ServiceWorker.SnapshotManager.snapshot_id tabId
                       (ServiceWorker.cap_timestamp snapshot)))).
Proof.
  intros tabId snapshot w. split.
  - intros Hu Hl. rewrite saveSnapshot_run, compressSnapshot_level, Hu.
    unfold ServiceWorker.SnapshotManager.compressMedium, btoa.
    unfold latin1 in Hl. now rewrite Hl.
  - intros Hu Hwf.
    destruct (compressSnapshot_round_trip snapshot w Hwf (or_introl Hu))
      as (compressed & Hc & _).
    eexists. rewrite saveSnapshot_run, Hc. reflexivity.
Qed.

Lemma saveSnapshot_medium_takes_bytes_only_witness :
  let w := Workers.fresh (lit "medium") in
  ServiceWorker.SnapshotManager.saveSnapshot (Some 7%Z) Workers.euro_page w
  = (logged (lit "error") (lit "Failed to save snapshot") w, Throw invalid_character).
Proof.
  intros w.
  apply (proj1 (saveSnapshot_medium_takes_bytes_only (Some 7%Z) Workers.euro_page w)).
  - vm_compute. reflexivity.
  - vm_compute. reflexivity.
Defined.

(** What is saved can be loaded.  For a snapshot made of 16-bit strings,
    at a level that goes through UTF-8 or with forms that serialise to
    bytes, when the store keeps at least one entry and holds no entry with
    the identifier yet, [saveSnapshot] returns the identifier and
    [loadSnapshot] called with it returns the forms as [JSON.parse]
    rebuilds them, leaving the worker as the save left it. *)
Theorem loadSnapshot_returns_what_was_saved :
  forall (tabId : option Z) (snapshot : ServiceWorker.CapturedSnapshot)
         (w : ServiceWorker.Worker),
    json_wf (JArr (ServiceWorker.cap_forms snapshot)) = true ->
    through_utf8 (ServiceWorker.compressionLevel (ServiceWorker.settings w)) = true
    \/ latin1 (forms_text snapshot) = true ->
    (1 <= ServiceWorker.maxSnapshots (ServiceWorker.settings w))%nat ->
    let snapshotId :=
      ServiceWorker.SnapshotManager.snapshot_id tabId (ServiceWorker.cap_timestamp snapshot) in
    Forall (fun s => ServiceWorker.entry_id s <> snapshotId)
           (ServiceWorker.angular_form_snapshots w) ->
    exists w',
      ServiceWorker.SnapshotManager.saveSnapshot tabId snapshot w = (w', Ok snapshotId)
      /\ ServiceWorker.SnapshotManager.loadSnapshot snapshotId w'
         = (w', Ok (parsed (JArr (ServiceWorker.cap_forms snapshot)))).
Proof.
  intros tabId snapshot w Hwf Hcase Hlimit snapshotId Hfresh.
  destruct (compressSnapshot_round_trip snapshot w Hwf Hcase) as (compressed & Hc & Hd).
  eexists. split; [rewrite saveSnapshot_run, Hc; reflexivity|].
  unfold ServiceWorker.SnapshotManager.loadSnapshot, try_catch, bind, get.
  cbn [ServiceWorker.angular_form_snapshots ServiceWorker.with_snapshots].
  rewrite (keep_last_app _ _ _ Hlimit).
  rewrite (find_last_only _ _ (entry_of tabId snapshot compressed)).
  - unfold lift. cbn [entry_of ServiceWorker.entry_compressed]. rewrite Hd. reflexivity.
  - destruct (keep_last_suffix
                (ServiceWorker.maxSnapshots (ServiceWorker.settings w) - 1)
                (ServiceWorker.angular_form_snapshots w)) as [dropped Hdrop].
    rewrite Hdrop in Hfresh. apply Forall_app in Hfresh as [_ Hkept].
    eapply Forall_impl; [exact Hkept|]. intros s Hs. cbn beta.
    unfold jsstring_eqb. now apply bool_decide_eq_false.
  - unfold jsstring_eqb. now apply bool_decide_eq_true.
Qed.

Lemma loadSnapshot_returns_what_was_saved_witness :
  let w := Workers.fresh (lit "medium") in
  let snapshot := Workers.captured_page in
  let snapshotId :=
    ServiceWorker.SnapshotManager.snapshot_id (Some 7%Z) (ServiceWorker.cap_timestamp snapshot) in
  exists w',
    ServiceWorker.SnapshotManager.saveSnapshot (Some 7%Z) snapshot w = (w', Ok snapshotId)
    /\ ServiceWorker.SnapshotManager.loadSnapshot snapshotId w'
       = (w', Ok (parsed (JArr (ServiceWorker.cap_forms snapshot)))).
Proof.
  intros w snapshot snapshotId.
  apply (loadSnapshot_returns_what_was_saved (Some 7%Z) snapshot w).
  - vm_compute. reflexivity.
  - right. vm_compute. reflexivity.
  - cbn. lia.
  - constructor.
Defined.

(** The log of the worker keeps errors and warnings only, and never more
    than a hundred of them.  A call at the level [error] or [warn] appends
    its entry and drops the oldest entries beyond the hundredth; a call at
    any other level stores nothing.  The snapshots are not touched. *)
Theorem Logger_keeps_a_hundred :
  forall (level message : jsstring) (w : ServiceWorker.Worker),
    exists w',
      ServiceWorker.Logger.log level message w = (w', Ok tt)
      /\ ServiceWorker.angular_form_snapshots w' = ServiceWorker.angular_form_snapshots w
      /\ (level = lit "error" \/ level = lit "warn" ->
          length (ServiceWorker.debug_logs w')
          = Nat.min (length (ServiceWorker.debug_logs w) + 1) 100
          /\ exists dropped kept,
               ServiceWorker.debug_logs w = dropped ++ kept
               /\ ServiceWorker.debug_logs w'
                  = kept ++ [{| ServiceWorker.log_level := level;
                                ServiceWorker.log_message := message |}])
      /\ (level <> lit "error" -> level <> lit "warn" -> w' = w).
Proof.
  intros level message w. unfold ServiceWorker.Logger.log, jsstring_eqb.
  destruct (bool_decide_reflect (level = lit "error")) as [He|He];
    [|destruct (bool_decide_reflect (level = lit "warn")) as [Hw|Hw]]; cbn [orb].
  1, 2: eexists; split; [reflexivity|]; split; [reflexivity|]; split; [|tauto];
        intros _; cbn [ServiceWorker.debug_logs ServiceWorker.with_logs]; split;
        [ rewrite keep_last_length, List.length_app; reflexivity
        | rewrite keep_last_app by lia;
          destruct (keep_last_suffix (100 - 1) (ServiceWorker.debug_logs w)) as [dropped Hd];
          exists dropped, (ServiceWorker.keep_last (100 - 1) (ServiceWorker.debug_logs w));
          split; [exact Hd | reflexivity] ].
  exists w. split; [reflexivity|]. split; [reflexivity|]. split; [tauto | reflexivity].
Qed.
Section Listing.
Import ServiceWorker ServiceWorker.MessageHandler.

Lemma insert_by_timestamp_perm a l : Permutation (insert_by_timestamp a l) (a :: l).
Proof.
  induction l as [|b rest IH]; cbn [insert_by_timestamp]; [reflexivity|].
  destruct (entry_timestamp a <? entry_timestamp b)%Z; [|reflexivity].
  rewrite IH. apply perm_swap.
Qed.

Lemma sort_by_timestamp_perm l : Permutation (sort_by_timestamp l) l.
Proof.
  induction l as [|a l IH]; [reflexivity|].
  unfold sort_by_timestamp in *. cbn [fold_right].
  rewrite insert_by_timestamp_perm. now constructor.
Qed.

Lemma insert_by_timestamp_sorted a l :
  StronglySorted newer_first l -> StronglySorted newer_first (insert_by_timestamp a l).
Proof.
  induction 1 as [|b rest Hrest IH Hb]; cbn [insert_by_timestamp].
  - constructor; constructor.
  - destruct (Z.ltb_spec (entry_timestamp a) (entry_timestamp b)) as [Hlt|Hge].
    + constructor; [exact IH|].
      eapply Permutation_Forall; [symmetry; apply insert_by_timestamp_perm|].
      constructor; [unfold newer_first; lia | exact Hb].
    + constructor; [now constructor|].
      constructor; [exact Hge|].
      eapply Forall_impl; [exact Hb|]. intros s Hs. unfold newer_first in *. lia.
Qed.

Lemma sort_by_timestamp_sorted l : StronglySorted newer_first (sort_by_timestamp l).
Proof.
  induction l as [|a l IH]; [constructor|].
  unfold sort_by_timestamp in *. cbn [fold_right]. now apply insert_by_timestamp_sorted.
Qed.

Lemma insert_by_timestamp_stable t a l :
  List.filter (fun s => (entry_timestamp s =? t)%Z) (insert_by_timestamp a l)
  = List.filter (fun s => (entry_timestamp s =? t)%Z) (a :: l).
Proof.
  induction l as [|b rest IH]; cbn [insert_by_timestamp]; [reflexivity|].
  destruct (Z.ltb_spec (entry_timestamp a) (entry_timestamp b)) as [Hlt|Hge]; [|reflexivity].
  cbn [List.filter] in *. rewrite IH.
  destruct (Z.eqb_spec (entry_timestamp a) t) as [Ea|Ea];
    destruct (Z.eqb_spec (entry_timestamp b) t) as [Eb|Eb]; try reflexivity.
  lia.
Qed.

Lemma sort_by_timestamp_stable t l :
  List.filter (fun s => (entry_timestamp s =? t)%Z) (sort_by_timestamp l)
  = List.filter (fun s => (entry_timestamp s =? t)%Z) l.
Proof.
  induction l as [|a l IH]; [reflexivity|].
  unfold sort_by_timestamp in *. cbn [fold_right].
  rewrite insert_by_timestamp_stable. cbn [List.filter]. now rewrite IH.
Qed.

Lemma filter_everything {A} (p : A -> bool) l :
  (forall x, p x = true) -> List.filter p l = l.
Proof.
  intros Hp. induction l as [|a l IH]; [reflexivity|].
  cbn [List.filter]. now rewrite Hp, IH.
Qed.

Lemma find_first {A} (p : A -> bool) l x :
  In x l -> p x = true -> exists y, List.find p l = Some y /\ In y l /\ p y = true.
Proof.
  induction l as [|a l IH]; intros Hin Hx; [destruct Hin|].
  cbn [List.find]. destruct (p a) eqn:Ha.
  - exists a. split; [reflexivity|]. split; [now left | exact Ha].
  - destruct Hin as [->|Hin]; [congruence|].
    destruct (IH Hin Hx) as (y & Hf & Hy & Hp). exists y.
    split; [exact Hf|]. split; [now right | exact Hp].
Qed.

End Listing.

(** The list of snapshots is the store, filtered and sorted.  For a tab
    identifier that is [undefined] or [0] every entry is listed, otherwise
    the entries of the tab; the list holds each of them once, newest
    first, and entries of one timestamp keep the order of the store.  The
    worker is left as it was. *)
Theorem getSnapshotsList_newest_first :
  forall (tabId : option Z) (w : ServiceWorker.Worker),
    exists l,
      ServiceWorker.MessageHandler.getSnapshotsList tabId w = (w, Ok l)
      /\ Permutation l (List.filter (of_tab tabId) (ServiceWorker.angular_form_snapshots w))
      /\ StronglySorted newer_first l
      /\ (forall t,
            List.filter (fun s => (ServiceWorker.entry_timestamp s =? t)%Z) l
            = List.filter (fun s => (ServiceWorker.entry_timestamp s =? t)%Z)
                (List.filter (of_tab tabId) (ServiceWorker.angular_form_snapshots w)))
      /\ (ServiceWorker.MessageHandler.no_tab tabId = true ->
          Permutation l (ServiceWorker.angular_form_snapshots w)).
Proof.
  intros tabId w. eexists. split; [reflexivity|].
  fold (of_tab tabId). split; [apply sort_by_timestamp_perm|].
  split; [apply sort_by_timestamp_sorted|].
  split; [intros t; apply sort_by_timestamp_stable|].
  intros Hno. rewrite sort_by_timestamp_perm.
  rewrite filter_everything; [reflexivity|].
  intros s. unfold of_tab. now rewrite Hno.
Qed.

(** The restore shortcut never restores.  Every entry that [saveSnapshot]
    stores decompresses to the array of the forms, so a store filled by
    [saveSnapshot] holds arrays only.  On such a store
    [restoreFormsCommand] either sends nothing (the tab is not an Angular
    tab, or it has no snapshot) or sends one [RESTORE_FORMS] message whose
    snapshot is an array; [restoreForms] in the page looks for
    [snapshot.formControls], which an array does not have, and refuses
    the message with [Invalid snapshot data]. *)
Theorem restoreFormsCommand_is_refused :
  forall (tabId : Z) (w : ServiceWorker.Worker),
    Forall holds_array (ServiceWorker.angular_form_snapshots w) ->
    (forall (tab : option Z) (snapshot : ServiceWorker.CapturedSnapshot),
        json_wf (JArr (ServiceWorker.cap_forms snapshot)) = true ->
        Forall holds_array
          (ServiceWorker.angular_form_snapshots
             (fst (ServiceWorker.SnapshotManager.saveSnapshot tab snapshot w))))
    /\ (tabId ∉ ServiceWorker.angularTabs w ->
        ServiceWorker.CommandHandler.restoreFormsCommand tabId w
        = (logged (lit "warn") (lit "Restore attempted on non-Angular tab") w, Ok tt))
    /\ (tabId ∈ ServiceWorker.angularTabs w ->
        List.filter (of_tab (Some tabId)) (ServiceWorker.angular_form_snapshots w) = [] ->
        ServiceWorker.CommandHandler.restoreFormsCommand tabId w
        = (logged (lit "warn") (lit "No snapshots available for restore") w, Ok tt))
    /\ (tabId ∈ ServiceWorker.angularTabs w ->
        List.filter (of_tab (Some tabId)) (ServiceWorker.angular_form_snapshots w) <> [] ->
        exists items data,
          ServiceWorker.CommandHandler.restoreFormsCommand tabId w
          = (ServiceWorker.with_sent
               (ServiceWorker.tabs_sendMessage w
                  ++ [(tabId, ServiceWorker.CommandHandler.restore_message (JArr items))]) w,
             Ok tt)
          /\ property (ServiceWorker.CommandHandler.restore_message (JArr items)) (lit "data")
             = Some data
          /\ forall (h : Host) (clipboard : option jsstring) (trace : list Op),
               restoreForms_snapshot h clipboard data trace
               = (trace, Throw (lit "Invalid snapshot data"))).
Proof.
  intros tabId w Hinv. split; [|split; [|split]].
  - intros tab snapshot Hwf. rewrite saveSnapshot_run.
    destruct (snd (ServiceWorker.SnapshotManager.compressSnapshot snapshot w))
      as [compressed|e] eqn:Hc; [|exact Hinv].
    cbn [fst ServiceWorker.angular_form_snapshots ServiceWorker.with_snapshots].
    assert (Hall : Forall holds_array
                     (ServiceWorker.angular_form_snapshots w
                        ++ [entry_of tab snapshot compressed])).
    2: { destruct (keep_last_suffix
                     (ServiceWorker.maxSnapshots (ServiceWorker.settings w))
                     (ServiceWorker.angular_form_snapshots w
                        ++ [entry_of tab snapshot compressed])) as [dropped Hd].
         rewrite Hd in Hall. apply Forall_app in Hall. exact (proj2 Hall). }
    apply Forall_app. split; [exact Hinv|].
    constructor; [|constructor].
    assert (Hcase : through_utf8
                      (ServiceWorker.compressionLevel (ServiceWorker.settings w)) = true
                    \/ latin1 (forms_text snapshot) = true).
    { destruct (through_utf8 _) eqn:Hu; [now left|]. right.
      destruct (latin1 (forms_text snapshot)) eqn:Hl; [reflexivity|].
      rewrite compressSnapshot_level, Hu in Hc.
      unfold ServiceWorker.SnapshotManager.compressMedium, btoa in Hc.
      unfold latin1 in Hl. rewrite Hl in Hc. discriminate Hc. }
    destruct (compressSnapshot_round_trip snapshot w Hwf Hcase) as (c & Hc' & Hd).
    rewrite Hc in Hc'. injection Hc' as <-.
    exists (List.map parsed (ServiceWorker.cap_forms snapshot)). exact Hd.
  - intros Hnot. unfold ServiceWorker.CommandHandler.restoreFormsCommand, bind, get.
    now rewrite bool_decide_eq_false_2.
  - intros Htab Hnone. unfold ServiceWorker.CommandHandler.restoreFormsCommand, bind, get.
    rewrite bool_decide_eq_true_2 by exact Htab. cbn [negb].
    unfold ServiceWorker.MessageHandler.getSnapshotsList, bind, get, ret.
    fold (of_tab (Some tabId)). now rewrite Hnone.
  - intros Htab Hsome. unfold ServiceWorker.CommandHandler.restoreFormsCommand, bind, get.
    rewrite bool_decide_eq_true_2 by exact Htab. cbn [negb].
    unfold ServiceWorker.MessageHandler.getSnapshotsList, bind, get, ret.
    fold (of_tab (Some tabId)).
    pose proof (sort_by_timestamp_perm
                  (List.filter (of_tab (Some tabId))
                     (ServiceWorker.angular_form_snapshots w))) as Hperm.
    destruct (ServiceWorker.MessageHandler.sort_by_timestamp
                (List.filter (of_tab (Some tabId))
                   (ServiceWorker.angular_form_snapshots w))) as [|latest others].
    { apply Permutation_nil in Hperm. contradiction. }
    assert (Hlatest : In latest (ServiceWorker.angular_form_snapshots w)).
    { assert (H : In latest (List.filter (of_tab (Some tabId))
                               (ServiceWorker.angular_form_snapshots w)))
        by (eapply Permutation_in; [exact Hperm | now left]).
      apply filter_In in H. tauto. }
    destruct (find_first
                (fun s => jsstring_eqb (ServiceWorker.entry_id s)
                            (ServiceWorker.entry_id latest))
                _ latest Hlatest) as (found & Hfind & Hfound & _).
    { unfold jsstring_eqb. now apply bool_decide_eq_true. }
    rewrite Forall_forall in Hinv.
    destruct (Hinv found (proj2 (list_elem_of_In _ _) Hfound)) as [items Hitems].
    exists items. eexists.
    split; [|split; [reflexivity|]].
    + unfold ServiceWorker.SnapshotManager.loadSnapshot, try_catch, bind, get.
      rewrite Hfind. unfold lift. rewrite Hitems. reflexivity.
    + intros h clipboard trace. reflexivity.
Qed.

Lemma restoreFormsCommand_is_refused_witness :
  let w := Workers.after_one_save in
  exists items data,
    ServiceWorker.CommandHandler.restoreFormsCommand 7 w
    = (ServiceWorker.with_sent
         (ServiceWorker.tabs_sendMessage w
            ++ [(7%Z, ServiceWorker.CommandHandler.restore_message (JArr items))]) w,
       Ok tt)
    /\ property (ServiceWorker.CommandHandler.restore_message (JArr items)) (lit "data")
       = Some data
    /\ forall (h : Host) (clipboard : option jsstring) (trace : list Op),
         restoreForms_snapshot h clipboard data trace
         = (trace, Throw (lit "Invalid snapshot data")).
Proof.
  intros w.
  assert (Hinv : Forall holds_array (ServiceWorker.angular_form_snapshots w)).
  { constructor; [|constructor]. eexists. vm_compute. reflexivity. }
  apply (proj2 (proj2 (proj2 (restoreFormsCommand_is_refused 7 w Hinv)))).
  - vm_compute. reflexivity.
  - vm_compute. discriminate.
Defined.

(** Restoring from a token, carried by the options or read from the
    clipboard as the popup asks.  Below the compression threshold the
    snapshot that [decodeFormData] returns has its [formControls] and
    passes the validity check of [restoreForms]; at and above the
    threshold what is decoded is the container of the compression, with
    [CompressionStream] or with the dictionary fallback, and the restore
    is refused with [Invalid snapshot data]. *)
Theorem restoreForms_snapshot_of_a_token :
  forall (h : Host) (clipboard : option jsstring) (formControls : list FormControlData),
    json_wf (DataEncoder.snapshot_json h formControls) = true ->
    let token := token_of h formControls in
    let text := JSON_stringify (DataEncoder.snapshot_json h formControls) in
    ((length text < ENCODING_CONFIG.COMPRESSION_THRESHOLD)%nat ->
     restoreForms_snapshot h clipboard (from_token token) []
     = (decode_trace, Ok (parsed (DataEncoder.snapshot_json h formControls)))
     /\ restoreForms_snapshot h (Some token) from_clipboard []
        = (decode_trace, Ok (parsed (DataEncoder.snapshot_json h formControls)))
     /\ property (parsed (DataEncoder.snapshot_json h formControls)) (lit "formControls")
        = Some (JArr (List.map parsed (List.map DataEncoder.control_json formControls))))
    /\ ((ENCODING_CONFIG.COMPRESSION_THRESHOLD <= length text)%nat ->
        restoreForms_snapshot h clipboard (from_token token) []
        = (decode_trace, Throw (lit "Invalid snapshot data"))
        /\ restoreForms_snapshot h (Some token) from_clipboard []
           = (decode_trace, Throw (lit "Invalid snapshot data"))).
Proof.
  intros h clipboard formControls Hwf token text.
  assert (Hopt : forall cb,
             restoreForms_snapshot h cb (from_token token) []
             = restoreForms_snapshot h (Some token) from_clipboard []).
  { intros cb. unfold restoreForms_snapshot, from_token, from_clipboard.
    change (is_truthy (property (JObj [(lit "encodedSnapshot", JStr token)]) (lit "snapshot")))
      with false.
    change (is_truthy (property (JObj [(lit "encodedSnapshot", JStr token)])
                         (lit "encodedSnapshot")))
      with (truthy token).
    unfold token. rewrite token_is_truthy. reflexivity. }
  assert (Hrun : restoreForms_snapshot h (Some token) from_clipboard []
                 = match DataEncoder.decodeFormData h token [] with
                   | (t, Ok snapshot) =>
                       if negb (ToBoolean snapshot)
                          || negb (is_truthy (property snapshot (lit "formControls")))
                       then (t, Throw (lit "Invalid snapshot data"))
                       else (t, Ok snapshot)
                   | (t, Throw e) => (t, Throw e)
                   end).
  { unfold restoreForms_snapshot, from_clipboard, bind, readFromClipboard, ret, throw.
    change (is_truthy (property (JObj [(lit "fromClipboard", JBool true)]) (lit "snapshot")))
      with false.
    change (is_truthy (property (JObj [(lit "fromClipboard", JBool true)])
                         (lit "encodedSnapshot")))
      with false.
    change (property (JObj [(lit "fromClipboard", JBool true)]) (lit "fromClipboard"))
      with (Some (JBool true)).
    cbv beta iota.
    destruct (DataEncoder.decodeFormData h token []) as [t [snapshot|e]]; [|reflexivity].
    now destruct (negb (ToBoolean snapshot)
                  || negb (is_truthy (property snapshot (lit "formControls")))). }
  split.
  - intros Hlen.
    assert (Hd : DataEncoder.decodeFormData h token []
                 = (decode_trace, Ok (parsed (DataEncoder.snapshot_json h formControls)))).
    { unfold token. rewrite (decodeFormData_token h formControls text).
      - unfold text. now rewrite parse_stringify.
      - unfold text. rewrite packed_of_small by exact Hlen. cbn [json_text_of].
        now apply decoded_text_stringify. }
    assert (Hr : restoreForms_snapshot h (Some token) from_clipboard []
                 = (decode_trace, Ok (parsed (DataEncoder.snapshot_json h formControls)))).
    { rewrite Hrun, Hd, parsed_snapshot_has_formControls. reflexivity. }
    split; [now rewrite Hopt|]. split; [exact Hr|].
    apply parsed_snapshot_has_formControls.
  - intros Hlen.
    assert (Htext : wf_string text = true)
      by (apply Forall_wf_string, JSON_stringify_units, Hwf).
    destruct (packed_large_is_no_snapshot h text Htext Hlen)
      as (Hjson & Hcwf & Hobj & Hnone & _).
    set (container := DataEncoder.packed_json (packed_of h text)) in *.
    assert (Hd : DataEncoder.decodeFormData h token [] = (decode_trace, Ok (parsed container))).
    { unfold token. rewrite (decodeFormData_token h formControls (JSON_stringify container)).
      - now rewrite parse_stringify.
      - fold text. rewrite Hjson. now apply decoded_text_stringify. }
    assert (Hr : restoreForms_snapshot h (Some token) from_clipboard []
                 = (decode_trace, Throw (lit "Invalid snapshot data"))).
    { rewrite Hrun, Hd, Hobj, Hnone. reflexivity. }
    split; [now rewrite Hopt | exact Hr].
Qed.

Lemma restoreForms_snapshot_of_a_token_witness :
  let h := Samples.host in
  let formControls := Samples.captured Samples.small_page in
  let token := token_of h formControls in
  restoreForms_snapshot h None (from_token token) []
  = (decode_trace, Ok (parsed (DataEncoder.snapshot_json h formControls)))
  /\ restoreForms_snapshot h (Some token) from_clipboard []
     = (decode_trace, Ok (parsed (DataEncoder.snapshot_json h formControls)))
  /\ property (parsed (DataEncoder.snapshot_json h formControls)) (lit "formControls")
     = Some (JArr (List.map parsed (List.map DataEncoder.control_json formControls))).
Proof.
  intros h formControls token.
  assert (Hwf : json_wf (DataEncoder.snapshot_json h formControls) = true)
    by (vm_compute; reflexivity).
  apply (proj1 (restoreForms_snapshot_of_a_token h None formControls Hwf)).
  vm_compute. lia.
Defined.

(** An identifier the store does not hold.  [loadSnapshot] throws
    [Snapshot not found: <id>], logs the failure as an error and leaves
    the snapshots alone; nothing is decompressed. *)
Theorem loadSnapshot_reports_unknown_identifiers :
  forall (snapshotId : jsstring) (w : ServiceWorker.Worker),
    Forall (fun s => ServiceWorker.entry_id s <> snapshotId)
           (ServiceWorker.angular_form_snapshots w) ->
    ServiceWorker.SnapshotManager.loadSnapshot snapshotId w
    = (logged (lit "error") (lit "Failed to load snapshot") w,
       Throw (lit "Snapshot not found: " ++ snapshotId)).
Proof.
  intros snapshotId w Hall.
  unfold ServiceWorker.SnapshotManager.loadSnapshot, try_catch, bind, get.
  assert (Hfind : List.find (fun s => jsstring_eqb (ServiceWorker.entry_id s) snapshotId)
                    (ServiceWorker.angular_form_snapshots w) = None).
  { induction Hall as [|s l Hs _ IH]; [reflexivity|]. cbn [List.find].
    unfold jsstring_eqb at 1. now rewrite bool_decide_eq_false_2. }
  rewrite Hfind. reflexivity.
Qed.

Lemma loadSnapshot_reports_unknown_identifiers_witness :
  let w := Workers.after_one_save in
  ServiceWorker.SnapshotManager.loadSnapshot (lit "snapshot_7_0") w
  = (logged (lit "error") (lit "Failed to load snapshot") w,
     Throw (lit "Snapshot not found: snapshot_7_0")).
Proof.
  intros w.
  apply (loadSnapshot_reports_unknown_identifiers (lit "snapshot_7_0") w).
  constructor; [|constructor]. vm_compute. discriminate.
Defined.
